(** * bare-bmp: the BMP codec of [binding.c], embedded and verified

    The two native entry points [bare_bmp_decode] and [bare_bmp_encode]
    (and the stub [bare_bmp_encode_animated]) are translated statement by
    statement.  The target is the one the binding is built for: a
    little-endian LP64 machine ([int] is 32 bits, [int64_t] and [size_t]
    are 64 bits), so a packed header struct laid over the buffer reads its
    fields least significant byte first.

    - Unsigned arithmetic wraps ([u32], [u64]).
    - Signed arithmetic whose result is not representable is undefined
      behaviour: the model stops with [Undefined] ([i32], [i64]).
    - A pointer is a buffer together with an offset; forming one is not
      checked, reading or writing through it outside the buffer is
      [Undefined].
    - [malloc] is answered by the environment (the [heap] argument): a
      null pointer or a fresh block, filled with one byte for an
      [allocator], of arbitrary content for a [block_allocator].
    - The calls into the JavaScript engine ([js_create_object] and the
      like) are guarded by [assert (err == 0)] in the source and are taken
      to succeed. *)

From Stdlib Require Import ZArith Lia List Strings.Byte String.
From stdpp Require Import base list.

Local Open Scope Z_scope.

(** ** Outcomes of a native call *)

(** The error kinds, one per [js_throw_error] call site. *)
Inductive error : Set :=
  | TooSmall
  | BadMagic
  | UnsupportedHeader
  | UnsupportedCompression
  | UnsupportedBitDepth
  | TruncatedData
  | AllocationFailure
  | BufferTooSmall
  | NotSupported.

(** The text handed to [js_throw_error]. *)
Definition message (e : error) : string :=
  match e with
  | TooSmall => "Invalid BMP: file too small"
  | BadMagic => "Invalid BMP: wrong magic number"
  | UnsupportedHeader => "Unsupported BMP: only BITMAPINFOHEADER supported"
  | UnsupportedCompression => "Unsupported BMP: only uncompressed format supported"
  | UnsupportedBitDepth => "Unsupported BMP: only 24-bit and 32-bit formats supported"
  | TruncatedData => "Invalid BMP: pixel data exceeds file size"
  | AllocationFailure => "Memory allocation failed"
  | BufferTooSmall => "Invalid RGBA: data buffer too small"
  | NotSupported => "BMP format does not support animation"
  end.

(** A call returns a value, throws, or runs into undefined behaviour. *)
Inductive outcome (A : Type) : Type :=
  | Ok (a : A)
  | Throw (e : error)
  | Undefined.

Arguments Ok {A} a.
Arguments Throw {A} e.
Arguments Undefined {A}.

Definition bind {A B : Type} (m : outcome A) (k : A -> outcome B) : outcome B :=
  match m with
  | Ok a => k a
  | Throw e => Throw e
  | Undefined => Undefined
  end.

(** An outcome that is a value or undefined, never an exception. *)
Definition no_throw {A : Type} (m : outcome A) : Prop :=
  forall e, m <> Throw e.

Notation "'let*' x ':=' m 'in' k" := (bind m (fun x => k))
  (at level 10, x pattern, m at level 100, k at level 200).

(** ** Machine integers *)

(** Conversion to [uint32_t] and to [size_t]. *)
Definition u32 (z : Z) : Z := z mod 2 ^ 32.
Definition u64 (z : Z) : Z := z mod 2 ^ 64.

(** Conversion of a wider value to [int32_t] (two's complement). *)
Definition s32 (z : Z) : Z :=
  let u := u32 z in if u <? 2 ^ 31 then u else u - 2 ^ 32.

(** The result [z] of an [int] (resp. [int64_t]) operation. *)
Definition i32 (z : Z) : outcome Z :=
  if (- 2 ^ 31 <=? z) && (z <? 2 ^ 31) then Ok z else Undefined.
Definition i64 (z : Z) : outcome Z :=
  if (- 2 ^ 63 <=? z) && (z <? 2 ^ 63) then Ok z else Undefined.

(** ** Buffers *)

Definition byte_val (b : byte) : Z := Z.of_N (Byte.to_N b).

Definition byte_of (z : Z) : byte :=
  match Byte.of_N (Z.to_N (z mod 256)) with
  | Some b => b
  | None => x00
  end.

(** [p[i]] as an rvalue and [p[i] = b], for [p] the start of buffer [m]. *)
Definition load (m : list byte) (i : Z) : outcome byte :=
  if (0 <=? i) && (i <? Z.of_nat (length m))
  then match m !! Z.to_nat i with
       | Some b => Ok b
       | None => Undefined
       end
  else Undefined.

Definition store (m : list byte) (i : Z) (b : byte) : outcome (list byte) :=
  if (0 <=? i) && (i <? Z.of_nat (length m))
  then Ok (<[Z.to_nat i := b]> m)
  else Undefined.

(** Header fields: a [uint16_t], [uint32_t] or [int32_t] member of a packed
    struct at byte offset [off]. *)
Definition read_u16 (m : list byte) (off : Z) : outcome Z :=
  let* b0 := load m off in
  let* b1 := load m (off + 1) in
  Ok (byte_val b0 + 2 ^ 8 * byte_val b1).

Definition read_u32 (m : list byte) (off : Z) : outcome Z :=
  let* b0 := load m off in
  let* b1 := load m (off + 1) in
  let* b2 := load m (off + 2) in
  let* b3 := load m (off + 3) in
  Ok (byte_val b0 + 2 ^ 8 * byte_val b1 + 2 ^ 16 * byte_val b2 + 2 ^ 24 * byte_val b3).

Definition read_i32 (m : list byte) (off : Z) : outcome Z :=
  let* u := read_u32 m off in
  Ok (if u <? 2 ^ 31 then u else u - 2 ^ 32).

Definition write_u16 (m : list byte) (off : Z) (v : Z) : outcome (list byte) :=
  let* m := store m off (byte_of v) in
  store m (off + 1) (byte_of (v / 2 ^ 8)).

Definition write_u32 (m : list byte) (off : Z) (v : Z) : outcome (list byte) :=
  let* m := store m off (byte_of v) in
  let* m := store m (off + 1) (byte_of (v / 2 ^ 8)) in
  let* m := store m (off + 2) (byte_of (v / 2 ^ 16)) in
  store m (off + 3) (byte_of (v / 2 ^ 24)).

(** Storing into an [int32_t] member converts the value first. *)
Definition write_i32 (m : list byte) (off : Z) (v : Z) : outcome (list byte) :=
  write_u32 m off (u32 (s32 v)).

(** ** The allocator *)

(** [heap n] is the environment's answer to [malloc (n)]: [None] for a null
    pointer, [Some b] for a fresh block, [b] standing for its stale
    content.  No allocator serves a request above [PTRDIFF_MAX]. *)
Definition allocator : Type := Z -> option byte.

Definition PTRDIFF_MAX : Z := 2 ^ 63 - 1.

Definition malloc (heap : allocator) (size : Z) : option (list byte) :=
  if size <=? PTRDIFF_MAX
  then match heap size with
       | Some junk => Some (replicate (Z.to_nat size) junk)
       | None => None
       end
  else None.

(** [memset (p, 0, n)] over the whole block [m] of [n] bytes. *)
Definition memset_zero (m : list byte) : list byte :=
  replicate (length m) x00.

(** ** Loops *)

(** [for (int32_t i = i0; i < bound; i++) body], entered with [i0 <= bound]:
    the body runs for [i0], [i0 + 1], ... and [n] counts the iterations
    left, [bound - i]. *)
Fixpoint for_i32 {S : Type} (n : nat) (i : Z) (body : Z -> S -> outcome S) (s : S)
  : outcome S :=
  match n with
  | O => Ok s
  | Datatypes.S n' =>
      let* s' := body i s in
      let* i' := i32 (i + 1) in
      for_i32 n' i' body s'
  end.

(** ** The decoder *)

(** What [decode] hands back: the object [{ width, height, data }]. *)
Record image : Type := Image {
  width : Z;
  height : Z;
  data : list byte
}.

(** [sizeof (bmp_file_header_t)] and [sizeof (bmp_dib_header_t)]. *)
Definition sizeof_file_header : Z := 14.
Definition sizeof_dib_header : Z := 40.

(** Line 105: [((width * bytes_per_pixel + 3) / 4) * 4] in [uint32_t]. *)
Definition row_size (width bytes_per_pixel : Z) : Z :=
  u32 (u32 (u32 (u32 width * bytes_per_pixel) + 3) / 4 * 4).

(** Line 108: [data_offset + (row_size * abs_height)] in [uint32_t]. *)
Definition pixel_extent (data_offset row_size abs_height : Z) : Z :=
  u32 (data_offset + u32 (row_size * u32 abs_height)).

(** Line 127: [top_down ? y : (abs_height - 1 - y)]. *)
Definition src_row (top_down : bool) (abs_height y : Z) : outcome Z :=
  if top_down then Ok y
  else (let* t := i32 (abs_height - 1) in i32 (t - y)).

(** Lines 133-139: one pixel.  The state is [(src, dst, rgba_data)], the
    two cursors as offsets into [bmp_data] and [rgba_data]. *)
Definition decode_pixel (bmp_data : list byte) (bpp bytes_per_pixel : Z)
    (st : Z * Z * list byte) : outcome (Z * Z * list byte) :=
  let '(src, dst, rgba_data) := st in
  let* r := load bmp_data (src + 2) in
  let* rgba_data := store rgba_data dst r in
  let* g := load bmp_data (src + 1) in
  let* rgba_data := store rgba_data (dst + 1) g in
  let* b := load bmp_data src in
  let* rgba_data := store rgba_data (dst + 2) b in
  let* a := (if bpp =? 32 then load bmp_data (src + 3) else Ok xff) in
  let* rgba_data := store rgba_data (dst + 3) a in
  Ok (src + bytes_per_pixel, dst + 4, rgba_data).

(** Lines 126-140: one row. *)
Definition decode_row (bmp_data : list byte) (data_offset width abs_height : Z)
    (top_down : bool) (bpp bytes_per_pixel row_size : Z)
    (y : Z) (rgba_data : list byte) : outcome (list byte) :=
  let* r := src_row top_down abs_height y in
  let src := data_offset + u32 (u32 r * row_size) in
  let* yw := i32 (y * width) in
  let* d := i32 (yw * 4) in
  let dst := d in
  let* (_, _, rgba_data) :=
    for_i32 (Z.to_nat width) 0
      (fun _ => decode_pixel bmp_data bpp bytes_per_pixel) (src, dst, rgba_data) in
  Ok rgba_data.

Definition bare_bmp_decode (heap : allocator) (bmp_data : list byte) : outcome image :=
  let bmp_len := Z.of_nat (length bmp_data) in
  if bmp_len <? sizeof_file_header + sizeof_dib_header then Throw TooSmall else
  let* magic := read_u16 bmp_data 0 in
  if negb (magic =? 0x4D42) then Throw BadMagic else
  let* header_size := read_u32 bmp_data 14 in
  if negb (header_size =? 40) then Throw UnsupportedHeader else
  let* compression := read_u32 bmp_data 30 in
  if negb (compression =? 0) then Throw UnsupportedCompression else
  let* bpp := read_u16 bmp_data 28 in
  if negb (bpp =? 24) && negb (bpp =? 32) then Throw UnsupportedBitDepth else
  let* width := read_i32 bmp_data 18 in
  let* height := read_i32 bmp_data 22 in
  let* abs_height := (if height <? 0 then i32 (- height) else Ok height) in
  let top_down := height <? 0 in
  let bytes_per_pixel := bpp / 8 in
  let row_size := row_size width bytes_per_pixel in
  let* data_offset := read_u32 bmp_data 10 in
  if pixel_extent data_offset row_size abs_height >? bmp_len then Throw TruncatedData else
  let* wh := i32 (width * abs_height) in
  let* size := i32 (wh * 4) in
  match malloc heap (u64 size) with
  | None => Throw AllocationFailure
  | Some rgba_data =>
      let* rgba_data :=
        for_i32 (Z.to_nat abs_height) 0
          (decode_row bmp_data data_offset width abs_height top_down
             bpp bytes_per_pixel row_size)
          rgba_data in
      Ok {| width := width; height := abs_height; data := rgba_data |}
  end.

(** ** The decoder on a block of arbitrary content *)

(** The block that [malloc] returns holds whatever the memory held before.
    A [block_allocator] answers [malloc (n)] with a null pointer ([None]) or
    with the content of the fresh block, byte by byte; the [allocator] above
    is the case of a block whose bytes are all the same. *)
Definition block_allocator : Type := Z -> option (Z -> byte).

Definition malloc_block (heap : block_allocator) (size : Z) : option (list byte) :=
  if size <=? PTRDIFF_MAX
  then match heap size with
       | Some content =>
           Some (map (fun i : nat => content (Z.of_nat i)) (seq 0 (Z.to_nat size)))
       | None => None
       end
  else None.

(** The block allocator that fills each block with the byte that [heap]
    gives. *)
Definition constant_blocks (heap : allocator) : block_allocator :=
  fun size => match heap size with
              | Some junk => Some (fun _ => junk)
              | None => None
              end.

(** [bare_bmp_decode], statement by statement as above, on such a block. *)
Definition bare_bmp_decode_block (heap : block_allocator) (bmp_data : list byte)
    : outcome image :=
  let bmp_len := Z.of_nat (length bmp_data) in
  if bmp_len <? sizeof_file_header + sizeof_dib_header then Throw TooSmall else
  let* magic := read_u16 bmp_data 0 in
  if negb (magic =? 0x4D42) then Throw BadMagic else
  let* header_size := read_u32 bmp_data 14 in
  if negb (header_size =? 40) then Throw UnsupportedHeader else
  let* compression := read_u32 bmp_data 30 in
  if negb (compression =? 0) then Throw UnsupportedCompression else
  let* bpp := read_u16 bmp_data 28 in
  if negb (bpp =? 24) && negb (bpp =? 32) then Throw UnsupportedBitDepth else
  let* width := read_i32 bmp_data 18 in
  let* height := read_i32 bmp_data 22 in
  let* abs_height := (if height <? 0 then i32 (- height) else Ok height) in
  let top_down := height <? 0 in
  let bytes_per_pixel := bpp / 8 in
  let row_size := row_size width bytes_per_pixel in
  let* data_offset := read_u32 bmp_data 10 in
  if pixel_extent data_offset row_size abs_height >? bmp_len then Throw TruncatedData else
  let* wh := i32 (width * abs_height) in
  let* size := i32 (wh * 4) in
  match malloc_block heap (u64 size) with
  | None => Throw AllocationFailure
  | Some rgba_data =>
      let* rgba_data :=
        for_i32 (Z.to_nat abs_height) 0
          (decode_row bmp_data data_offset width abs_height top_down
             bpp bytes_per_pixel row_size)
          rgba_data in
      Ok {| width := width; height := abs_height; data := rgba_data |}
  end.

(** ** The encoder *)

(** Lines 270-276: one pixel, state [(src, dst, bmp_data)]. *)
Definition encode_pixel (rgba_data : list byte)
    (st : Z * Z * list byte) : outcome (Z * Z * list byte) :=
  let '(src, dst, bmp_data) := st in
  let* b := load rgba_data (src + 2) in
  let* bmp_data := store bmp_data dst b in
  let* g := load rgba_data (src + 1) in
  let* bmp_data := store bmp_data (dst + 1) g in
  let* r := load rgba_data src in
  let* bmp_data := store bmp_data (dst + 2) r in
  Ok (src + 4, dst + 3, bmp_data).

(** Lines 264-278: one row; [width] and [height] are [int64_t] here. *)
Definition encode_row (rgba_data : list byte) (data_offset width height row_size : Z)
    (y : Z) (bmp_data : list byte) : outcome (list byte) :=
  let* t := i64 (height - 1) in
  let* t := i64 (t - y) in
  let dst_row := s32 t in
  let* yw := i64 (y * width) in
  let* s := i64 (yw * 4) in
  let src := s in
  let dst := data_offset + u32 (u32 dst_row * row_size) in
  let* (_, _, bmp_data) :=
    for_i32 (Z.to_nat width) 0 (fun _ => encode_pixel rgba_data) (src, dst, bmp_data) in
  Ok bmp_data.

Definition bare_bmp_encode (heap : allocator) (rgba_obj : image) : outcome (list byte) :=
  let width := rgba_obj.(width) in
  let height := rgba_obj.(height) in
  let rgba_data := rgba_obj.(data) in
  let rgba_len := Z.of_nat (length rgba_data) in
  let* wh := i64 (width * height) in
  let* need := i64 (wh * 4) in
  if rgba_len <? u64 need then Throw BufferTooSmall else
  let bytes_per_pixel := 3 in
  let* t := i64 (width * bytes_per_pixel) in
  let* t := i64 (t + 3) in
  let* t := i64 (t ÷ 4 * 4) in
  let row_size := u32 t in
  let* t := i64 (row_size * height) in
  let pixel_data_size := u32 t in
  let file_size := u32 (u64 (sizeof_file_header + sizeof_dib_header + pixel_data_size)) in
  match malloc heap file_size with
  | None => Throw AllocationFailure
  | Some bmp_data =>
      let bmp_data := memset_zero bmp_data in
      let* bmp_data := write_u16 bmp_data 0 0x4D42 in
      let* bmp_data := write_u32 bmp_data 2 file_size in
      let* bmp_data := write_u16 bmp_data 6 0 in
      let* bmp_data := write_u16 bmp_data 8 0 in
      let* bmp_data := write_u32 bmp_data 10 (u32 (u64 (sizeof_file_header + sizeof_dib_header))) in
      let* bmp_data := write_u32 bmp_data 14 40 in
      let* bmp_data := write_i32 bmp_data 18 width in
      let* bmp_data := write_i32 bmp_data 22 height in
      let* bmp_data := write_u16 bmp_data 26 1 in
      let* bmp_data := write_u16 bmp_data 28 24 in
      let* bmp_data := write_u32 bmp_data 30 0 in
      let* bmp_data := write_u32 bmp_data 34 pixel_data_size in
      let* bmp_data := write_i32 bmp_data 38 2835 in
      let* bmp_data := write_i32 bmp_data 42 2835 in
      let* bmp_data := write_u32 bmp_data 46 0 in
      let* bmp_data := write_u32 bmp_data 50 0 in
      let* data_offset := read_u32 bmp_data 10 in
      for_i32 (Z.to_nat height) 0
        (encode_row rgba_data data_offset width height row_size) bmp_data
  end.

(** ** The stub *)

(** [bare_bmp_encode_animated] throws whatever it is called with. *)
Definition bare_bmp_encode_animated {A : Type} (heap : allocator) (args : A)
  : outcome (list byte) :=
  Throw NotSupported.

(** ** The JavaScript wrappers of [index.js] *)

(** [Buffer.from (arraybuffer)] is a view of the same bytes. *)
Definition decode (heap : allocator) (buffer : list byte) : outcome image :=
  bare_bmp_decode heap buffer.

Definition encode (heap : allocator) (rgba : image) : outcome (list byte) :=
  bare_bmp_encode heap rgba.

Definition encodeAnimated (heap : allocator) : outcome (list byte) :=
  bare_bmp_encode_animated heap tt.

(** ** Inputs that pass the format checks *)

(** [bmp] passes the checks on length, magic, DIB header size, compression
    and bit depth, and its data offset, width, height and bit depth fields
    hold the given values. *)
Definition accepted_header (bmp : list byte) (data_offset w h bpp : Z) : Prop :=
  54 <= Z.of_nat (length bmp)
  /\ read_u16 bmp 0 = Ok 0x4D42
  /\ read_u32 bmp 14 = Ok 40
  /\ read_u32 bmp 30 = Ok 0
  /\ read_u16 bmp 28 = Ok bpp
  /\ (bpp = 24 \/ bpp = 32)
  /\ read_i32 bmp 18 = Ok w
  /\ read_i32 bmp 22 = Ok h
  /\ read_u32 bmp 10 = Ok data_offset.

(** ** Relating buffers pixel by pixel *)

(** The four bytes at [d] in [rgba] are R, G, B, A of the source pixel whose
    bytes B, G, R (and A when [bpp] is 32) start at [s] in [bmp]; without a
    source alpha the fourth byte is 255. *)
Definition rgba_from_bgra (bmp : list byte) (bpp s : Z) (rgba : list byte) (d : Z) : Prop :=
  exists r g b a : byte,
    load bmp s = Ok b /\ load bmp (s + 1) = Ok g /\ load bmp (s + 2) = Ok r
    /\ (if bpp =? 32 then load bmp (s + 3) else Ok xff) = Ok a
    /\ load rgba d = Ok r /\ load rgba (d + 1) = Ok g
    /\ load rgba (d + 2) = Ok b /\ load rgba (d + 3) = Ok a.

(** The three bytes at [d] in [bmp] are B, G, R of the pixel whose bytes
    R, G, B start at [s] in [rgba]. *)
Definition bgr_from_rgba (rgba : list byte) (s : Z) (bmp : list byte) (d : Z) : Prop :=
  exists r g b : byte,
    load rgba s = Ok r /\ load rgba (s + 1) = Ok g /\ load rgba (s + 2) = Ok b
    /\ load bmp d = Ok b /\ load bmp (d + 1) = Ok g /\ load bmp (d + 2) = Ok r.

(** ** Loop invariants *)

(** The invariant of the pixel loop of one row, after [x] pixels. *)
Definition decode_row_inv (bmp : list byte) (bpp bytes_per_pixel src0 dst0 : Z)
    (rgba0 : list byte) (x : Z) (st : Z * Z * list byte) : Prop :=
  let '(src, dst, rgba) := st in
  src = src0 + x * bytes_per_pixel
  /\ dst = dst0 + 4 * x
  /\ length rgba = length rgba0
  /\ (0 < x -> 0 <= dst0 /\ dst0 + 4 * x <= Z.of_nat (length rgba0))
  /\ (forall k, 0 <= k < x ->
        rgba_from_bgra bmp bpp (src0 + k * bytes_per_pixel) rgba (dst0 + 4 * k))
  /\ (forall j, j < dst0 \/ dst0 + 4 * x <= j -> load rgba j = load rgba0 j).

(** The invariant of the row loop of the decoder, after [y] rows. *)
Definition decode_inv (bmp : list byte) (data_offset width abs_height : Z)
    (top_down : bool) (bpp bytes_per_pixel row_size : Z)
    (rgba0 : list byte) (y : Z) (rgba : list byte) : Prop :=
  length rgba = length rgba0
  /\ (forall y' x, 0 <= y' < y -> 0 <= x < width ->
        exists r,
          src_row top_down abs_height y' = Ok r
          /\ rgba_from_bgra bmp bpp
               (data_offset + u32 (u32 r * row_size) + x * bytes_per_pixel)
               rgba (y' * width * 4 + 4 * x)).

(** The invariant of the pixel loop of one encoded row, after [x] pixels. *)
Definition encode_row_inv (rgba : list byte) (src0 dst0 : Z) (bmp0 : list byte)
    (x : Z) (st : Z * Z * list byte) : Prop :=
  let '(src, dst, bmp) := st in
  src = src0 + 4 * x
  /\ dst = dst0 + 3 * x
  /\ length bmp = length bmp0
  /\ (forall k, 0 <= k < x -> bgr_from_rgba rgba (src0 + 4 * k) bmp (dst0 + 3 * k))
  /\ (forall j, j < dst0 \/ dst0 + 3 * x <= j -> load bmp j = load bmp0 j).

(** The invariant of the row loop of the encoder, after [y] rows: the rows
    written so far hold their pixels, and every byte outside them is as it
    was when the loop started. *)
Definition encode_inv (rgba : list byte) (data_offset w h rs : Z) (bmp0 : list byte)
    (y : Z) (bmp : list byte) : Prop :=
  length bmp = length bmp0
  /\ (forall y' x, 0 <= y' < y -> 0 <= x < w ->
        bgr_from_rgba rgba (y' * w * 4 + 4 * x) bmp
          (data_offset + (h - 1 - y') * rs + 3 * x))
  /\ (forall j,
        (forall y', 0 <= y' < y ->
           j < data_offset + (h - 1 - y') * rs
           \/ data_offset + (h - 1 - y') * rs + 3 * w <= j) ->
        load bmp j = load bmp0 j).

(** ** The row stride as the format defines it *)

(** The specification's words: for [n] bytes per pixel and width [w], the
    stride is ceil (w * n / 4) * 4, in unbounded integers.  [row_size] is
    the source's computation of it in [uint32_t]. *)
Definition ceil_div (a b : Z) : Z := - ((- a) / b).

Definition spec_stride (bytes_per_pixel w : Z) : Z :=
  ceil_div (w * bytes_per_pixel) 4 * 4.

(** The specification's pixel extent, [data_offset + stride * |height|]. *)
Definition spec_pixel_extent (data_offset bytes_per_pixel w h : Z) : Z :=
  data_offset + spec_stride bytes_per_pixel w * Z.abs h.

(** ** Sample inputs *)

Definition bytes (l : list Z) : list byte := map byte_of l.

(** An allocator that serves every request, and one that serves none. *)
Definition heap_ok : allocator := fun _ => Some xaa.
Definition heap_null : allocator := fun _ => None.

(** A block allocator whose blocks hold 0, 1, 2, ... and one whose blocks
    hold 255, 254, 253, ... *)
Definition blocks_up : block_allocator := fun _ => Some (fun i => byte_of i).
Definition blocks_down : block_allocator := fun _ => Some (fun i => byte_of (255 - i)).

(** The 54 header bytes, field by field, least significant byte first
    ([bytes] keeps the low 8 bits of each entry). *)
Definition le16 (v : Z) : list Z := [v; v / 2 ^ 8].
Definition le32 (v : Z) : list Z := [v; v / 2 ^ 8; v / 2 ^ 16; v / 2 ^ 24].

Definition header_full (file_size data_offset w h bpp image_size ppm : Z) : list Z :=
  le16 0x4D42 ++ le32 file_size ++ le16 0 ++ le16 0 ++ le32 data_offset
  ++ le32 40 ++ le32 w ++ le32 h ++ le16 1 ++ le16 bpp ++ le32 0
  ++ le32 image_size ++ le32 ppm ++ le32 ppm ++ le32 0 ++ le32 0.

(** A header that leaves the informational fields zero. *)
Definition header (data_offset w h bpp : Z) : list Z :=
  header_full 0 data_offset w h bpp 0 0.

(** The header as the encoder writes it. *)
Definition encoded_header (w h : Z) : list byte :=
  let stride := spec_stride 3 w in
  bytes (header_full (54 + stride * h) 54 (u32 (s32 w)) (u32 (s32 h)) 24
           (stride * h) 2835).

(** The 1x1 24-bit file of the test suite: one red pixel and a pad byte. *)
Definition red_1x1_24 : list byte := bytes (header 54 1 1 24 ++ [0; 0; 255; 0]).

(** A 2x2 bottom-up 24-bit file; rows are padded to 8 bytes. *)
Definition sample_2x2_24 : list byte :=
  bytes (header 54 2 2 24
         ++ [1; 2; 3; 4; 5; 6; 0; 0]
         ++ [7; 8; 9; 10; 11; 12; 0; 0]).

(** The same pixel rows declared top-down (height -2). *)
Definition sample_2x2_24_top_down : list byte :=
  bytes (header 54 2 (-2) 24
         ++ [1; 2; 3; 4; 5; 6; 0; 0]
         ++ [7; 8; 9; 10; 11; 12; 0; 0]).

(** A 1x1 32-bit file whose pixel has alpha 0. *)
Definition sample_1x1_32 : list byte := bytes (header 54 1 1 32 ++ [10; 20; 30; 0]).

(** A 1x1 24-bit file whose data offset field is 2^32 - 3. *)
Definition wild_offset_bmp : list byte :=
  bytes (header (2 ^ 32 - 3) 1 1 24 ++ [0; 0; 255; 0]).

(** A bare header declaring a 32-bit image 2^30 pixels wide and 1 high. *)
Definition huge_width_bmp : list byte := bytes (header 54 (2 ^ 30) 1 32).

(** A bare header declaring an image of width 0 and height 0. *)
Definition empty_image_bmp : list byte := bytes (header 54 0 0 24).

(** A 1x1 24-bit file whose data offset field is 0: the pixel overlaps the
    file header. *)
Definition overlapping_bmp : list byte := bytes (header_full 58 0 1 1 24 0 0).

Example decode_red_1x1_24 :
  bare_bmp_decode heap_ok red_1x1_24 = Ok (Image 1 1 (bytes [255; 0; 0; 255])).
Proof. vm_compute. reflexivity. Qed.

Example decode_sample_2x2_24 :
  bare_bmp_decode heap_ok sample_2x2_24
  = Ok (Image 2 2 (bytes [9; 8; 7; 255; 12; 11; 10; 255; 3; 2; 1; 255; 6; 5; 4; 255])).
Proof. vm_compute. reflexivity. Qed.

Example decode_sample_2x2_24_top_down :
  bare_bmp_decode heap_ok sample_2x2_24_top_down
  = Ok (Image 2 2 (bytes [3; 2; 1; 255; 6; 5; 4; 255; 9; 8; 7; 255; 12; 11; 10; 255])).
Proof. vm_compute. reflexivity. Qed.

Example encode_red_1x1 :
  bare_bmp_encode heap_ok (Image 1 1 (bytes [255; 0; 0; 255]))
  = Ok (bytes (header_full 58 54 1 1 24 4 2835 ++ [0; 0; 255; 0])).
Proof. vm_compute. reflexivity. Qed.

(** * Basic facts *)

(** ** The outcome monad *)

Lemma bind_Ok {A B : Type} (m : outcome A) (k : A -> outcome B) (b : B) :
  bind m k = Ok b <-> exists a, m = Ok a /\ k a = Ok b.
Proof.
  destruct m as [a| |]; simpl; split.
  - eauto.
  - intros (a' & Ha & Hk). inversion Ha; subst. exact Hk.
  - discriminate.
  - intros (a' & Ha & _). discriminate.
  - discriminate.
  - intros (a' & Ha & _). discriminate.
Qed.

Lemma no_throw_bind {A B : Type} (m : outcome A) (k : A -> outcome B) :
  no_throw m -> (forall a, no_throw (k a)) -> no_throw (bind m k).
Proof.
  intros Hm Hk e. destruct m as [a| e' |]; simpl.
  - apply Hk.
  - exfalso. exact (Hm e' eq_refl).
  - discriminate.
Qed.

(** Splits a hypothesis [bind m k = Ok b] into its two halves, repeatedly. *)
Ltac bind_inv H :=
  let a := fresh "v" in
  let Ha := fresh "E" in
  apply bind_Ok in H; destruct H as (a & Ha & H).

(** ** Integer conversions *)

Lemma i32_Ok (z v : Z) : i32 z = Ok v <-> v = z /\ - 2 ^ 31 <= z < 2 ^ 31.
Proof.
  unfold i32.
  destruct (- 2 ^ 31 <=? z) eqn:E1; destruct (z <? 2 ^ 31) eqn:E2; simpl;
    split; try discriminate; try (intros [_ ?]; lia).
  - intros H; inversion H; lia.
  - intros [-> _]; reflexivity.
Qed.

Lemma i64_Ok (z v : Z) : i64 z = Ok v <-> v = z /\ - 2 ^ 63 <= z < 2 ^ 63.
Proof.
  unfold i64.
  destruct (- 2 ^ 63 <=? z) eqn:E1; destruct (z <? 2 ^ 63) eqn:E2; simpl;
    split; try discriminate; try (intros [_ ?]; lia).
  - intros H; inversion H; lia.
  - intros [-> _]; reflexivity.
Qed.

Lemma i32_in_range (z : Z) : - 2 ^ 31 <= z < 2 ^ 31 -> i32 z = Ok z.
Proof. intros H. apply i32_Ok. auto. Qed.

Lemma i64_in_range (z : Z) : - 2 ^ 63 <= z < 2 ^ 63 -> i64 z = Ok z.
Proof. intros H. apply i64_Ok. auto. Qed.

Lemma i32_no_throw (z : Z) : no_throw (i32 z).
Proof. intros e. unfold i32. destruct (_ && _); discriminate. Qed.

Lemma i64_no_throw (z : Z) : no_throw (i64 z).
Proof. intros e. unfold i64. destruct (_ && _); discriminate. Qed.

Lemma u32_small (z : Z) : 0 <= z < 2 ^ 32 -> u32 z = z.
Proof. intros H. unfold u32. apply Z.mod_small. exact H. Qed.

Lemma u64_small (z : Z) : 0 <= z < 2 ^ 64 -> u64 z = z.
Proof. intros H. unfold u64. apply Z.mod_small. exact H. Qed.

Lemma u32_range (z : Z) : 0 <= u32 z < 2 ^ 32.
Proof. unfold u32. apply Z.mod_pos_bound. lia. Qed.

Lemma u64_range (z : Z) : 0 <= u64 z < 2 ^ 64.
Proof. unfold u64. apply Z.mod_pos_bound. lia. Qed.

Lemma u64_negative (z : Z) : - 2 ^ 63 <= z < 0 -> u64 z = 2 ^ 64 + z.
Proof.
  intros H. unfold u64.
  symmetry. apply (Z.mod_unique z (2 ^ 64) (-1)); lia.
Qed.

Lemma s32_small (z : Z) : - 2 ^ 31 <= z < 2 ^ 31 -> s32 z = z.
Proof.
  intros H. unfold s32, u32.
  destruct (Z.leb_spec 0 z).
  - rewrite Z.mod_small by lia. destruct (Z.ltb_spec z (2 ^ 31)); lia.
  - replace (z mod 2 ^ 32) with (2 ^ 32 + z)
      by (apply (Z.mod_unique z (2 ^ 32) (-1)); lia).
    destruct (Z.ltb_spec (2 ^ 32 + z) (2 ^ 31)); lia.
Qed.

(** ** Bytes *)

Lemma byte_val_range (b : byte) : 0 <= byte_val b < 256.
Proof.
  unfold byte_val. pose proof (Byte.to_N_bounded b). lia.
Qed.

Lemma byte_val_of (z : Z) : byte_val (byte_of z) = z mod 256.
Proof.
  unfold byte_val, byte_of.
  assert (Hr : 0 <= z mod 256 < 256) by (apply Z.mod_pos_bound; lia).
  destruct (Byte.of_N (Z.to_N (z mod 256))) as [b|] eqn:E.
  - apply Byte.to_of_N in E. rewrite E. lia.
  - apply Byte.of_N_None_iff in E. lia.
Qed.

Lemma byte_of_val (b : byte) : byte_of (byte_val b) = b.
Proof.
  unfold byte_of, byte_val.
  pose proof (Byte.to_N_bounded b) as Hb.
  rewrite Z.mod_small by lia.
  rewrite N2Z.id, Byte.of_to_N. reflexivity.
Qed.

Lemma byte_val_inj (a b : byte) : byte_val a = byte_val b -> a = b.
Proof.
  intros H. rewrite <- (byte_of_val a), <- (byte_of_val b), H. reflexivity.
Qed.

(** ** Loads and stores *)

Lemma load_Ok (m : list byte) (i : Z) (b : byte) :
  load m i = Ok b <-> 0 <= i /\ m !! Z.to_nat i = Some b.
Proof.
  unfold load.
  destruct (Z.leb_spec 0 i); destruct (Z.ltb_spec i (Z.of_nat (length m))); simpl.
  - destruct (m !! Z.to_nat i) eqn:E.
    + split; [intros H'; inversion H'; auto | intros [_ H']; inversion H'; auto].
    + split; [discriminate | intros [_ H']; discriminate].
  - split; [discriminate|]. intros [_ H'].
    apply lookup_lt_Some in H'. lia.
  - split; [discriminate | lia].
  - split; [discriminate | lia].
Qed.

Lemma load_bounds (m : list byte) (i : Z) (b : byte) :
  load m i = Ok b -> 0 <= i < Z.of_nat (length m).
Proof.
  intros H. apply load_Ok in H as [H0 H1]. apply lookup_lt_Some in H1. lia.
Qed.

Lemma load_in_bounds (m : list byte) (i : Z) :
  0 <= i < Z.of_nat (length m) -> exists b, load m i = Ok b.
Proof.
  intros H. destruct (lookup_lt_is_Some_2 m (Z.to_nat i)) as [b Hb]; [lia|].
  exists b. apply load_Ok. split; [lia | exact Hb].
Qed.

Lemma load_no_throw (m : list byte) (i : Z) : no_throw (load m i).
Proof.
  intros e. unfold load. destruct (_ && _); [|discriminate].
  destruct (m !! Z.to_nat i); discriminate.
Qed.

Lemma store_Ok (m m' : list byte) (i : Z) (b : byte) :
  store m i b = Ok m' <->
  0 <= i < Z.of_nat (length m) /\ m' = <[Z.to_nat i := b]> m.
Proof.
  unfold store.
  destruct (Z.leb_spec 0 i); destruct (Z.ltb_spec i (Z.of_nat (length m))); simpl;
    split; try discriminate; try (intros [? _]; lia).
  - intros H'; inversion H'; auto.
  - intros [_ ->]; reflexivity.
Qed.

Lemma store_in_bounds (m : list byte) (i : Z) (b : byte) :
  0 <= i < Z.of_nat (length m) -> store m i b = Ok (<[Z.to_nat i := b]> m).
Proof. intros H. apply store_Ok. auto. Qed.

Lemma store_no_throw (m : list byte) (i : Z) (b : byte) : no_throw (store m i b).
Proof. intros e. unfold store. destruct (_ && _); discriminate. Qed.

Lemma store_length (m m' : list byte) (i : Z) (b : byte) :
  store m i b = Ok m' -> length m' = length m.
Proof. intros H. apply store_Ok in H as [_ ->]. apply length_insert. Qed.

Lemma load_store_eq (m m' : list byte) (i : Z) (b : byte) :
  store m i b = Ok m' -> load m' i = Ok b.
Proof.
  intros H. apply store_Ok in H as [Hi ->]. apply load_Ok.
  split; [lia|]. apply list_lookup_insert_eq. lia.
Qed.

Lemma load_store_ne (m m' : list byte) (i j : Z) (b : byte) :
  store m i b = Ok m' -> j <> i -> load m' j = load m j.
Proof.
  intros H Hne. apply store_Ok in H as [Hi ->]. unfold load.
  rewrite length_insert.
  destruct ((0 <=? j) && (j <? Z.of_nat (length m))) eqn:E; [|reflexivity].
  rewrite list_lookup_insert_ne by lia. reflexivity.
Qed.

(** Two buffers with the same length and the same loads are the same. *)
Lemma load_ext (m m' : list byte) :
  length m = length m' ->
  (forall i, 0 <= i < Z.of_nat (length m) -> load m' i = load m i) ->
  m' = m.
Proof.
  intros Hlen H. apply list_eq. intros n.
  destruct (Nat.lt_ge_cases n (length m)) as [Hn|Hn].
  - destruct (load_in_bounds m (Z.of_nat n)) as [b Hb]; [lia|].
    pose proof (H (Z.of_nat n) ltac:(lia)) as H'. rewrite Hb in H'.
    apply load_Ok in Hb as [_ Hb]. apply load_Ok in H' as [_ H'].
    rewrite Nat2Z.id in Hb, H'. congruence.
  - rewrite !lookup_ge_None_2; [reflexivity | lia | lia].
Qed.

(** ** Header fields *)

Lemma read_u16_ext (m m' : list byte) (off : Z) :
  (forall j, off <= j < off + 2 -> load m' j = load m j) ->
  read_u16 m' off = read_u16 m off.
Proof.
  intros H. unfold read_u16.
  rewrite (H off), (H (off + 1)) by lia. reflexivity.
Qed.

Lemma read_u32_ext (m m' : list byte) (off : Z) :
  (forall j, off <= j < off + 4 -> load m' j = load m j) ->
  read_u32 m' off = read_u32 m off.
Proof.
  intros H. unfold read_u32.
  rewrite (H off), (H (off + 1)), (H (off + 2)), (H (off + 3)) by lia.
  reflexivity.
Qed.

Lemma read_i32_ext (m m' : list byte) (off : Z) :
  (forall j, off <= j < off + 4 -> load m' j = load m j) ->
  read_i32 m' off = read_i32 m off.
Proof.
  intros H. unfold read_i32. rewrite (read_u32_ext m m' off H). reflexivity.
Qed.

Lemma read_u16_in_bounds (m : list byte) (off : Z) :
  0 <= off -> off + 2 <= Z.of_nat (length m) ->
  exists v, read_u16 m off = Ok v /\ 0 <= v < 2 ^ 16.
Proof.
  intros H0 H1. unfold read_u16.
  destruct (load_in_bounds m off) as [b0 E0]; [lia|].
  destruct (load_in_bounds m (off + 1)) as [b1 E1]; [lia|].
  rewrite E0, E1. simpl. eexists; split; [reflexivity|].
  pose proof (byte_val_range b0). pose proof (byte_val_range b1). lia.
Qed.

Lemma read_u32_in_bounds (m : list byte) (off : Z) :
  0 <= off -> off + 4 <= Z.of_nat (length m) ->
  exists v, read_u32 m off = Ok v /\ 0 <= v < 2 ^ 32.
Proof.
  intros H0 H1. unfold read_u32.
  destruct (load_in_bounds m off) as [b0 E0]; [lia|].
  destruct (load_in_bounds m (off + 1)) as [b1 E1]; [lia|].
  destruct (load_in_bounds m (off + 2)) as [b2 E2]; [lia|].
  destruct (load_in_bounds m (off + 3)) as [b3 E3]; [lia|].
  rewrite E0, E1, E2, E3. simpl. eexists; split; [reflexivity|].
  pose proof (byte_val_range b0). pose proof (byte_val_range b1).
  pose proof (byte_val_range b2). pose proof (byte_val_range b3). lia.
Qed.

Lemma read_u32_range (m : list byte) (off v : Z) :
  read_u32 m off = Ok v -> 0 <= v < 2 ^ 32.
Proof.
  unfold read_u32. intros H. do 4 bind_inv H. inversion H; subst.
  pose proof (byte_val_range v0). pose proof (byte_val_range v1).
  pose proof (byte_val_range v2). pose proof (byte_val_range v3). lia.
Qed.

Lemma read_i32_in_bounds (m : list byte) (off : Z) :
  0 <= off -> off + 4 <= Z.of_nat (length m) ->
  exists v, read_i32 m off = Ok v /\ - 2 ^ 31 <= v < 2 ^ 31.
Proof.
  intros H0 H1. unfold read_i32.
  destruct (read_u32_in_bounds m off H0 H1) as (u & E & Hu).
  rewrite E. simpl. eexists; split; [reflexivity|].
  destruct (Z.ltb_spec u (2 ^ 31)); lia.
Qed.

Lemma read_i32_range (m : list byte) (off v : Z) :
  read_i32 m off = Ok v -> - 2 ^ 31 <= v < 2 ^ 31.
Proof.
  unfold read_i32. intros H. bind_inv H. inversion H; subst.
  apply read_u32_range in E. destruct (Z.ltb_spec v0 (2 ^ 31)); lia.
Qed.

(** The magic number is the two bytes "BM". *)
Lemma read_magic (m : list byte) (v : Z) :
  read_u16 m 0 = Ok v -> (v = 0x4D42 <-> take 2 m = [x42; x4d]).
Proof.
  unfold read_u16. intros H. do 2 bind_inv H. inversion H; subst. clear H.
  apply load_Ok in E as [_ E]. apply load_Ok in E0 as [_ E0].
  change (Z.to_nat 0) with 0%nat in E. change (Z.to_nat (0 + 1)) with 1%nat in E0.
  destruct m as [|a [|b m]]; try discriminate.
  simpl in E, E0. inversion E; inversion E0; subst. simpl.
  pose proof (byte_val_range v0). pose proof (byte_val_range v1).
  split.
  - intros Hv.
    assert (byte_val v0 = byte_val x42) by (change (byte_val x42) with 66; lia).
    assert (byte_val v1 = byte_val x4d) by (change (byte_val x4d) with 77; lia).
    f_equal; [|f_equal]; apply byte_val_inj; assumption.
  - intros Hv. inversion Hv; subst. reflexivity.
Qed.

(** ** Loops *)

Section ForLoop.

Context {S : Type} (I : Z -> S -> Prop) (body : Z -> S -> outcome S).

(** An invariant carried by every successful iteration holds at the end. *)
Lemma for_i32_invariant :
  forall (n : nat) (i : Z) (s s' : S),
    for_i32 n i body s = Ok s' ->
    I i s ->
    (forall j t t', i <= j < i + Z.of_nat n -> I j t -> body j t = Ok t' -> I (j + 1) t') ->
    I (i + Z.of_nat n) s'.
Proof.
  induction n as [|n IH]; intros i s s' Hrun Hi Hstep.
  - simpl in Hrun. inversion Hrun; subst. rewrite Z.add_0_r. exact Hi.
  - simpl in Hrun. do 2 bind_inv Hrun.
    apply i32_Ok in E0 as [-> _].
    replace (i + Z.of_nat (Datatypes.S n)) with (i + 1 + Z.of_nat n) by lia.
    apply (IH (i + 1) v s' Hrun).
    + apply (Hstep i s v); [lia | exact Hi | exact E].
    + intros j t t' Hj. apply Hstep. lia.
Qed.

(** A loop whose body succeeds under the invariant runs to completion. *)
Lemma for_i32_progress :
  forall (n : nat) (i : Z) (s : S),
    - 2 ^ 31 <= i -> i + Z.of_nat n < 2 ^ 31 ->
    I i s ->
    (forall j t, i <= j < i + Z.of_nat n -> I j t ->
                 exists t', body j t = Ok t' /\ I (j + 1) t') ->
    exists s', for_i32 n i body s = Ok s' /\ I (i + Z.of_nat n) s'.
Proof.
  induction n as [|n IH]; intros i s Hlo Hhi Hi Hstep.
  - exists s. simpl. rewrite Z.add_0_r. auto.
  - destruct (Hstep i s ltac:(lia) Hi) as (t & Et & It).
    destruct (IH (i + 1) t ltac:(lia) ltac:(lia) It) as (s' & Es & Is).
    { intros j u Hj. apply Hstep. lia. }
    exists s'. simpl. rewrite Et. simpl.
    rewrite i32_in_range by lia. simpl.
    replace (i + Z.of_nat (Datatypes.S n)) with (i + 1 + Z.of_nat n) by lia.
    auto.
Qed.

(** A loop throws only if its body does. *)
Lemma for_i32_no_throw :
  (forall j t, no_throw (body j t)) ->
  forall (n : nat) (i : Z) (s : S), no_throw (for_i32 n i body s).
Proof.
  intros Hb. induction n as [|n IH]; intros i s; simpl.
  - discriminate.
  - apply no_throw_bind; [apply Hb|]. intros a.
    apply no_throw_bind; [apply i32_no_throw|]. intros b. apply IH.
Qed.

End ForLoop.

(** * The decoder's loops *)

Section DecodePixels.

Variables (bmp : list byte) (bpp bytes_per_pixel : Z).

Lemma rgba_from_bgra_frame (s : Z) (rgba rgba' : list byte) (d : Z) :
  (forall j, d <= j < d + 4 -> load rgba' j = load rgba j) ->
  rgba_from_bgra bmp bpp s rgba d -> rgba_from_bgra bmp bpp s rgba' d.
Proof.
  intros Hf (r & g & b & a & Hb & Hg & Hr & Ha & H0 & H1 & H2 & H3).
  exists r, g, b, a.
  rewrite (Hf d), (Hf (d + 1)), (Hf (d + 2)), (Hf (d + 3)) by lia.
  auto 10.
Qed.

(** One pixel: what a successful step did. *)
Lemma decode_pixel_Ok (src dst : Z)
    (rgba : list byte) (st' : Z * Z * list byte) :
  decode_pixel bmp bpp bytes_per_pixel (src, dst, rgba) = Ok st' ->
  exists rgba',
    st' = (src + bytes_per_pixel, dst + 4, rgba')
    /\ length rgba' = length rgba
    /\ 0 <= dst /\ dst + 4 <= Z.of_nat (length rgba)
    /\ rgba_from_bgra bmp bpp src rgba' dst
    /\ (forall j, j < dst \/ dst + 4 <= j -> load rgba' j = load rgba j).
Proof.
  unfold decode_pixel. intros H.
  bind_inv H. rename v into r, E into Er.
  bind_inv H. rename v into m1, E into S1.
  bind_inv H. rename v into g, E into Eg.
  bind_inv H. rename v into m2, E into S2.
  bind_inv H. rename v into b, E into Eb.
  bind_inv H. rename v into m3, E into S3.
  bind_inv H. rename v into a, E into Ea.
  bind_inv H. rename v into m4, E into S4.
  inversion H; subst st'. clear H.
  pose proof (store_length _ _ _ _ S1) as L1.
  pose proof (store_length _ _ _ _ S2) as L2.
  pose proof (store_length _ _ _ _ S3) as L3.
  pose proof (store_length _ _ _ _ S4) as L4.
  pose proof (proj1 (proj1 (store_Ok _ _ _ _) S1)) as B1.
  pose proof (proj1 (proj1 (store_Ok _ _ _ _) S4)) as B4.
  exists m4. split; [reflexivity|].
  split; [congruence|].
  split; [lia|]. split; [lia|].
  split.
  - exists r, g, b, a. repeat split; try assumption.
    + rewrite (load_store_ne _ _ _ _ _ S4), (load_store_ne _ _ _ _ _ S3),
        (load_store_ne _ _ _ _ _ S2) by lia.
      exact (load_store_eq _ _ _ _ S1).
    + rewrite (load_store_ne _ _ _ _ _ S4), (load_store_ne _ _ _ _ _ S3) by lia.
      exact (load_store_eq _ _ _ _ S2).
    + rewrite (load_store_ne _ _ _ _ _ S4) by lia.
      exact (load_store_eq _ _ _ _ S3).
    + exact (load_store_eq _ _ _ _ S4).
  - intros j Hj.
    rewrite (load_store_ne _ _ _ _ _ S4), (load_store_ne _ _ _ _ _ S3),
      (load_store_ne _ _ _ _ _ S2), (load_store_ne _ _ _ _ _ S1) by lia.
    reflexivity.
Qed.

(** One pixel: when the step succeeds. *)
Lemma decode_pixel_progress (src dst : Z)
    (rgba : list byte) :
  0 <= src ->
  src + (if bpp =? 32 then 4 else 3) <= Z.of_nat (length bmp) ->
  0 <= dst -> dst + 4 <= Z.of_nat (length rgba) ->
  exists st', decode_pixel bmp bpp bytes_per_pixel (src, dst, rgba) = Ok st'.
Proof.
  intros Hs0 Hs1 Hd0 Hd1. unfold decode_pixel.
  assert (Hs : src + 3 <= Z.of_nat (length bmp))
    by (destruct (bpp =? 32); lia).
  destruct (load_in_bounds bmp (src + 2)) as [r Er]; [lia|].
  destruct (load_in_bounds bmp (src + 1)) as [g Eg]; [lia|].
  destruct (load_in_bounds bmp src) as [b Eb]; [lia|].
  assert (Ha : exists a, (if bpp =? 32 then load bmp (src + 3) else Ok xff) = Ok a).
  { destruct (bpp =? 32); [|eauto]. apply load_in_bounds. lia. }
  destruct Ha as [a Ea].
  rewrite Er. simpl. rewrite store_in_bounds by lia. simpl.
  rewrite Eg. simpl. rewrite store_in_bounds by (rewrite length_insert; lia). simpl.
  rewrite Eb. simpl. rewrite store_in_bounds by (rewrite !length_insert; lia). simpl.
  rewrite Ea. simpl. rewrite store_in_bounds by (rewrite !length_insert; lia). simpl.
  eauto.
Qed.

Lemma decode_row_inv_step (src0 dst0 : Z)
    (rgba0 : list byte) (x : Z) (st st' : Z * Z * list byte) :
  0 <= x ->
  decode_row_inv bmp bpp bytes_per_pixel src0 dst0 rgba0 x st ->
  decode_pixel bmp bpp bytes_per_pixel st = Ok st' ->
  decode_row_inv bmp bpp bytes_per_pixel src0 dst0 rgba0 (x + 1) st'.
Proof.
  intros Hx Hinv Hstep. destruct st as [[src dst] rgba].
  destruct Hinv as (-> & -> & Hlen & Hb & Hpix & Hframe).
  apply decode_pixel_Ok in Hstep
    as (rgba' & -> & Hlen' & Hd0 & Hd1 & Hnew & Hframe').
  unfold decode_row_inv.
  split; [lia|]. split; [lia|]. split; [congruence|].
  split.
  { intros _. destruct (Z.eq_dec x 0) as [->|Hne]; [lia|].
    specialize (Hb ltac:(lia)). lia. }
  split.
  - intros k Hk. destruct (Z.eq_dec k x) as [->|Hne].
    + exact Hnew.
    + apply (rgba_from_bgra_frame _ rgba).
      * intros j Hj. apply Hframe'. lia.
      * apply Hpix. lia.
  - intros j Hj. rewrite Hframe' by lia. apply Hframe. lia.
Qed.

Lemma decode_row_inv_init (src0 dst0 : Z)
    (rgba0 : list byte) :
  decode_row_inv bmp bpp bytes_per_pixel src0 dst0 rgba0 0 (src0, dst0, rgba0).
Proof.
  unfold decode_row_inv. repeat split; intros; lia.
Qed.

End DecodePixels.

(** One row: what a successful pass did. *)
Lemma decode_row_Ok (bmp : list byte) (data_offset w abs_height : Z) (top_down : bool)
    (bpp bytes_per_pixel rs y : Z) (rgba rgba' : list byte) :
  decode_row bmp data_offset w abs_height top_down bpp bytes_per_pixel rs y rgba
  = Ok rgba' ->
  exists r,
    src_row top_down abs_height y = Ok r
    /\ length rgba' = length rgba
    /\ (0 < w -> 0 <= y * w * 4 /\ y * w * 4 + 4 * w <= Z.of_nat (length rgba))
    /\ (forall x, 0 <= x < w ->
          rgba_from_bgra bmp bpp (data_offset + u32 (u32 r * rs) + x * bytes_per_pixel)
            rgba' (y * w * 4 + 4 * x))
    /\ (forall j, j < y * w * 4 \/ y * w * 4 + 4 * Z.max 0 w <= j ->
          load rgba' j = load rgba j).
Proof.
  unfold decode_row. intros H.
  bind_inv H. rename v into r, E into Er.
  bind_inv H. apply i32_Ok in E as [-> _].
  bind_inv H. apply i32_Ok in E as [-> _].
  bind_inv H. destruct v as [[src' dst'] out]. inversion H; subst out. clear H.
  pose proof (for_i32_invariant
    (decode_row_inv bmp bpp bytes_per_pixel (data_offset + u32 (u32 r * rs))
       (y * w * 4) rgba)
    (fun _ => decode_pixel bmp bpp bytes_per_pixel) _ _ _ _ E
    (decode_row_inv_init _ _ _ _ _ _)) as Hinv.
  simpl in Hinv.
  destruct Hinv as (_ & _ & Hlen & Hb & Hpix & Hframe).
  { intros j t t' Hj. apply decode_row_inv_step. lia. }
  exists r. split; [exact Er|]. split; [exact Hlen|].
  split; [intros Hw; specialize (Hb ltac:(lia)); lia|].
  split.
  - intros x Hx. apply Hpix. lia.
  - intros j Hj. apply Hframe. lia.
Qed.

(** One row: when the pass succeeds. *)
Lemma decode_row_progress (bmp : list byte) (data_offset w abs_height : Z)
    (top_down : bool) (bpp bytes_per_pixel rs y r : Z) (rgba : list byte) :
  src_row top_down abs_height y = Ok r ->
  w < 2 ^ 31 ->
  - 2 ^ 31 <= y * w < 2 ^ 31 -> - 2 ^ 31 <= y * w * 4 < 2 ^ 31 ->
  (0 < w -> 0 <= y * w * 4 /\ y * w * 4 + 4 * w <= Z.of_nat (length rgba)) ->
  (forall x, 0 <= x < w ->
     0 <= data_offset + u32 (u32 r * rs) + x * bytes_per_pixel
     /\ data_offset + u32 (u32 r * rs) + x * bytes_per_pixel
        + (if bpp =? 32 then 4 else 3) <= Z.of_nat (length bmp)) ->
  exists rgba',
    decode_row bmp data_offset w abs_height top_down bpp bytes_per_pixel rs y rgba
    = Ok rgba'.
Proof.
  intros Er Hw Hyw Hyw4 Hdst Hsrc. unfold decode_row.
  rewrite Er. simpl.
  rewrite (i32_in_range (y * w)) by exact Hyw. simpl.
  rewrite (i32_in_range (y * w * 4)) by exact Hyw4. simpl.
  destruct (for_i32_progress
    (decode_row_inv bmp bpp bytes_per_pixel (data_offset + u32 (u32 r * rs))
       (y * w * 4) rgba)
    (fun _ => decode_pixel bmp bpp bytes_per_pixel)
    (Z.to_nat w) 0 (data_offset + u32 (u32 r * rs), y * w * 4, rgba))
    as (st' & Est & _).
  - lia.
  - lia.
  - apply decode_row_inv_init.
  - intros j [[src dst] buf] Hj Hinv.
    assert (Hst : exists t', decode_pixel bmp bpp bytes_per_pixel (src, dst, buf) = Ok t').
    { destruct Hinv as (-> & -> & Hlen & _).
      specialize (Hsrc j ltac:(lia)). specialize (Hdst ltac:(lia)).
      apply decode_pixel_progress; lia. }
    destruct Hst as (t' & Et). exists t'. split; [exact Et|].
    apply (decode_row_inv_step _ _ _ _ _ _ j (src, dst, buf)); [lia | exact Hinv | exact Et].
  - rewrite Est. simpl. destruct st' as [[? ?] out]. eauto.
Qed.

Lemma decode_inv_step (bmp : list byte) (data_offset w abs_height : Z) (top_down : bool)
    (bpp bytes_per_pixel rs : Z) (rgba0 : list byte) (y : Z) (rgba rgba' : list byte) :
  0 <= y ->
  decode_inv bmp data_offset w abs_height top_down bpp bytes_per_pixel rs rgba0 y rgba ->
  decode_row bmp data_offset w abs_height top_down bpp bytes_per_pixel rs y rgba
  = Ok rgba' ->
  decode_inv bmp data_offset w abs_height top_down bpp bytes_per_pixel rs rgba0
    (y + 1) rgba'.
Proof.
  intros Hy [Hlen Hpix] Hrow.
  apply decode_row_Ok in Hrow as (r & Er & Hlen' & Hb & Hnew & Hframe).
  split; [congruence|].
  intros y' x Hy' Hx. destruct (Z.eq_dec y' y) as [->|Hne].
  - exists r. split; [exact Er|]. apply Hnew. exact Hx.
  - destruct (Hpix y' x ltac:(lia) Hx) as (r' & Er' & Hold).
    exists r'. split; [exact Er'|].
    apply (rgba_from_bgra_frame bmp bpp _ rgba); [|exact Hold].
    intros j Hj. apply Hframe. left.
    assert (0 <= (y - 1 - y') * w) by nia. nia.
Qed.

Lemma decode_inv_init (bmp : list byte) (data_offset w abs_height : Z) (top_down : bool)
    (bpp bytes_per_pixel rs : Z) (rgba0 : list byte) :
  decode_inv bmp data_offset w abs_height top_down bpp bytes_per_pixel rs rgba0 0 rgba0.
Proof. split; [reflexivity|]. intros y' x Hy'. lia. Qed.

Lemma decode_pixel_no_throw (bmp : list byte) (bpp bytes_per_pixel : Z)
    (st : Z * Z * list byte) :
  no_throw (decode_pixel bmp bpp bytes_per_pixel st).
Proof.
  destruct st as [[src dst] rgba]. unfold decode_pixel.
  repeat (apply no_throw_bind;
          [first [apply load_no_throw | apply store_no_throw
                 | destruct (bpp =? 32); [apply load_no_throw | discriminate]]
          | intros ?]).
  discriminate.
Qed.

Lemma decode_row_no_throw (bmp : list byte) (data_offset w abs_height : Z)
    (top_down : bool) (bpp bytes_per_pixel rs y : Z) (rgba : list byte) :
  no_throw
    (decode_row bmp data_offset w abs_height top_down bpp bytes_per_pixel rs y rgba).
Proof.
  unfold decode_row.
  apply no_throw_bind.
  { unfold src_row. destruct top_down; [discriminate|].
    apply no_throw_bind; [apply i32_no_throw|]. intros ?. apply i32_no_throw. }
  intros r. apply no_throw_bind; [apply i32_no_throw|]. intros ?.
  apply no_throw_bind; [apply i32_no_throw|]. intros ?.
  apply no_throw_bind.
  { apply for_i32_no_throw. intros ? ?. apply decode_pixel_no_throw. }
  intros [[? ?] ?]. discriminate.
Qed.

(** * The decoder as a whole *)

Lemma abs_height_Ok (h a : Z) :
  - 2 ^ 31 <= h < 2 ^ 31 ->
  (if h <? 0 then i32 (- h) else Ok h) = Ok a -> a = Z.abs h /\ - 2 ^ 31 < h.
Proof.
  intros Hh H. destruct (Z.ltb_spec h 0).
  - apply i32_Ok in H as [-> ?]. lia.
  - inversion H; subst. lia.
Qed.

(** What a successful call went through. *)
Lemma decode_Ok (heap : allocator) (bmp : list byte) (img : image) :
  bare_bmp_decode heap bmp = Ok img ->
  exists data_offset w h bpp junk,
    accepted_header bmp data_offset w h bpp
    /\ - 2 ^ 31 < h
    /\ pixel_extent data_offset (row_size w (bpp / 8)) (Z.abs h) <= Z.of_nat (length bmp)
    /\ - 2 ^ 31 <= w * Z.abs h < 2 ^ 31
    /\ 0 <= w * Z.abs h * 4 < 2 ^ 31
    /\ heap (w * Z.abs h * 4) = Some junk
    /\ width img = w /\ height img = Z.abs h
    /\ for_i32 (Z.to_nat (Z.abs h)) 0
         (decode_row bmp data_offset w (Z.abs h) (h <? 0) bpp (bpp / 8)
            (row_size w (bpp / 8)))
         (replicate (Z.to_nat (w * Z.abs h * 4)) junk)
       = Ok (data img).
Proof.
  intros H. unfold bare_bmp_decode in H. cbv zeta in H.
  change (sizeof_file_header + sizeof_dib_header) with 54 in H.
  destruct (Z.ltb_spec (Z.of_nat (length bmp)) 54) as [|Hlen]; [discriminate|].
  bind_inv H. rename v into magic, E into Emagic.
  destruct (Z.eqb_spec magic 0x4D42) as [->|]; [|discriminate]. simpl in H.
  bind_inv H. rename v into hs, E into Ehs.
  destruct (Z.eqb_spec hs 40) as [->|]; [|discriminate]. simpl in H.
  bind_inv H. rename v into comp, E into Ecomp.
  destruct (Z.eqb_spec comp 0) as [->|]; [|discriminate]. simpl in H.
  bind_inv H. rename v into bpp, E into Ebpp.
  assert (Hbpp : bpp = 24 \/ bpp = 32).
  { destruct (Z.eqb_spec bpp 24); [auto|].
    destruct (Z.eqb_spec bpp 32); [auto|]. discriminate. }
  replace (negb (bpp =? 24) && negb (bpp =? 32)) with false in H
    by (destruct Hbpp as [-> | ->]; reflexivity).
  bind_inv H. rename v into w, E into Ew.
  bind_inv H. rename v into h, E into Eh.
  bind_inv H. rename v into a, E into Ea.
  apply abs_height_Ok in Ea as [-> Hh]; [|exact (read_i32_range _ _ _ Eh)].
  bind_inv H. rename v into data_offset, E into Eoff.
  destruct (Z.gtb_spec (pixel_extent data_offset (row_size w (bpp / 8)) (Z.abs h))
              (Z.of_nat (length bmp))) as [|Hext]; [discriminate|].
  bind_inv H. apply i32_Ok in E as [-> Hwh].
  bind_inv H. apply i32_Ok in E as [-> Hwh4].
  destruct (malloc heap (u64 (w * Z.abs h * 4))) as [rgba|] eqn:Em; [|discriminate].
  bind_inv H. inversion H; subst img. clear H. simpl.
  unfold malloc in Em.
  destruct (Z.leb_spec (u64 (w * Z.abs h * 4)) PTRDIFF_MAX) as [Hmax|]; [|discriminate].
  destruct (heap (u64 (w * Z.abs h * 4))) as [junk|] eqn:Eh'; [|discriminate].
  inversion Em; subst rgba. clear Em.
  assert (Hnn : 0 <= w * Z.abs h * 4).
  { destruct (Z.le_gt_cases 0 (w * Z.abs h * 4)) as [|Hneg]; [assumption|].
    rewrite u64_negative in Hmax by lia. unfold PTRDIFF_MAX in Hmax. lia. }
  rewrite u64_small in Eh', E by lia.
  exists data_offset, w, h, bpp, junk.
  split; [unfold accepted_header; repeat (split; [assumption|]); assumption|].
  repeat (split; [first [assumption | reflexivity | lia]|]).
  exact E.
Qed.

(** Where nothing wraps, the source's [row_size] is the stride of the
    format. *)
Lemma row_size_spec_stride (w bytes_per_pixel : Z) :
  0 <= w -> 1 <= bytes_per_pixel -> w * bytes_per_pixel + 3 < 2 ^ 32 ->
  row_size w bytes_per_pixel = spec_stride bytes_per_pixel w.
Proof.
  intros Hw Hb Hlt. unfold row_size, spec_stride, ceil_div.
  assert (0 <= w * bytes_per_pixel) by nia.
  rewrite (u32_small w) by nia.
  rewrite (u32_small (w * bytes_per_pixel)) by lia.
  rewrite (u32_small (w * bytes_per_pixel + 3)) by lia.
  remember (w * bytes_per_pixel) as z eqn:Ez. clear Ez.
  pose proof (Z.div_mod (z + 3) 4 ltac:(lia)).
  pose proof (Z.mod_pos_bound (z + 3) 4 ltac:(lia)).
  pose proof (Z.div_mod (- z) 4 ltac:(lia)).
  pose proof (Z.mod_pos_bound (- z) 4 ltac:(lia)).
  rewrite u32_small by lia. lia.
Qed.


(** The stride of a 24-bit or 32-bit row. *)
Lemma spec_stride_bounds (bytes_per_pixel w : Z) :
  0 <= w -> bytes_per_pixel = 3 \/ bytes_per_pixel = 4 ->
  spec_stride bytes_per_pixel w = (w * bytes_per_pixel + 3) / 4 * 4
  /\ w * bytes_per_pixel <= spec_stride bytes_per_pixel w < w * bytes_per_pixel + 4
  /\ spec_stride bytes_per_pixel w <= 4 * w.
Proof.
  intros Hw Hb. unfold spec_stride, ceil_div.
  remember (w * bytes_per_pixel) as z eqn:Ez.
  assert (0 <= z <= 4 * w) by (destruct Hb; subst; lia).
  pose proof (Z.div_mod (z + 3) 4 ltac:(lia)).
  pose proof (Z.mod_pos_bound (z + 3) 4 ltac:(lia)).
  pose proof (Z.div_mod (- z) 4 ltac:(lia)).
  pose proof (Z.mod_pos_bound (- z) 4 ltac:(lia)).
  lia.
Qed.

Lemma src_row_Ok (top_down : bool) (abs_height y r : Z) :
  src_row top_down abs_height y = Ok r ->
  r = if top_down then y else abs_height - 1 - y.
Proof.
  unfold src_row. destruct top_down.
  - intros H; inversion H; reflexivity.
  - intros H. bind_inv H. apply i32_Ok in E as [-> _].
    apply i32_Ok in H as [-> _]. reflexivity.
Qed.

Lemma src_row_in_range (top_down : bool) (abs_height y : Z) :
  0 <= y < abs_height -> abs_height < 2 ^ 31 ->
  src_row top_down abs_height y
  = Ok (if top_down then y else abs_height - 1 - y).
Proof.
  intros Hy Ha. unfold src_row. destruct top_down; [reflexivity|].
  rewrite (i32_in_range (abs_height - 1)) by lia. simpl.
  apply i32_in_range. lia.
Qed.

(** The offset of a source row, where nothing wraps. *)
Lemma src_offset_exact (w abs_height bytes_per_pixel r : Z) :
  0 < w -> 0 <= r < abs_height -> w * abs_height * 4 < 2 ^ 31 ->
  bytes_per_pixel = 3 \/ bytes_per_pixel = 4 ->
  u32 (u32 r * row_size w bytes_per_pixel) = r * spec_stride bytes_per_pixel w.
Proof.
  intros Hw Hr Hsz Hb.
  destruct (spec_stride_bounds bytes_per_pixel w ltac:(lia) Hb) as (_ & Hs & Hs4).
  assert (Hwb : w * bytes_per_pixel + 3 < 2 ^ 32) by (destruct Hb; subst; nia).
  rewrite row_size_spec_stride by (destruct Hb; subst; lia).
  assert (0 <= r * spec_stride bytes_per_pixel w <= 4 * w * abs_height) by nia.
  rewrite (u32_small r) by nia.
  apply u32_small. lia.
Qed.

(** Every pixel of a decoded image, in terms of the input. *)
Lemma decode_pixels (heap : allocator) (bmp : list byte) (img : image) :
  bare_bmp_decode heap bmp = Ok img ->
  exists data_offset w h bpp,
    accepted_header bmp data_offset w h bpp
    /\ - 2 ^ 31 < h
    /\ width img = w /\ height img = Z.abs h
    /\ 0 <= w * Z.abs h * 4 < 2 ^ 31
    /\ Z.of_nat (length (data img)) = w * Z.abs h * 4
    /\ (forall y x, 0 <= y < Z.abs h -> 0 <= x < w ->
          rgba_from_bgra bmp bpp
            (data_offset
             + (if h <? 0 then y else Z.abs h - 1 - y) * spec_stride (bpp / 8) w
             + x * (bpp / 8))
            (data img) (y * w * 4 + 4 * x)).
Proof.
  intros H.
  apply decode_Ok in H
    as (data_offset & w & h & bpp & junk & Hacc & Hh & Hext & Hwh & Hwh4 & Hheap
        & Hw & Hht & Hloop).
  exists data_offset, w, h, bpp.
  pose proof (for_i32_invariant
    (decode_inv bmp data_offset w (Z.abs h) (h <? 0) bpp (bpp / 8)
       (row_size w (bpp / 8)) (replicate (Z.to_nat (w * Z.abs h * 4)) junk))
    _ _ _ _ _ Hloop (decode_inv_init _ _ _ _ _ _ _ _ _)) as [Hlen Hpix].
  { intros j t t' Hj. apply decode_inv_step. lia. }
  rewrite length_replicate in Hlen.
  repeat (split; [first [assumption | lia]|]).
  intros y x Hy Hx.
  destruct (Hpix y x ltac:(lia) Hx) as (r & Er & Hp).
  assert (Hbpp : bpp / 8 = 3 \/ bpp / 8 = 4).
  { destruct Hacc as (_ & _ & _ & _ & _ & [-> | ->] & _); [left | right]; reflexivity. }
  pose proof (src_row_Ok _ _ _ _ Er) as Hr.
  rewrite (src_offset_exact w (Z.abs h) (bpp / 8) r) in Hp
    by (try assumption; try lia; subst r; destruct (h <? 0); lia).
  rewrite Hr in Hp. exact Hp.
Qed.

Lemma u32_le (z : Z) : 0 <= z -> u32 z <= z.
Proof. intros H. unfold u32. apply Z.mod_le; lia. Qed.

(** When the call succeeds: the format checks pass, the height can be
    negated, the output size is representable, the pixel rows lie inside the
    input and the allocator serves the request. *)
Lemma decode_total (heap : allocator) (bmp : list byte) (data_offset w h bpp : Z)
    (junk : byte) :
  accepted_header bmp data_offset w h bpp ->
  - 2 ^ 31 < h ->
  0 <= w * Z.abs h * 4 < 2 ^ 31 ->
  data_offset + row_size w (bpp / 8) * Z.abs h <= Z.of_nat (length bmp) ->
  heap (w * Z.abs h * 4) = Some junk ->
  exists img,
    bare_bmp_decode heap bmp = Ok img /\ width img = w /\ height img = Z.abs h.
Proof.
  intros (Hlen & Emagic & Ehs & Ecomp & Ebpp & Hbpp & Ew & Eh & Eoff) Hh Hsz Hext Hheap.
  pose proof (read_i32_range _ _ _ Ew) as Hwr.
  pose proof (read_i32_range _ _ _ Eh) as Hhr.
  pose proof (read_u32_range _ _ _ Eoff) as Hoff.
  assert (Hrs : 0 <= row_size w (bpp / 8) < 2 ^ 32) by (unfold row_size; apply u32_range).
  unfold bare_bmp_decode. cbv zeta.
  change (sizeof_file_header + sizeof_dib_header) with 54.
  destruct (Z.ltb_spec (Z.of_nat (length bmp)) 54) as [|_]; [lia|].
  rewrite Emagic. simpl. rewrite Ehs. simpl. rewrite Ecomp. simpl. rewrite Ebpp. simpl.
  replace (negb (bpp =? 24) && negb (bpp =? 32)) with false
    by (destruct Hbpp as [-> | ->]; reflexivity).
  rewrite Ew. simpl. rewrite Eh. simpl.
  assert (Ea : (if h <? 0 then i32 (- h) else Ok h) = Ok (Z.abs h)).
  { destruct (Z.ltb_spec h 0).
    - rewrite i32_in_range by lia. f_equal. lia.
    - f_equal. lia. }
  rewrite Ea. simpl. rewrite Eoff. simpl.
  assert (Hpe : pixel_extent data_offset (row_size w (bpp / 8)) (Z.abs h)
                <= Z.of_nat (length bmp)).
  { unfold pixel_extent. rewrite (u32_small (Z.abs h)) by lia.
    assert (0 <= row_size w (bpp / 8) * Z.abs h) by nia.
    pose proof (u32_le (row_size w (bpp / 8) * Z.abs h) ltac:(lia)).
    pose proof (u32_range (row_size w (bpp / 8) * Z.abs h)).
    pose proof (u32_le (data_offset + u32 (row_size w (bpp / 8) * Z.abs h)) ltac:(lia)).
    lia. }
  destruct (Z.gtb_spec (pixel_extent data_offset (row_size w (bpp / 8)) (Z.abs h))
              (Z.of_nat (length bmp))) as [|_]; [lia|].
  rewrite (i32_in_range (w * Z.abs h)) by lia. simpl.
  rewrite (i32_in_range (w * Z.abs h * 4)) by lia. simpl.
  rewrite u64_small by lia.
  unfold malloc.
  destruct (Z.leb_spec (w * Z.abs h * 4) PTRDIFF_MAX) as [_|Hbig];
    [|unfold PTRDIFF_MAX in Hbig; lia].
  rewrite Hheap.
  assert (Hb8 : bpp / 8 = 3 /\ (bpp =? 32) = false \/ bpp / 8 = 4 /\ (bpp =? 32) = true).
  { destruct Hbpp as [-> | ->]; [left | right]; split; reflexivity. }
  destruct (for_i32_progress
    (decode_inv bmp data_offset w (Z.abs h) (h <? 0) bpp (bpp / 8)
       (row_size w (bpp / 8)) (replicate (Z.to_nat (w * Z.abs h * 4)) junk))
    (decode_row bmp data_offset w (Z.abs h) (h <? 0) bpp (bpp / 8)
       (row_size w (bpp / 8)))
    (Z.to_nat (Z.abs h)) 0 (replicate (Z.to_nat (w * Z.abs h * 4)) junk))
    as (out & Eout & _).
  - lia.
  - lia.
  - apply decode_inv_init.
  - intros y rgba Hy Hinv.
    assert (Hy' : 0 <= y < Z.abs h) by lia.
    assert (Hrow : exists rgba',
      decode_row bmp data_offset w (Z.abs h) (h <? 0) bpp (bpp / 8)
        (row_size w (bpp / 8)) y rgba = Ok rgba').
    { destruct Hinv as [Hl _]. rewrite length_replicate in Hl.
      assert (Hw0 : 0 <= w) by nia.
      apply (decode_row_progress _ _ _ _ _ _ _ _ _
               (if h <? 0 then y else Z.abs h - 1 - y)).
      - apply src_row_in_range; lia.
      - lia.
      - nia.
      - nia.
      - intros Hw. nia.
      - intros x Hx.
        assert (Hr : 0 <= (if h <? 0 then y else Z.abs h - 1 - y) < Z.abs h)
          by (destruct (h <? 0); lia).
        remember (if h <? 0 then y else Z.abs h - 1 - y) as r eqn:Er. clear Er.
        assert (Hb3 : bpp / 8 = 3 \/ bpp / 8 = 4) by (destruct Hb8 as [[? _]|[? _]]; auto).
        assert ((if bpp =? 32 then 4 else 3) = bpp / 8) as ->
          by (destruct Hb8 as [[-> ->]|[-> ->]]; reflexivity).
        remember (bpp / 8) as B eqn:EB. clear EB Hb8.
        rewrite (src_offset_exact w (Z.abs h) B r) by (try assumption; lia).
        rewrite row_size_spec_stride in Hext by (destruct Hb3; nia).
        destruct (spec_stride_bounds B w Hw0 Hb3) as (_ & Hs & _).
        assert (0 <= r * spec_stride B w) by nia.
        assert ((r + 1) * spec_stride B w <= Z.abs h * spec_stride B w) by nia.
        assert (0 <= x * B) by nia.
        assert ((x + 1) * B <= w * B) by nia.
        lia. }
    destruct Hrow as (rgba' & Erow). exists rgba'. split; [exact Erow|].
    apply (decode_inv_step _ _ _ _ _ _ _ _ _ y rgba); [lia | exact Hinv | exact Erow].
  - rewrite Eout. simpl. eexists. split; [reflexivity|]. simpl. auto.
Qed.

(** * The encoder's loops *)

Section EncodePixels.

Variable rgba : list byte.

Lemma bgr_from_rgba_frame (s : Z) (bmp bmp' : list byte) (d : Z) :
  (forall j, d <= j < d + 3 -> load bmp' j = load bmp j) ->
  bgr_from_rgba rgba s bmp d -> bgr_from_rgba rgba s bmp' d.
Proof.
  intros Hf (r & g & b & Hr & Hg & Hb & H0 & H1 & H2).
  exists r, g, b.
  rewrite (Hf d), (Hf (d + 1)), (Hf (d + 2)) by lia.
  auto 10.
Qed.

Lemma encode_pixel_Ok (src dst : Z) (bmp : list byte)
    (st' : Z * Z * list byte) :
  encode_pixel rgba (src, dst, bmp) = Ok st' ->
  exists bmp',
    st' = (src + 4, dst + 3, bmp')
    /\ length bmp' = length bmp
    /\ bgr_from_rgba rgba src bmp' dst
    /\ (forall j, j < dst \/ dst + 3 <= j -> load bmp' j = load bmp j).
Proof.
  unfold encode_pixel. intros H.
  bind_inv H. rename v into b, E into Eb.
  bind_inv H. rename v into m1, E into S1.
  bind_inv H. rename v into g, E into Eg.
  bind_inv H. rename v into m2, E into S2.
  bind_inv H. rename v into r, E into Er.
  bind_inv H. rename v into m3, E into S3.
  inversion H; subst st'. clear H.
  pose proof (store_length _ _ _ _ S1) as L1.
  pose proof (store_length _ _ _ _ S2) as L2.
  pose proof (store_length _ _ _ _ S3) as L3.
  exists m3. split; [reflexivity|]. split; [congruence|].
  split.
  - exists r, g, b. repeat split; try assumption.
    + rewrite (load_store_ne _ _ _ _ _ S3), (load_store_ne _ _ _ _ _ S2) by lia.
      exact (load_store_eq _ _ _ _ S1).
    + rewrite (load_store_ne _ _ _ _ _ S3) by lia.
      exact (load_store_eq _ _ _ _ S2).
    + exact (load_store_eq _ _ _ _ S3).
  - intros j Hj.
    rewrite (load_store_ne _ _ _ _ _ S3), (load_store_ne _ _ _ _ _ S2),
      (load_store_ne _ _ _ _ _ S1) by lia.
    reflexivity.
Qed.

Lemma encode_pixel_progress (src dst : Z) (bmp : list byte) :
  0 <= src -> src + 3 <= Z.of_nat (length rgba) ->
  0 <= dst -> dst + 3 <= Z.of_nat (length bmp) ->
  exists st', encode_pixel rgba (src, dst, bmp) = Ok st'.
Proof.
  intros Hs0 Hs1 Hd0 Hd1. unfold encode_pixel.
  destruct (load_in_bounds rgba (src + 2)) as [b Eb]; [lia|].
  destruct (load_in_bounds rgba (src + 1)) as [g Eg]; [lia|].
  destruct (load_in_bounds rgba src) as [r Er]; [lia|].
  rewrite Eb. simpl. rewrite store_in_bounds by lia. simpl.
  rewrite Eg. simpl. rewrite store_in_bounds by (rewrite length_insert; lia). simpl.
  rewrite Er. simpl. rewrite store_in_bounds by (rewrite !length_insert; lia). simpl.
  eauto.
Qed.

Lemma encode_row_inv_init (src0 dst0 : Z) (bmp0 : list byte) :
  encode_row_inv rgba src0 dst0 bmp0 0 (src0, dst0, bmp0).
Proof. unfold encode_row_inv. repeat split; intros; lia. Qed.

Lemma encode_row_inv_step (src0 dst0 : Z) (bmp0 : list byte)
    (x : Z) (st st' : Z * Z * list byte) :
  0 <= x ->
  encode_row_inv rgba src0 dst0 bmp0 x st ->
  encode_pixel rgba st = Ok st' ->
  encode_row_inv rgba src0 dst0 bmp0 (x + 1) st'.
Proof.
  intros Hx Hinv Hstep. destruct st as [[src dst] bmp].
  destruct Hinv as (-> & -> & Hlen & Hpix & Hframe).
  apply encode_pixel_Ok in Hstep as (bmp' & -> & Hlen' & Hnew & Hframe').
  unfold encode_row_inv.
  split; [lia|]. split; [lia|]. split; [congruence|].
  split.
  - intros k Hk. destruct (Z.eq_dec k x) as [->|Hne].
    + exact Hnew.
    + apply (bgr_from_rgba_frame _ bmp).
      * intros j Hj. apply Hframe'. lia.
      * apply Hpix. lia.
  - intros j Hj. rewrite Hframe' by lia. apply Hframe. lia.
Qed.

End EncodePixels.

(** One encoded row. *)
Lemma encode_row_total (rgba : list byte) (data_offset w h rs y : Z) (bmp : list byte) :
  0 <= y < h -> h < 2 ^ 31 -> 0 <= w < 2 ^ 31 ->
  3 * w <= rs -> h * rs < 2 ^ 32 ->
  (y * w + w) * 4 <= Z.of_nat (length rgba) ->
  0 <= data_offset -> data_offset + h * rs <= Z.of_nat (length bmp) ->
  exists bmp',
    encode_row rgba data_offset w h rs y bmp = Ok bmp'
    /\ length bmp' = length bmp
    /\ (forall x, 0 <= x < w ->
          bgr_from_rgba rgba (y * w * 4 + 4 * x) bmp'
            (data_offset + (h - 1 - y) * rs + 3 * x))
    /\ (forall j, j < data_offset + (h - 1 - y) * rs
                  \/ data_offset + (h - 1 - y) * rs + 3 * w <= j ->
          load bmp' j = load bmp j).
Proof.
  intros Hy Hh Hw Hrs Hhrs Hsrc Hoff Hdst. unfold encode_row.
  assert (0 <= y * w <= h * w) by nia.
  assert (0 <= (h - 1 - y) * rs /\ (h - y) * rs <= h * rs) by nia.
  rewrite (i64_in_range (h - 1)) by lia. simpl.
  rewrite (i64_in_range (h - 1 - y)) by lia. simpl.
  rewrite (i64_in_range (y * w)) by nia. simpl.
  rewrite (i64_in_range (y * w * 4)) by nia. simpl.
  rewrite (s32_small (h - 1 - y)) by lia.
  rewrite (u32_small (h - 1 - y)) by lia.
  rewrite (u32_small ((h - 1 - y) * rs)) by lia.
  destruct (for_i32_progress
    (encode_row_inv rgba (y * w * 4) (data_offset + (h - 1 - y) * rs) bmp)
    (fun _ => encode_pixel rgba)
    (Z.to_nat w) 0 (y * w * 4, data_offset + (h - 1 - y) * rs, bmp))
    as (st' & Est & Hinv).
  - lia.
  - lia.
  - apply encode_row_inv_init.
  - intros x [[src dst] buf] Hx Hinv.
    assert (Hst : exists t', encode_pixel rgba (src, dst, buf) = Ok t').
    { destruct Hinv as (-> & -> & Hlen & _).
      apply encode_pixel_progress; lia. }
    destruct Hst as (t' & Et). exists t'. split; [exact Et|].
    apply (encode_row_inv_step _ _ _ _ x (src, dst, buf)); [lia | exact Hinv | exact Et].
  - rewrite Est. simpl. destruct st' as [[src' dst'] out]. simpl.
    destruct Hinv as (_ & _ & Hlen & Hpix & Hframe).
    exists out. split; [reflexivity|]. split; [exact Hlen|].
    split.
    + intros x Hx. apply Hpix. lia.
    + intros j Hj. apply Hframe. lia.
Qed.

Lemma encode_inv_init (rgba : list byte) (data_offset w h rs : Z) (bmp0 : list byte) :
  encode_inv rgba data_offset w h rs bmp0 0 bmp0.
Proof.
  split; [reflexivity|]. split; [intros y' x Hy'; lia | reflexivity].
Qed.

(** The row loop of the encoder. *)
Lemma encode_rows_total (rgba : list byte) (data_offset w h rs : Z) (bmp0 : list byte) :
  0 <= h < 2 ^ 31 -> (0 < h -> 0 <= w < 2 ^ 31) ->
  (0 < h -> 3 * w <= rs) -> h * rs < 2 ^ 32 ->
  w * h * 4 <= Z.of_nat (length rgba) ->
  0 <= data_offset -> data_offset + h * rs <= Z.of_nat (length bmp0) ->
  exists bmp,
    for_i32 (Z.to_nat h) 0 (encode_row rgba data_offset w h rs) bmp0 = Ok bmp
    /\ encode_inv rgba data_offset w h rs bmp0 h bmp.
Proof.
  intros Hh Hw Hrs Hhrs Hsrc Hoff Hdst.
  destruct (for_i32_progress
    (encode_inv rgba data_offset w h rs bmp0)
    (encode_row rgba data_offset w h rs) (Z.to_nat h) 0 bmp0)
    as (bmp & Eb & Hinv).
  - lia.
  - lia.
  - apply encode_inv_init.
  - intros y bmp Hy (Hlen & Hpix & Hframe).
    assert (Hy' : 0 <= y < h) by lia.
    specialize (Hw ltac:(lia)). specialize (Hrs ltac:(lia)).
    destruct (encode_row_total rgba data_offset w h rs y bmp)
      as (bmp' & Erow & Hlen' & Hnew & Hframe'); try lia.
    { nia. }
    exists bmp'. split; [exact Erow|].
    split; [congruence|]. split.
    + intros y' x Hy'' Hx. destruct (Z.eq_dec y' y) as [->|Hne].
      * apply Hnew. exact Hx.
      * apply (bgr_from_rgba_frame rgba _ bmp); [|apply Hpix; lia].
        intros j Hj. apply Hframe'. right.
        assert ((h - y) * rs <= (h - 1 - y') * rs) by nia. nia.
    + intros j Hj. rewrite Hframe' by (apply Hj; lia).
      apply Hframe. intros y' Hy''. apply Hj. lia.
  - exists bmp. replace (0 + Z.of_nat (Z.to_nat h)) with h in Hinv by lia. auto.
Qed.

(** * The encoder as a whole *)

Lemma store_app_l (pre rest : list byte) (i : Z) (b : byte) :
  0 <= i < Z.of_nat (length pre) ->
  store (pre ++ rest) i b = Ok (<[Z.to_nat i := b]> pre ++ rest).
Proof.
  intros H. rewrite store_in_bounds by (rewrite length_app; lia).
  rewrite insert_app_l by lia. reflexivity.
Qed.

Lemma load_app_l (pre rest : list byte) (i : Z) :
  0 <= i < Z.of_nat (length pre) -> load (pre ++ rest) i = load pre i.
Proof.
  intros H. unfold load. rewrite length_app.
  destruct (Z.leb_spec 0 i); [|lia].
  destruct (Z.ltb_spec i (Z.of_nat (length pre + length rest))); [|lia].
  destruct (Z.ltb_spec i (Z.of_nat (length pre))); [|lia].
  simpl. rewrite lookup_app_l by lia. reflexivity.
Qed.

Lemma load_app_r (pre rest : list byte) (i : Z) :
  Z.of_nat (length pre) <= i ->
  load (pre ++ rest) i = load rest (i - Z.of_nat (length pre)).
Proof.
  intros H. unfold load. rewrite length_app.
  destruct (Z.leb_spec 0 i); [|lia].
  destruct (Z.leb_spec 0 (i - Z.of_nat (length pre))); [|lia].
  simpl.
  destruct (Z.ltb_spec i (Z.of_nat (length pre + length rest)));
    destruct (Z.ltb_spec (i - Z.of_nat (length pre)) (Z.of_nat (length rest)));
    try lia; [|reflexivity].
  rewrite lookup_app_r by lia.
  replace (Z.to_nat i - length pre)%nat with (Z.to_nat (i - Z.of_nat (length pre))) by lia.
  reflexivity.
Qed.

Lemma load_replicate (n i : Z) (b : byte) :
  0 <= i < n -> load (replicate (Z.to_nat n) b) i = Ok b.
Proof.
  intros H. apply load_Ok. split; [lia|].
  apply lookup_replicate. split; [reflexivity | lia].
Qed.

Lemma write_u16_app (pre rest : list byte) (off v : Z) :
  0 <= off -> off + 2 <= Z.of_nat (length pre) ->
  write_u16 (pre ++ rest) off v
  = Ok (<[Z.to_nat (off + 1) := byte_of (v / 2 ^ 8)]>
          (<[Z.to_nat off := byte_of v]> pre) ++ rest).
Proof.
  intros H0 H1. unfold write_u16.
  rewrite store_app_l by lia. simpl.
  rewrite store_app_l by (rewrite length_insert; lia). reflexivity.
Qed.

Lemma write_u32_app (pre rest : list byte) (off v : Z) :
  0 <= off -> off + 4 <= Z.of_nat (length pre) ->
  write_u32 (pre ++ rest) off v
  = Ok (<[Z.to_nat (off + 3) := byte_of (v / 2 ^ 24)]>
          (<[Z.to_nat (off + 2) := byte_of (v / 2 ^ 16)]>
             (<[Z.to_nat (off + 1) := byte_of (v / 2 ^ 8)]>
                (<[Z.to_nat off := byte_of v]> pre))) ++ rest).
Proof.
  intros H0 H1. unfold write_u32.
  rewrite store_app_l by lia. simpl.
  rewrite store_app_l by (rewrite length_insert; lia). simpl.
  rewrite store_app_l by (rewrite !length_insert; lia). simpl.
  rewrite store_app_l by (rewrite !length_insert; lia). reflexivity.
Qed.

Lemma read_u16_app_l (pre rest : list byte) (off : Z) :
  0 <= off -> off + 2 <= Z.of_nat (length pre) ->
  read_u16 (pre ++ rest) off = read_u16 pre off.
Proof.
  intros H0 H1. apply read_u16_ext. intros j Hj. apply load_app_l. lia.
Qed.

Lemma read_u32_app_l (pre rest : list byte) (off : Z) :
  0 <= off -> off + 4 <= Z.of_nat (length pre) ->
  read_u32 (pre ++ rest) off = read_u32 pre off.
Proof.
  intros H0 H1. apply read_u32_ext. intros j Hj. apply load_app_l. lia.
Qed.

Lemma length_header (file_size data_offset w h bpp image_size ppm : Z) :
  length (bytes (header_full file_size data_offset w h bpp image_size ppm)) = 54%nat.
Proof. reflexivity. Qed.

(** The row stride of the encoder is never far from three bytes a pixel. *)
Lemma quot_stride_range (w : Z) :
  - 2 ^ 31 <= w < 2 ^ 31 -> - 2 ^ 63 <= (w * 3 + 3) ÷ 4 * 4 < 2 ^ 63.
Proof.
  intros Hw.
  pose proof (Z.quot_rem' (w * 3 + 3) 4).
  pose proof (Z.rem_bound_abs (w * 3 + 3) 4 ltac:(lia)). lia.
Qed.

(** Up to the row loop: the checks pass, the block is allocated and zeroed,
    and the sixteen header fields are stored. *)
Lemma encode_run (heap : allocator) (w h : Z) (rgba : list byte) (junk : byte) :
  let rs := u32 ((w * 3 + 3) ÷ 4 * 4) in
  - 2 ^ 31 <= w < 2 ^ 31 -> 0 <= h < 2 ^ 31 ->
  0 <= w * h * 4 <= Z.of_nat (length rgba) -> w * h * 4 < 2 ^ 63 ->
  54 + rs * h < 2 ^ 32 ->
  heap (54 + rs * h) = Some junk ->
  bare_bmp_encode heap (Image w h rgba)
  = for_i32 (Z.to_nat h) 0 (encode_row rgba 54 w h rs)
      (bytes (header_full (54 + rs * h) 54 (u32 (s32 w)) (u32 (s32 h)) 24 (rs * h) 2835)
       ++ replicate (Z.to_nat (rs * h)) x00).
Proof.
  intros rs Hw Hh Hlen Hsz Hfs Hheap.
  pose proof (u32_range ((w * 3 + 3) ÷ 4 * 4)) as Hrs. fold rs in Hrs.
  unfold bare_bmp_encode. cbv zeta. simpl width. simpl height. simpl data.
  rewrite (i64_in_range (w * h)) by nia. cbn [bind].
  rewrite (i64_in_range (w * h * 4)) by lia. cbn [bind].
  rewrite (u64_small (w * h * 4)) by lia.
  destruct (Z.ltb_spec (Z.of_nat (length rgba)) (w * h * 4)) as [|_]; [lia|].
  rewrite (i64_in_range (w * 3)) by lia. cbn [bind].
  rewrite (i64_in_range (w * 3 + 3)) by lia. cbn [bind].
  rewrite (i64_in_range ((w * 3 + 3) ÷ 4 * 4)) by (apply quot_stride_range; exact Hw).
  cbn [bind]. fold rs.
  assert (0 <= rs * h) by nia.
  rewrite (i64_in_range (rs * h)) by nia. cbn [bind].
  rewrite (u32_small (rs * h)) by lia.
  change (sizeof_file_header + sizeof_dib_header) with 54.
  rewrite (u64_small (54 + rs * h)) by lia.
  rewrite (u32_small (54 + rs * h)) by lia.
  unfold malloc.
  destruct (Z.leb_spec (54 + rs * h) PTRDIFF_MAX) as [_|Hbig];
    [|unfold PTRDIFF_MAX in Hbig; lia].
  rewrite Hheap. unfold memset_zero. rewrite length_replicate.
  replace (Z.to_nat (54 + rs * h)) with (54 + Z.to_nat (rs * h))%nat by lia.
  rewrite replicate_add. unfold write_i32.
  repeat (first [rewrite write_u16_app
                   by (rewrite ?length_insert, ?length_replicate; lia)
                | rewrite write_u32_app
                   by (rewrite ?length_insert, ?length_replicate; lia)];
          cbn [bind]).
  match goal with
  | |- context [?L ++ replicate (Z.to_nat (rs * h)) x00] =>
      change L with
        (bytes (header_full (54 + rs * h) 54 (u32 (s32 w)) (u32 (s32 h)) 24 (rs * h) 2835))
  end.
  rewrite read_u32_app_l by (rewrite ?length_header; lia).
  change (read_u32
            (bytes (header_full (54 + rs * h) 54 (u32 (s32 w)) (u32 (s32 h)) 24 (rs * h) 2835))
            10) with (Ok (A := Z) 54).
  reflexivity.
Qed.

Lemma le16_sum (v : Z) :
  byte_val (byte_of v) + 2 ^ 8 * byte_val (byte_of (v / 2 ^ 8)) = v mod 2 ^ 16.
Proof.
  rewrite !byte_val_of.
  change (2 ^ 8) with 256. change (2 ^ 16) with 65536.
  pose proof (Z.div_mod v 256 ltac:(lia)).
  pose proof (Z.mod_pos_bound v 256 ltac:(lia)).
  pose proof (Z.div_mod (v / 256) 256 ltac:(lia)).
  pose proof (Z.mod_pos_bound (v / 256) 256 ltac:(lia)).
  apply (Z.mod_unique v 65536 (v / 256 / 256)); lia.
Qed.

Lemma le32_sum (v : Z) :
  byte_val (byte_of v) + 2 ^ 8 * byte_val (byte_of (v / 2 ^ 8))
  + 2 ^ 16 * byte_val (byte_of (v / 2 ^ 16))
  + 2 ^ 24 * byte_val (byte_of (v / 2 ^ 24)) = u32 v.
Proof.
  rewrite !byte_val_of. unfold u32.
  change (2 ^ 8) with 256. change (2 ^ 16) with (256 * 256).
  change (2 ^ 24) with (256 * 256 * 256). change (2 ^ 32) with 4294967296.
  rewrite <- !Z.div_div by lia.
  pose proof (Z.div_mod v 256 ltac:(lia)).
  pose proof (Z.mod_pos_bound v 256 ltac:(lia)).
  pose proof (Z.div_mod (v / 256) 256 ltac:(lia)).
  pose proof (Z.mod_pos_bound (v / 256) 256 ltac:(lia)).
  pose proof (Z.div_mod (v / 256 / 256) 256 ltac:(lia)).
  pose proof (Z.mod_pos_bound (v / 256 / 256) 256 ltac:(lia)).
  pose proof (Z.div_mod (v / 256 / 256 / 256) 256 ltac:(lia)).
  pose proof (Z.mod_pos_bound (v / 256 / 256 / 256) 256 ltac:(lia)).
  apply (Z.mod_unique v 4294967296 (v / 256 / 256 / 256 / 256)); lia.
Qed.

(** Reading back a field stored least significant byte first. *)
Lemma read_u16_le (m : list byte) (off v : Z) :
  load m off = Ok (byte_of v) -> load m (off + 1) = Ok (byte_of (v / 2 ^ 8)) ->
  read_u16 m off = Ok (v mod 2 ^ 16).
Proof.
  intros H0 H1. unfold read_u16. rewrite H0, H1. simpl bind.
  rewrite le16_sum. reflexivity.
Qed.

Lemma read_u32_le (m : list byte) (off v : Z) :
  load m off = Ok (byte_of v) -> load m (off + 1) = Ok (byte_of (v / 2 ^ 8)) ->
  load m (off + 2) = Ok (byte_of (v / 2 ^ 16)) ->
  load m (off + 3) = Ok (byte_of (v / 2 ^ 24)) ->
  read_u32 m off = Ok (u32 v).
Proof.
  intros H0 H1 H2 H3. unfold read_u32. rewrite H0, H1, H2, H3. simpl bind.
  rewrite le32_sum. reflexivity.
Qed.

Lemma read_i32_le (m : list byte) (off v : Z) :
  - 2 ^ 31 <= v < 2 ^ 31 ->
  load m off = Ok (byte_of (u32 (s32 v))) ->
  load m (off + 1) = Ok (byte_of (u32 (s32 v) / 2 ^ 8)) ->
  load m (off + 2) = Ok (byte_of (u32 (s32 v) / 2 ^ 16)) ->
  load m (off + 3) = Ok (byte_of (u32 (s32 v) / 2 ^ 24)) ->
  read_i32 m off = Ok v.
Proof.
  intros Hv H0 H1 H2 H3. unfold read_i32.
  rewrite (read_u32_le m off (u32 (s32 v)) H0 H1 H2 H3). simpl bind.
  rewrite (u32_small (u32 (s32 v))) by apply u32_range.
  rewrite s32_small by exact Hv. f_equal.
  unfold u32. destruct (Z.leb_spec 0 v).
  - rewrite Z.mod_small by lia. destruct (Z.ltb_spec v (2 ^ 31)); lia.
  - replace (v mod 2 ^ 32) with (2 ^ 32 + v)
      by (apply (Z.mod_unique v (2 ^ 32) (-1)); lia).
    destruct (Z.ltb_spec (2 ^ 32 + v) (2 ^ 31)); lia.
Qed.

(** The encoder's stride is the stride of a 24-bit row. *)
Lemma encode_stride (w : Z) :
  0 <= w -> w * 3 + 3 < 2 ^ 32 -> u32 ((w * 3 + 3) ÷ 4 * 4) = spec_stride 3 w.
Proof.
  intros Hw Hlt. rewrite Z.quot_div_nonneg by lia.
  destruct (spec_stride_bounds 3 w Hw ltac:(auto)) as (E & Hb & _).
  rewrite <- E. apply u32_small. lia.
Qed.

(** When the encoder succeeds, and what it returns. *)
Lemma encode_total (heap : allocator) (w h : Z) (rgba : list byte) (junk : byte) :
  let stride := spec_stride 3 w in
  - 2 ^ 31 <= w < 2 ^ 31 -> 0 <= h < 2 ^ 31 -> (0 < h -> 0 <= w) ->
  w * h * 4 <= Z.of_nat (length rgba) ->
  54 + stride * h < 2 ^ 32 ->
  heap (54 + stride * h) = Some junk ->
  exists out,
    bare_bmp_encode heap (Image w h rgba) = Ok out
    /\ Z.of_nat (length out) = 54 + stride * h
    /\ (forall j, 0 <= j < 54 -> load out j = load (encoded_header w h) j)
    /\ (forall y x, 0 <= y < h -> 0 <= x < w ->
          bgr_from_rgba rgba (y * w * 4 + 4 * x) out
            (54 + (h - 1 - y) * stride + 3 * x))
    /\ (forall r k, 0 <= r < h -> 3 * w <= k < stride ->
          load out (54 + r * stride + k) = Ok x00).
Proof.
  intros stride Hw Hh Hpos Hlen Hfs Hheap.
  assert (Hrs : u32 ((w * 3 + 3) ÷ 4 * 4) * h = stride * h
                /\ (0 < h -> u32 ((w * 3 + 3) ÷ 4 * 4) = stride /\ 3 * w <= stride
                             /\ 0 <= w * h * 4 < 2 ^ 34)).
  { destruct (Z.eq_dec h 0) as [->|Hne]; [split; lia|].
    specialize (Hpos ltac:(lia)).
    destruct (spec_stride_bounds 3 w Hpos ltac:(auto)) as (_ & Hb & _).
    fold stride in Hb.
    assert (stride <= stride * h) by nia.
    assert (E : u32 ((w * 3 + 3) ÷ 4 * 4) = stride) by (apply encode_stride; lia).
    rewrite E. split; [reflexivity|]. intros _. split; [reflexivity|].
    split; [lia|]. nia. }
  destruct Hrs as [Ersh Hrs].
  assert (Hwh : 0 <= w * h * 4 < 2 ^ 63).
  { destruct (Z.eq_dec h 0) as [->|Hne]; [lia|]. specialize (Hrs ltac:(lia)). lia. }
  pose proof (encode_run heap w h rgba junk Hw Hh ltac:(lia) ltac:(lia)) as Hrun.
  cbv zeta in Hrun. rewrite Ersh in Hrun.
  specialize (Hrun Hfs Hheap). rewrite Hrun.
  fold stride. fold (encoded_header w h).
  assert (Hlen0 : length (encoded_header w h) = 54%nat) by reflexivity.
  assert (0 <= stride * h).
  { destruct (Z.eq_dec h 0) as [->|Hne]; [lia|]. specialize (Hrs ltac:(lia)). nia. }
  destruct (encode_rows_total rgba 54 w h (u32 ((w * 3 + 3) ÷ 4 * 4))
              (encoded_header w h ++ replicate (Z.to_nat (stride * h)) x00))
    as (out & Eout & Hl & Hpix & Hframe).
  - exact Hh.
  - intros Hh0. specialize (Hpos Hh0). lia.
  - intros Hh0. specialize (Hrs Hh0). lia.
  - rewrite Z.mul_comm, Ersh. lia.
  - exact Hlen.
  - lia.
  - rewrite length_app, length_replicate, Hlen0, (Z.mul_comm h), Ersh. lia.
  - exists out. split; [exact Eout|].
    rewrite length_app, length_replicate, Hlen0 in Hl.
    split; [lia|].
    assert (Hstr : 0 < h -> u32 ((w * 3 + 3) ÷ 4 * 4) = stride) by (intros; apply Hrs; lia).
    split; [|split].
    + intros j Hj. rewrite Hframe.
      * apply load_app_l. rewrite Hlen0. lia.
      * intros y' Hy'. left. rewrite Hstr by lia.
        assert (0 <= (h - 1 - y') * stride) by (specialize (Hrs ltac:(lia)); nia). lia.
    + intros y x Hy Hx. rewrite <- (Hstr ltac:(lia)). apply Hpix; assumption.
    + intros r k Hr Hk. rewrite Hframe.
      * rewrite load_app_r by (rewrite Hlen0; nia). rewrite Hlen0.
        apply load_replicate.
        assert ((r + 1) * stride <= h * stride) by nia. nia.
      * intros y' Hy'. rewrite Hstr by lia.
        destruct (Z.lt_ge_cases r (h - 1 - y')).
        -- left. assert ((r + 1) * stride <= (h - 1 - y') * stride) by nia. lia.
        -- right. specialize (Hrs ltac:(lia)).
           assert ((h - 1 - y') * stride <= r * stride) by nia. lia.
Qed.

(** The fields of a buffer that starts with the encoder's header. *)
Lemma encoded_header_fields (w h : Z) (out : list byte) :
  let stride := spec_stride 3 w in
  - 2 ^ 31 <= w < 2 ^ 31 -> - 2 ^ 31 <= h < 2 ^ 31 ->
  0 <= stride * h -> 54 + stride * h < 2 ^ 32 ->
  (forall j, 0 <= j < 54 -> load out j = load (encoded_header w h) j) ->
  read_u16 out 0 = Ok 0x4D42
  /\ read_u32 out 2 = Ok (54 + stride * h)
  /\ read_u16 out 6 = Ok 0
  /\ read_u16 out 8 = Ok 0
  /\ read_u32 out 10 = Ok 54
  /\ read_u32 out 14 = Ok 40
  /\ read_i32 out 18 = Ok w
  /\ read_i32 out 22 = Ok h
  /\ read_u16 out 26 = Ok 1
  /\ read_u16 out 28 = Ok 24
  /\ read_u32 out 30 = Ok 0
  /\ read_u32 out 34 = Ok (stride * h)
  /\ read_i32 out 38 = Ok 2835
  /\ read_i32 out 42 = Ok 2835
  /\ read_u32 out 46 = Ok 0
  /\ read_u32 out 50 = Ok 0.
Proof.
  intros stride Hw Hh Hsh Hfs Hload.
  assert (H16 : forall off, 0 <= off -> off + 2 <= 54 ->
            read_u16 out off = read_u16 (encoded_header w h) off).
  { intros off H0 H1. apply read_u16_ext. intros j Hj. apply Hload. lia. }
  assert (H32 : forall off, 0 <= off -> off + 4 <= 54 ->
            read_u32 out off = read_u32 (encoded_header w h) off).
  { intros off H0 H1. apply read_u32_ext. intros j Hj. apply Hload. lia. }
  assert (Hi32 : forall off, 0 <= off -> off + 4 <= 54 ->
            read_i32 out off = read_i32 (encoded_header w h) off).
  { intros off H0 H1. apply read_i32_ext. intros j Hj. apply Hload. lia. }
  rewrite !H16, !H32, !Hi32 by lia.
  repeat split; try reflexivity.
  - rewrite (read_u32_le _ 2 (54 + stride * h)) by reflexivity.
    rewrite u32_small by lia. reflexivity.
  - apply read_i32_le; [exact Hw | reflexivity ..].
  - apply read_i32_le; [exact Hh | reflexivity ..].
  - rewrite (read_u32_le _ 34 (stride * h)) by reflexivity.
    rewrite u32_small by lia. reflexivity.
Qed.

(** Every byte of a [w] by [h] RGBA buffer is a channel of a pixel. *)
Lemma pixel_index (w h i : Z) :
  0 <= h -> 0 <= i < w * h * 4 ->
  exists y x c,
    0 <= y < h /\ 0 <= x < w /\ 0 <= c < 4
    /\ i = y * w * 4 + 4 * x + c /\ c = i mod 4.
Proof.
  intros Hh Hi.
  assert (Hw : 0 < w) by nia.
  pose proof (Z.div_mod i 4 ltac:(lia)) as Hq.
  pose proof (Z.mod_pos_bound i 4 ltac:(lia)) as Hc.
  pose proof (Z.div_mod (i / 4) w ltac:(lia)) as Hy.
  pose proof (Z.mod_pos_bound (i / 4) w ltac:(lia)) as Hx.
  exists (i / 4 / w), ((i / 4) mod w), (i mod 4).
  assert (0 <= i / 4 < w * h) by lia.
  assert (0 <= i / 4 / w < h).
  { split; [apply Z.div_pos; lia|]. apply Z.div_lt_upper_bound; lia. }
  repeat split; try lia.
Qed.

(** The decoder never throws one of the five format errors, nor
    [TruncatedData], once it has reached the allocation. *)
Lemma decode_rows_no_throw (bmp : list byte) (data_offset w abs_height : Z)
    (top_down : bool) (bpp bytes_per_pixel rs : Z) (n : nat) (rgba : list byte) :
  no_throw
    (for_i32 n 0
       (decode_row bmp data_offset w abs_height top_down bpp bytes_per_pixel rs) rgba).
Proof. apply for_i32_no_throw. intros j t. apply decode_row_no_throw. Qed.

(** The file size [54 + row_size * height] is kept in a [uint32_t]: for a
    1 by 2^30 image it wraps to 54, the block holds the headers only, and
    the first pixel is stored 2^32 - 4 bytes past them. *)
Lemma encode_file_size_wraps (heap : allocator) (rgba : list byte) (junk : byte) :
  2 ^ 32 <= Z.of_nat (length rgba) ->
  heap 54 = Some junk ->
  bare_bmp_encode heap (Image 1 (2 ^ 30) rgba) = Undefined.
Proof.
  intros Hlen Hheap.
  unfold bare_bmp_encode. cbv zeta. simpl width. simpl height. simpl data.
  change (i64 (1 * 2 ^ 30)) with (Ok (A := Z) (2 ^ 30)). cbn [bind].
  change (i64 (2 ^ 30 * 4)) with (Ok (A := Z) (2 ^ 32)). cbn [bind].
  change (u64 (2 ^ 32)) with (2 ^ 32).
  destruct (Z.ltb_spec (Z.of_nat (length rgba)) (2 ^ 32)) as [|_]; [lia|].
  change (i64 (1 * 3)) with (Ok (A := Z) 3). cbn [bind].
  change (i64 (3 + 3)) with (Ok (A := Z) 6). cbn [bind].
  change (i64 (6 ÷ 4 * 4)) with (Ok (A := Z) 4). cbn [bind].
  change (u32 4) with 4.
  change (i64 (4 * 2 ^ 30)) with (Ok (A := Z) (2 ^ 32)). cbn [bind].
  change (u32 (2 ^ 32)) with 0.
  change (u32 (u64 (sizeof_file_header + sizeof_dib_header + 0))) with 54.
  unfold malloc. change (54 <=? PTRDIFF_MAX) with true. cbv iota.
  rewrite Hheap. unfold memset_zero. rewrite length_replicate.
  change (Z.to_nat 54) with 54%nat.
  rewrite <- (app_nil_r (replicate 54 x00)). unfold write_i32.
  repeat (first [rewrite write_u16_app
                   by (rewrite ?length_insert, ?length_replicate; lia)
                | rewrite write_u32_app
                   by (rewrite ?length_insert, ?length_replicate; lia)];
          cbn [bind]).
  match goal with
  | |- context [?L ++ []] =>
      change L with
        (bytes (header_full 54 54 (u32 (s32 1)) (u32 (s32 (2 ^ 30))) 24 0 2835))
  end.
  rewrite read_u32_app_l by (rewrite ?length_header; lia).
  change (read_u32
            (bytes (header_full 54 54 (u32 (s32 1)) (u32 (s32 (2 ^ 30))) 24 0 2835)) 10)
    with (Ok (A := Z) 54).
  cbn [bind]. rewrite app_nil_r.
  replace (Z.to_nat (2 ^ 30)) with (Datatypes.S (Z.to_nat (2 ^ 30 - 1))) by lia.
  cbn [for_i32].
  assert (Erow : encode_row rgba 54 1 (2 ^ 30) 4 0
            (bytes (header_full 54 54 (u32 (s32 1)) (u32 (s32 (2 ^ 30))) 24 0 2835))
          = Undefined).
  { unfold encode_row.
    change (i64 (2 ^ 30 - 1)) with (Ok (A := Z) (2 ^ 30 - 1)). cbn [bind].
    change (i64 (2 ^ 30 - 1 - 0)) with (Ok (A := Z) (2 ^ 30 - 1)). cbn [bind].
    change (i64 (0 * 1)) with (Ok (A := Z) 0). cbn [bind].
    change (i64 (0 * 4)) with (Ok (A := Z) 0). cbn [bind].
    change (54 + u32 (u32 (s32 (2 ^ 30 - 1)) * 4)) with (54 + (2 ^ 32 - 4)).
    change (Z.to_nat 1) with 1%nat. cbn [for_i32].
    unfold encode_pixel.
    destruct (load_in_bounds rgba (0 + 2)) as [b Eb]; [lia|].
    rewrite Eb. cbn [bind].
    unfold store. rewrite length_header.
    reflexivity. }
  rewrite Erow. reflexivity.
Qed.

(** * Rejections come before the allocation *)

Lemma read_u16_no_throw (m : list byte) (off : Z) : no_throw (read_u16 m off).
Proof.
  unfold read_u16.
  repeat (apply no_throw_bind; [apply load_no_throw | intros ?]). discriminate.
Qed.

Lemma read_u32_no_throw (m : list byte) (off : Z) : no_throw (read_u32 m off).
Proof.
  unfold read_u32.
  repeat (apply no_throw_bind; [apply load_no_throw | intros ?]). discriminate.
Qed.

Lemma read_i32_no_throw (m : list byte) (off : Z) : no_throw (read_i32 m off).
Proof.
  unfold read_i32. apply no_throw_bind; [apply read_u32_no_throw | intros ?].
  discriminate.
Qed.

Lemma write_u16_no_throw (m : list byte) (off v : Z) : no_throw (write_u16 m off v).
Proof.
  unfold write_u16. apply no_throw_bind; [apply store_no_throw | intros ?].
  apply store_no_throw.
Qed.

Lemma write_u32_no_throw (m : list byte) (off v : Z) : no_throw (write_u32 m off v).
Proof.
  unfold write_u32.
  repeat (apply no_throw_bind; [apply store_no_throw | intros ?]).
  apply store_no_throw.
Qed.

Lemma encode_pixel_no_throw (rgba : list byte) (st : Z * Z * list byte) :
  no_throw (encode_pixel rgba st).
Proof.
  destruct st as [[src dst] bmp]. unfold encode_pixel.
  repeat (apply no_throw_bind;
          [first [apply load_no_throw | apply store_no_throw] | intros ?]).
  discriminate.
Qed.

Lemma encode_row_no_throw (rgba : list byte) (data_offset w h rs y : Z)
    (bmp : list byte) :
  no_throw (encode_row rgba data_offset w h rs y bmp).
Proof.
  unfold encode_row.
  repeat (apply no_throw_bind; [apply i64_no_throw | intros ?]).
  apply no_throw_bind.
  { apply for_i32_no_throw. intros ? ?. apply encode_pixel_no_throw. }
  intros [[? ?] ?]. discriminate.
Qed.

(** One step through a call that ended in [Throw e]: a bound computation
    that cannot throw returned a value, and a test either threw [e] itself
    or let the call go on. *)
Ltac throw_step H :=
  match type of H with
  | bind ?m _ = Throw _ =>
      let E := fresh "E" in
      destruct m eqn:E; cbn [bind] in H |- *;
      [ | first [ exfalso; eapply read_u16_no_throw; exact E
                | exfalso; eapply read_u32_no_throw; exact E
                | exfalso; eapply read_i32_no_throw; exact E
                | exfalso; eapply i32_no_throw; exact E
                | exfalso; eapply i64_no_throw; exact E
                | exfalso; destruct (_ <? _);
                  [eapply i32_no_throw; exact E | discriminate E] ]
        | discriminate H ]
  | (if ?c then Throw _ else _) = Throw _ =>
      destruct c; [exact H | ]
  end.

Lemma decode_rejects_before_allocating (heap heap' : allocator) (bmp : list byte)
    (e : error) :
  bare_bmp_decode heap bmp = Throw e -> e <> AllocationFailure ->
  bare_bmp_decode heap' bmp = Throw e.
Proof.
  unfold bare_bmp_decode. cbv zeta. intros H Hne.
  repeat throw_step H.
  exfalso.
  destruct (malloc heap _) as [rgba|].
  - revert H. apply no_throw_bind; [apply decode_rows_no_throw | intros ?; discriminate].
  - inversion H. congruence.
Qed.

Lemma encode_rejects_before_allocating (heap heap' : allocator) (rgba_obj : image)
    (e : error) :
  bare_bmp_encode heap rgba_obj = Throw e -> e <> AllocationFailure ->
  bare_bmp_encode heap' rgba_obj = Throw e.
Proof.
  unfold bare_bmp_encode. cbv zeta. intros H Hne.
  repeat throw_step H.
  exfalso.
  destruct (malloc heap _) as [bmp|].
  - revert H.
    repeat (apply no_throw_bind;
            [first [apply write_u16_no_throw | apply write_u32_no_throw
                   | apply read_u32_no_throw] | intros ?]).
    apply for_i32_no_throw. intros ? ?. apply encode_row_no_throw.
  - inversion H. congruence.
Qed.

(** * The pixel-extent check *)

(** The check as the source computes it. *)
Lemma decode_truncated (heap : allocator) (bmp : list byte) (data_offset w h bpp : Z) :
  accepted_header bmp data_offset w h bpp -> - 2 ^ 31 < h ->
  (bare_bmp_decode heap bmp = Throw TruncatedData
   <-> pixel_extent data_offset (row_size w (bpp / 8)) (Z.abs h) > Z.of_nat (length bmp)).
Proof.
  intros (Hlen & Emagic & Ehs & Ecomp & Ebpp & Hbpp & Ew & Eh & Eoff) Hh.
  pose proof (read_i32_range _ _ _ Eh) as Hhr.
  unfold bare_bmp_decode. cbv zeta.
  change (sizeof_file_header + sizeof_dib_header) with 54.
  destruct (Z.ltb_spec (Z.of_nat (length bmp)) 54) as [|_]; [lia|].
  rewrite Emagic. cbn [bind]. change (negb (19778 =? 19778)) with false. cbv iota.
  rewrite Ehs. cbn [bind]. change (negb (40 =? 40)) with false. cbv iota.
  rewrite Ecomp. cbn [bind]. change (negb (0 =? 0)) with false. cbv iota.
  rewrite Ebpp. cbn [bind].
  replace (negb (bpp =? 24) && negb (bpp =? 32)) with false
    by (destruct Hbpp as [-> | ->]; reflexivity).
  rewrite Ew. cbn [bind]. rewrite Eh. cbn [bind].
  assert (Ea : (if h <? 0 then i32 (- h) else Ok h) = Ok (Z.abs h)).
  { destruct (Z.ltb_spec h 0).
    - rewrite i32_in_range by lia. f_equal. lia.
    - f_equal. lia. }
  rewrite Ea. cbn [bind]. rewrite Eoff. cbn [bind].
  destruct (Z.gtb_spec (pixel_extent data_offset (row_size w (bpp / 8)) (Z.abs h))
              (Z.of_nat (length bmp))) as [Hgt|Hle].
  - split; [intros _; lia | reflexivity].
  - split; [|lia]. intros H. exfalso.
    destruct (i32 (w * Z.abs h)) as [wh| |] eqn:E1; cbn [bind] in H;
      [|exact (i32_no_throw _ _ E1) | discriminate].
    destruct (i32 (wh * 4)) as [size| |] eqn:E2; cbn [bind] in H;
      [|exact (i32_no_throw _ _ E2) | discriminate].
    destruct (malloc heap (u64 size)) as [rgba|]; [|discriminate].
    revert H.
    apply no_throw_bind; [apply decode_rows_no_throw | intros ?; discriminate].
Qed.

(** Where the exact extent is below 2^32 (and the width is not negative),
    the source's value is the exact one. *)
Lemma pixel_extent_exact (data_offset w h bytes_per_pixel : Z) :
  0 <= data_offset -> 0 <= w -> bytes_per_pixel = 3 \/ bytes_per_pixel = 4 ->
  - 2 ^ 31 < h < 2 ^ 31 ->
  spec_pixel_extent data_offset bytes_per_pixel w h < 2 ^ 32 ->
  pixel_extent data_offset (row_size w bytes_per_pixel) (Z.abs h)
  = spec_pixel_extent data_offset bytes_per_pixel w h.
Proof.
  intros Hoff Hw Hb Hh Hext. unfold pixel_extent, spec_pixel_extent in *.
  rewrite (u32_small (Z.abs h)) by lia.
  destruct (Z.eq_dec h 0) as [->|Hne].
  - change (Z.abs 0) with 0. rewrite !Z.mul_0_r.
    change (u32 0) with 0. rewrite Z.add_0_r in *. apply u32_small. lia.
  - destruct (spec_stride_bounds bytes_per_pixel w Hw Hb) as (E & Hs & _).
    assert (Hs1 : spec_stride bytes_per_pixel w <= spec_stride bytes_per_pixel w * Z.abs h)
      by nia.
    assert (Hwb : w * bytes_per_pixel + 3 < 2 ^ 32).
    { pose proof (Z.div_mod (w * bytes_per_pixel + 3) 4 ltac:(lia)).
      pose proof (Z.mod_pos_bound (w * bytes_per_pixel + 3) 4 ltac:(lia)).
      lia. }
    rewrite row_size_spec_stride by (destruct Hb; subst; lia).
    assert (0 <= spec_stride bytes_per_pixel w * Z.abs h) by nia.
    rewrite (u32_small (spec_stride bytes_per_pixel w * Z.abs h)) by lia.
    apply u32_small. lia.
Qed.

(** * The specification, statement by statement *)

(** ** Animated encoding *)

(** C9: the animated-encode entry point throws [NotSupported] whatever it
    is called with and whatever the allocator would answer; it returns no
    buffer.  The same holds for the JavaScript wrapper. *)
Theorem encode_animated_not_supported :
  forall (A : Type) (heap : allocator) (args : A),
    bare_bmp_encode_animated heap args = Throw NotSupported
    /\ encodeAnimated heap = Throw NotSupported
    /\ message NotSupported = "BMP format does not support animation"%string.
Proof. intros A heap args. repeat split. Qed.

(** ** Validation order of the decoder *)

(** C4: the decoder checks, in this order, the length, the magic bytes, the
    DIB header size, the compression and the bit depth, and throws the
    error of the first check that fails: each error below is determined by
    the fields checked so far, whatever the rest of the input holds. *)
Theorem decode_validation_order :
  forall (heap : allocator) (bmp_data : list byte),
    let len := Z.of_nat (length bmp_data) in
    (len < 54 -> bare_bmp_decode heap bmp_data = Throw TooSmall)
    /\ (54 <= len -> take 2 bmp_data <> [x42; x4d] ->
        bare_bmp_decode heap bmp_data = Throw BadMagic)
    /\ (54 <= len -> take 2 bmp_data = [x42; x4d] ->
        forall header_size, read_u32 bmp_data 14 = Ok header_size -> header_size <> 40 ->
        bare_bmp_decode heap bmp_data = Throw UnsupportedHeader)
    /\ (54 <= len -> take 2 bmp_data = [x42; x4d] ->
        read_u32 bmp_data 14 = Ok 40 ->
        forall compression, read_u32 bmp_data 30 = Ok compression -> compression <> 0 ->
        bare_bmp_decode heap bmp_data = Throw UnsupportedCompression)
    /\ (54 <= len -> take 2 bmp_data = [x42; x4d] ->
        read_u32 bmp_data 14 = Ok 40 -> read_u32 bmp_data 30 = Ok 0 ->
        forall bpp, read_u16 bmp_data 28 = Ok bpp -> bpp <> 24 -> bpp <> 32 ->
        bare_bmp_decode heap bmp_data = Throw UnsupportedBitDepth).
Proof.
  intros heap bmp_data len.
  assert (Hsmall : len < 54 -> bare_bmp_decode heap bmp_data = Throw TooSmall).
  { intros H. unfold bare_bmp_decode. fold len.
    change (sizeof_file_header + sizeof_dib_header) with 54.
    destruct (Z.ltb_spec len 54); [reflexivity | lia]. }
  assert (Hlarge : 54 <= len ->
            (len <? sizeof_file_header + sizeof_dib_header) = false).
  { intros H. change (sizeof_file_header + sizeof_dib_header) with 54.
    apply Z.ltb_ge. exact H. }
  assert (Hmagic : 54 <= len -> exists magic, read_u16 bmp_data 0 = Ok magic).
  { intros H. destruct (read_u16_in_bounds bmp_data 0) as (v & E & _); [lia | lia |].
    eauto. }
  split; [exact Hsmall|].
  split; [|split; [|split]].
  - intros Hlen Hne. destruct (Hmagic Hlen) as (magic & E).
    unfold bare_bmp_decode. fold len. rewrite (Hlarge Hlen), E. simpl.
    destruct (Z.eqb_spec magic 0x4D42) as [Heq|Hneq]; [|reflexivity].
    exfalso. apply Hne. apply (read_magic bmp_data magic E). exact Heq.
  - intros Hlen Hbm' header_size Ehs Hne.
    destruct (Hmagic Hlen) as (magic & E).
    assert (magic = 0x4D42) as -> by (apply (read_magic bmp_data magic E); exact Hbm').
    unfold bare_bmp_decode. fold len. rewrite (Hlarge Hlen), E, Ehs. simpl.
    destruct (Z.eqb_spec header_size 40); [contradiction | reflexivity].
  - intros Hlen Hbm' Ehs compression Ec Hne.
    destruct (Hmagic Hlen) as (magic & E).
    assert (magic = 0x4D42) as -> by (apply (read_magic bmp_data magic E); exact Hbm').
    unfold bare_bmp_decode. fold len. rewrite (Hlarge Hlen), E, Ehs, Ec. simpl.
    destruct (Z.eqb_spec compression 0); [contradiction | reflexivity].
  - intros Hlen Hbm' Ehs Ec bpp Eb Hne24 Hne32.
    destruct (Hmagic Hlen) as (magic & E).
    assert (magic = 0x4D42) as -> by (apply (read_magic bmp_data magic E); exact Hbm').
    unfold bare_bmp_decode. fold len. rewrite (Hlarge Hlen), E, Ehs, Ec, Eb. simpl.
    destruct (Z.eqb_spec bpp 24); [contradiction|].
    destruct (Z.eqb_spec bpp 32); [contradiction | reflexivity].
Qed.

(** The order at work: a four-byte input, a header whose second byte is
    "N", and a header that announces a 124-byte DIB header. *)
Lemma decode_validation_order_witness :
  bare_bmp_decode heap_ok (bytes [0x42; 0x4D; 0; 0]) = Throw TooSmall
  /\ bare_bmp_decode heap_ok (<[1%nat := x4e]> (bytes (header 54 1 1 24)))
     = Throw BadMagic
  /\ bare_bmp_decode heap_ok (<[14%nat := x7c]> (bytes (header 54 1 1 24)))
     = Throw UnsupportedHeader.
Proof.
  destruct (decode_validation_order heap_ok (bytes [0x42; 0x4D; 0; 0])) as (H1 & _).
  destruct (decode_validation_order heap_ok
              (<[1%nat := x4e]> (bytes (header 54 1 1 24)))) as (_ & H2 & _).
  destruct (decode_validation_order heap_ok
              (<[14%nat := x7c]> (bytes (header 54 1 1 24)))) as (_ & _ & H3 & _).
  split; [apply H1; vm_compute; reflexivity|].
  split; [apply H2; vm_compute; discriminate|].
  apply (H3 ltac:(vm_compute; discriminate) ltac:(vm_compute; reflexivity) 124);
    [vm_compute; reflexivity | lia].
Defined.

(** ** The pixel-extent check *)

(** C5 (the code departs from the specification): the extent
    [data_offset + row_size * abs_height] is computed in [uint32_t] and
    wraps.  On the 58-byte file [wild_offset_bmp] (data offset 2^32 - 3,
    one 24-bit pixel) the exact extent is 2^32 + 1, far beyond the input,
    yet the value compared with the length is 1: the check passes, no
    [TruncatedData] is thrown, and the pixel is read through a pointer
    2^32 - 3 bytes into a 58-byte buffer.  On [huge_width_bmp] the stride
    itself wraps to 0. *)
Theorem decode_extent_check_wraps :
  Z.of_nat (length wild_offset_bmp) = 58
  /\ accepted_header wild_offset_bmp (2 ^ 32 - 3) 1 1 24
  /\ spec_pixel_extent (2 ^ 32 - 3) 3 1 1 = 2 ^ 32 + 1
  /\ pixel_extent (2 ^ 32 - 3) (row_size 1 3) 1 = 1
  /\ (forall heap, bare_bmp_decode heap wild_offset_bmp <> Throw TruncatedData)
  /\ bare_bmp_decode heap_ok wild_offset_bmp = Undefined
  /\ Z.of_nat (length huge_width_bmp) = 54
  /\ accepted_header huge_width_bmp 54 (2 ^ 30) 1 32
  /\ spec_pixel_extent 54 4 (2 ^ 30) 1 = 54 + 2 ^ 32
  /\ pixel_extent 54 (row_size (2 ^ 30) 4) 1 = 54
  /\ (forall heap, bare_bmp_decode heap huge_width_bmp = Undefined).
Proof.
  assert (H1 : forall heap, bare_bmp_decode heap wild_offset_bmp <> Throw TruncatedData).
  { intros heap. vm_compute. destruct (heap 4%Z); discriminate. }
  assert (H2 : forall heap, bare_bmp_decode heap huge_width_bmp = Undefined).
  { intros heap. vm_compute. reflexivity. }
  assert (A1 : accepted_header wild_offset_bmp (2 ^ 32 - 3) 1 1 24).
  { unfold accepted_header.
    repeat (split; [first [vm_compute; reflexivity | vm_compute; discriminate
                          | left; reflexivity]|]).
    vm_compute. reflexivity. }
  assert (A2 : accepted_header huge_width_bmp 54 (2 ^ 30) 1 32).
  { unfold accepted_header.
    repeat (split; [first [vm_compute; reflexivity | vm_compute; discriminate
                          | right; reflexivity]|]).
    vm_compute. reflexivity. }
  repeat (split; [first [exact H1 | exact A1 | exact A2 | vm_compute; reflexivity]|]).
  exact H2.
Qed.

(** ** The encoder's buffer check *)

(** Where [width * height * 4] is representable, a buffer shorter than that
    is refused. *)
Lemma encode_buffer_too_small (heap : allocator) (w h : Z) (rgba : list byte) :
  - 2 ^ 63 <= w * h < 2 ^ 63 -> w * h * 4 < 2 ^ 63 ->
  Z.of_nat (length rgba) < w * h * 4 ->
  bare_bmp_encode heap (Image w h rgba) = Throw BufferTooSmall.
Proof.
  intros Hwh H4 Hlen. unfold bare_bmp_encode. simpl.
  rewrite (i64_in_range (w * h)) by lia. simpl.
  rewrite (i64_in_range (w * h * 4)) by lia. simpl.
  rewrite u64_small by lia.
  destruct (Z.ltb_spec (Z.of_nat (length rgba)) (w * h * 4)); [reflexivity | lia].
Qed.

(** C8 (the code departs from the specification): the size
    [width * height * 4] is computed in [int64_t].  For width 2^31 and height 2^31 it is 2^64, not
    representable: the comparison with the buffer length is undefined
    behaviour and the empty buffer, shorter than any positive size, is not
    answered with [BufferTooSmall]. *)
Theorem encode_size_check_overflows :
  forall heap : allocator,
    Z.of_nat (length (data (Image (2 ^ 31) (2 ^ 31) []))) < 2 ^ 31 * 2 ^ 31 * 4
    /\ i64 (2 ^ 31 * 2 ^ 31 * 4) = Undefined
    /\ bare_bmp_encode heap (Image (2 ^ 31) (2 ^ 31) []) = Undefined
    /\ bare_bmp_encode heap (Image (2 ^ 31) (2 ^ 31) []) <> Throw BufferTooSmall.
Proof.
  intros heap.
  assert (H : bare_bmp_encode heap (Image (2 ^ 31) (2 ^ 31) []) = Undefined).
  { vm_compute. reflexivity. }
  split; [vm_compute; reflexivity|].
  split; [vm_compute; reflexivity|].
  split; [exact H|]. rewrite H. discriminate.
Qed.

(** ** What the decoder returns *)

(** C2: on success every output pixel is made from the source pixel of
    [bpp / 8] bytes B, G, R (and A): the source pixels of a row lie
    [bpp / 8] bytes apart, the output holds R, G, B, A in that order, and
    the alpha byte is 255 for a 24-bit source and the fourth source byte for
    a 32-bit source. *)
Theorem decode_channel_order :
  forall (heap : allocator) (bmp : list byte) (img : image),
    bare_bmp_decode heap bmp = Ok img ->
    exists bpp,
      read_u16 bmp 28 = Ok bpp /\ (bpp = 24 \/ bpp = 32)
      /\ forall y, 0 <= y < height img ->
         exists row_start,
         forall x, 0 <= x < width img ->
           let s := row_start + x * (bpp / 8) in
           let d := (y * width img + x) * 4 in
           exists b g r a : byte,
             load bmp s = Ok b /\ load bmp (s + 1) = Ok g /\ load bmp (s + 2) = Ok r
             /\ load (data img) d = Ok r
             /\ load (data img) (d + 1) = Ok g
             /\ load (data img) (d + 2) = Ok b
             /\ load (data img) (d + 3) = Ok a
             /\ (bpp = 24 -> a = xff)
             /\ (bpp = 32 -> load bmp (s + 3) = Ok a).
Proof.
  intros heap bmp img H.
  apply decode_pixels in H
    as (data_offset & w & h & bpp & Hacc & Hh & Hw & Hht & Hsz & Hlen & Hpix).
  exists bpp.
  destruct Hacc as (_ & _ & _ & _ & Ebpp & Hbpp & _).
  split; [exact Ebpp|]. split; [exact Hbpp|].
  intros y Hy. rewrite Hht in Hy.
  exists (data_offset + (if h <? 0 then y else Z.abs h - 1 - y) * spec_stride (bpp / 8) w).
  intros x Hx s d. rewrite Hw in Hx.
  destruct (Hpix y x Hy Hx) as (r & g & b & a & Eb & Eg & Er & Ea & D0 & D1 & D2 & D3).
  replace (y * w * 4 + 4 * x) with d in D0, D1, D2, D3 by (unfold d; rewrite Hw; lia).
  exists b, g, r, a. fold s in Eb, Eg, Er, Ea.
  repeat (split; [assumption|]).
  split.
  - intros ->. simpl in Ea. inversion Ea. reflexivity.
  - intros ->. simpl in Ea. exact Ea.
Qed.

(** On the 32-bit sample. *)
Lemma decode_channel_order_witness :
  exists bpp,
    read_u16 sample_1x1_32 28 = Ok bpp /\ (bpp = 24 \/ bpp = 32)
    /\ forall y, 0 <= y < 1 ->
       exists row_start,
       forall x, 0 <= x < 1 ->
         let s := row_start + x * (bpp / 8) in
         let d := (y * 1 + x) * 4 in
         exists b g r a : byte,
           load sample_1x1_32 s = Ok b /\ load sample_1x1_32 (s + 1) = Ok g
           /\ load sample_1x1_32 (s + 2) = Ok r
           /\ load (bytes [30; 20; 10; 0]) d = Ok r
           /\ load (bytes [30; 20; 10; 0]) (d + 1) = Ok g
           /\ load (bytes [30; 20; 10; 0]) (d + 2) = Ok b
           /\ load (bytes [30; 20; 10; 0]) (d + 3) = Ok a
           /\ (bpp = 24 -> a = xff)
           /\ (bpp = 32 -> load sample_1x1_32 (s + 3) = Ok a).
Proof.
  apply (decode_channel_order heap_ok sample_1x1_32 (Image 1 1 (bytes [30; 20; 10; 0]))).
  vm_compute. reflexivity.
Defined.

(** C3: with [h] the signed height field, output row [y] of the
    [|h|] rows is made from source row [y] when [h < 0] (top-down file) and
    from source row [|h| - 1 - y] otherwise, source row [r] being the
    stride-sized slice that starts at [data_offset + r * stride]: the
    returned buffer is top row first either way. *)
Theorem decode_row_order :
  forall (heap : allocator) (bmp : list byte) (img : image),
    bare_bmp_decode heap bmp = Ok img ->
    exists data_offset w h bpp,
      accepted_header bmp data_offset w h bpp
      /\ width img = w /\ height img = Z.abs h
      /\ forall y, 0 <= y < Z.abs h ->
         let top_down := h <? 0 in
         let r := if top_down then y else Z.abs h - 1 - y in
         0 <= r < Z.abs h
         /\ forall x, 0 <= x < w ->
              rgba_from_bgra bmp bpp
                (data_offset + r * spec_stride (bpp / 8) w + x * (bpp / 8))
                (data img) ((y * w + x) * 4).
Proof.
  intros heap bmp img H.
  apply decode_pixels in H
    as (data_offset & w & h & bpp & Hacc & Hh & Hw & Hht & Hsz & Hlen & Hpix).
  exists data_offset, w, h, bpp.
  repeat (split; [assumption|]).
  intros y Hy top_down r.
  split; [unfold r, top_down; destruct (h <? 0); lia|].
  intros x Hx.
  replace ((y * w + x) * 4) with (y * w * 4 + 4 * x) by lia.
  apply Hpix; assumption.
Qed.

(** On the top-down sample. *)
Lemma decode_row_order_witness :
  exists data_offset w h bpp,
    accepted_header sample_2x2_24_top_down data_offset w h bpp
    /\ 2 = w /\ 2 = Z.abs h
    /\ forall y, 0 <= y < Z.abs h ->
       let top_down := h <? 0 in
       let r := if top_down then y else Z.abs h - 1 - y in
       0 <= r < Z.abs h
       /\ forall x, 0 <= x < w ->
            rgba_from_bgra sample_2x2_24_top_down bpp
              (data_offset + r * spec_stride (bpp / 8) w + x * (bpp / 8))
              (bytes [3; 2; 1; 255; 6; 5; 4; 255; 9; 8; 7; 255; 12; 11; 10; 255])
              ((y * w + x) * 4).
Proof.
  apply (decode_row_order heap_ok sample_2x2_24_top_down
           (Image 2 2 (bytes [3; 2; 1; 255; 6; 5; 4; 255; 9; 8; 7; 255; 12; 11; 10; 255]))).
  vm_compute. reflexivity.
Defined.

(** C6 fails as stated: a header that declares width 0 and height 0 passes
    every check, and where [malloc (0)] returns a block the decoder returns
    an image of width 0 and height 0. *)
Lemma decode_empty_image :
  bare_bmp_decode heap_ok empty_image_bmp = Ok (Image 0 0 [])
  /\ ~ (forall heap bmp img,
          bare_bmp_decode heap bmp = Ok img ->
          0 < width img /\ 0 < height img
          /\ Z.of_nat (length (data img)) = width img * height img * 4).
Proof.
  assert (H : bare_bmp_decode heap_ok empty_image_bmp = Ok (Image 0 0 [])).
  { vm_compute. reflexivity. }
  split; [exact H|].
  intros Hall. destruct (Hall _ _ _ H) as [Hw _]. simpl in Hw. lia.
Qed.

(** C6, amended: on success, for a height field other than [-2^31] (whose
    negation at line 99 is not representable) and an output size
    [width * |height| * 4] that fits [int] (line 115), the returned width
    is the width field and the returned height is the absolute value of the
    height field, hence not negative; the returned width is not negative
    when the height is positive; and the buffer has exactly
    [width * height * 4] bytes. *)
Theorem decode_dimensions :
  forall (heap : allocator) (bmp : list byte) (img : image) (w h : Z),
    bare_bmp_decode heap bmp = Ok img ->
    read_i32 bmp 18 = Ok w -> read_i32 bmp 22 = Ok h ->
    h <> - 2 ^ 31 ->
    - 2 ^ 31 <= w * Z.abs h * 4 < 2 ^ 31 ->
    width img = w
    /\ height img = Z.abs h
    /\ 0 <= height img
    /\ (0 < height img -> 0 <= width img)
    /\ Z.of_nat (length (data img)) = width img * height img * 4.
Proof.
  intros heap bmp img w h H Ew Eh _ _.
  apply decode_pixels in H
    as (data_offset & w' & h' & bpp & Hacc & Hh & Hw & Hht & Hsz & Hlen & Hpix).
  destruct Hacc as (_ & _ & _ & _ & _ & _ & Ew' & Eh' & _).
  assert (w' = w) as -> by congruence.
  assert (h' = h) as -> by congruence.
  rewrite Hw, Hht. repeat split; [lia | nia | exact Hlen].
Qed.

(** On the top-down sample. *)
Lemma decode_dimensions_witness :
  2 = 2
  /\ 2 = Z.abs (- 2)
  /\ 0 <= 2
  /\ (0 < 2 -> 0 <= 2)
  /\ Z.of_nat (length (bytes [3; 2; 1; 255; 6; 5; 4; 255; 9; 8; 7; 255; 12; 11; 10; 255]))
     = 2 * 2 * 4.
Proof.
  apply (decode_dimensions heap_ok sample_2x2_24_top_down
           (Image 2 2 (bytes [3; 2; 1; 255; 6; 5; 4; 255; 9; 8; 7; 255; 12; 11; 10; 255]))
           2 (- 2)).
  - vm_compute. reflexivity.
  - vm_compute. reflexivity.
  - vm_compute. reflexivity.
  - lia.
  - lia.
Defined.

(** ** The data offset *)

(** C10 fails as stated: passing the six checks is not enough for the call
    to succeed.  The 1x1 file of the test suite passes them and the call
    throws [AllocationFailure] when [malloc] returns a null pointer; the
    header [huge_width_bmp] passes them (its stride wraps to 0) and the
    output size [width * abs_height * 4] overflows [int]. *)
Lemma decode_accepted_not_decoded :
  (accepted_header red_1x1_24 54 1 1 24
   /\ pixel_extent 54 (row_size 1 (24 / 8)) (Z.abs 1) <= Z.of_nat (length red_1x1_24)
   /\ bare_bmp_decode heap_null red_1x1_24 = Throw AllocationFailure)
  /\ (accepted_header huge_width_bmp 54 (2 ^ 30) 1 32
      /\ pixel_extent 54 (row_size (2 ^ 30) (32 / 8)) (Z.abs 1)
         <= Z.of_nat (length huge_width_bmp)
      /\ forall heap, bare_bmp_decode heap huge_width_bmp = Undefined).
Proof.
  split; split.
  - unfold accepted_header.
    repeat (split; [first [vm_compute; reflexivity | vm_compute; discriminate
                          | left; reflexivity]|]).
    vm_compute. reflexivity.
  - split; [vm_compute; discriminate | vm_compute; reflexivity].
  - unfold accepted_header.
    repeat (split; [first [vm_compute; reflexivity | vm_compute; discriminate
                          | right; reflexivity]|]).
    vm_compute. reflexivity.
  - split; [vm_compute; discriminate | intros heap; vm_compute; reflexivity].
Qed.

(** C10, amended: the decoder puts no lower bound on the data offset.  An
    input that passes the checks on length, magic, header size, compression
    and bit depth, whose height can be negated, whose output size
    [width * |height| * 4] fits [int], whose pixel rows end inside the input
    and whose output block is allocated, is decoded whatever its data
    offset is, below 54 included; the pixels are then read from
    [data_offset] on, header bytes among them. *)
Theorem decode_no_offset_lower_bound :
  forall (heap : allocator) (bmp : list byte) (data_offset w h bpp : Z) (junk : byte),
    accepted_header bmp data_offset w h bpp ->
    - 2 ^ 31 < h ->
    0 <= w * Z.abs h * 4 < 2 ^ 31 ->
    data_offset + spec_stride (bpp / 8) w * Z.abs h <= Z.of_nat (length bmp) ->
    heap (w * Z.abs h * 4) = Some junk ->
    exists img,
      bare_bmp_decode heap bmp = Ok img
      /\ width img = w /\ height img = Z.abs h
      /\ forall y x, 0 <= y < Z.abs h -> 0 <= x < w ->
           rgba_from_bgra bmp bpp
             (data_offset
              + (if h <? 0 then y else Z.abs h - 1 - y) * spec_stride (bpp / 8) w
              + x * (bpp / 8))
             (data img) ((y * w + x) * 4).
Proof.
  intros heap bmp data_offset w h bpp junk Hacc Hh Hsz Hext Hheap.
  assert (Hext' : data_offset + row_size w (bpp / 8) * Z.abs h <= Z.of_nat (length bmp)).
  { destruct (Z.eq_dec (Z.abs h) 0) as [E|Hne]; [rewrite E in *; lia|].
    assert (Hb : bpp / 8 = 3 \/ bpp / 8 = 4).
    { destruct Hacc as (_ & _ & _ & _ & _ & [-> | ->] & _); [left | right]; reflexivity. }
    remember (bpp / 8) as B eqn:EB. clear EB.
    rewrite row_size_spec_stride by (destruct Hb; nia).
    exact Hext. }
  destruct (decode_total heap bmp data_offset w h bpp junk Hacc Hh Hsz Hext' Hheap)
    as (img & Himg & Hw & Hht).
  exists img. repeat (split; [assumption|]).
  destruct (decode_pixels heap bmp img Himg)
    as (data_offset' & w' & h' & bpp' & Hacc' & _ & Hw' & _ & _ & _ & Hpix).
  destruct Hacc as (_ & _ & _ & _ & Ebpp & _ & Ew & Eh & Eoff).
  destruct Hacc' as (_ & _ & _ & _ & Ebpp' & _ & Ew' & Eh' & Eoff').
  assert (bpp' = bpp) as -> by congruence.
  assert (w' = w) as -> by congruence.
  assert (h' = h) as -> by congruence.
  assert (data_offset' = data_offset) as -> by congruence.
  intros y x Hy Hx.
  replace ((y * w + x) * 4) with (y * w * 4 + 4 * x) by lia.
  apply Hpix; assumption.
Qed.

(** On a file whose data offset is 0. *)
Lemma decode_no_offset_lower_bound_witness :
  exists img,
    bare_bmp_decode heap_ok overlapping_bmp = Ok img
    /\ width img = 1 /\ height img = Z.abs 1
    /\ forall y x, 0 <= y < Z.abs 1 -> 0 <= x < 1 ->
         rgba_from_bgra overlapping_bmp 24
           (0 + (if 1 <? 0 then y else Z.abs 1 - 1 - y) * spec_stride (24 / 8) 1
            + x * (24 / 8))
           (data img) ((y * 1 + x) * 4).
Proof.
  apply (decode_no_offset_lower_bound heap_ok overlapping_bmp 0 1 1 24 xaa).
  - unfold accepted_header.
    repeat (split; [first [vm_compute; reflexivity | vm_compute; discriminate
                          | left; reflexivity]|]).
    vm_compute. reflexivity.
  - lia.
  - vm_compute. split; [discriminate | reflexivity].
  - vm_compute. discriminate.
  - reflexivity.
Defined.

(** The pixel of [overlapping_bmp] is made of the first three bytes of the
    file: "B", "M" and the low byte of the file size. *)
Example decode_overlapping_bmp :
  bare_bmp_decode heap_ok overlapping_bmp = Ok (Image 1 1 (bytes [58; 0x4D; 0x42; 255])).
Proof. vm_compute. reflexivity. Qed.

(** ** The round trip *)

(** The loss that the round trip has: the decoder keeps the alpha of a
    32-bit source and the encoder drops it.  The pixel of [sample_1x1_32]
    decodes to alpha 0 and, after encoding and decoding again, to alpha
    255, with the same R, G and B. *)
Lemma roundtrip_changes_alpha :
  exists img out img',
    bare_bmp_decode heap_ok sample_1x1_32 = Ok img
    /\ bare_bmp_encode heap_ok img = Ok out
    /\ bare_bmp_decode heap_ok out = Ok img'
    /\ data img = bytes [30; 20; 10; 0]
    /\ data img' = bytes [30; 20; 10; 255]
    /\ data img' <> data img.
Proof.
  exists (Image 1 1 (bytes [30; 20; 10; 0])).
  exists (bytes (header_full 58 54 1 1 24 4 2835 ++ [10; 20; 30; 0])).
  exists (Image 1 1 (bytes [30; 20; 10; 255])).
  repeat split; try (vm_compute; reflexivity).
  vm_compute. discriminate.
Qed.



(** ** What the encoder returns *)

(** C7 fails as stated: positive dimensions and a large enough buffer are
    not enough for the call to return a file.  With the red pixel of the
    test suite the call throws [AllocationFailure] when [malloc] returns a
    null pointer; and for a 1 by 2^30 image with its 2^32 bytes of pixels the
    file size, kept in a [uint32_t], wraps to 54 and the first pixel is
    stored outside the block. *)
Lemma encode_not_always_a_file :
  (0 < width (Image 1 1 (bytes [255; 0; 0; 255]))
   /\ 0 < height (Image 1 1 (bytes [255; 0; 0; 255]))
   /\ 1 * 1 * 4 <= Z.of_nat (length (data (Image 1 1 (bytes [255; 0; 0; 255]))))
   /\ bare_bmp_encode heap_null (Image 1 1 (bytes [255; 0; 0; 255]))
      = Throw AllocationFailure)
  /\ (1 * 2 ^ 30 * 4 <= Z.of_nat (length (replicate (Z.to_nat (2 ^ 32)) x00))
      /\ bare_bmp_encode heap_ok (Image 1 (2 ^ 30) (replicate (Z.to_nat (2 ^ 32)) x00))
         = Undefined).
Proof.
  split.
  - split; [vm_compute; reflexivity|]. split; [vm_compute; reflexivity|].
    split; [vm_compute; discriminate | vm_compute; reflexivity].
  - split.
    + rewrite length_replicate. lia.
    + apply (encode_file_size_wraps heap_ok _ xaa); [|reflexivity].
      rewrite length_replicate. lia.
Qed.

(** C7, amended: for positive width and height, a buffer of at least
    [width * height * 4] bytes, a file size [54 + stride * height] below
    2^32 and a served allocation, [encode] returns exactly that many bytes,
    with [stride = ceil (width * 3 / 4) * 4] (4 for width 1, 12 for width
    4): the file header holds "BM", the file size, two zero reserved
    fields and data offset 54; the DIB header holds size 40, the width, the
    positive height, 1 plane, 24 bits per pixel, compression 0, image size
    [stride * height], 2835 for both resolutions and zero palette fields;
    source row [y] is stored at row [height - 1 - y] as B, G, R with the
    alpha dropped, and the bytes that pad each row are zero. *)
Theorem encode_layout :
  forall (heap : allocator) (w h : Z) (rgba : list byte) (junk : byte),
    let stride := spec_stride 3 w in
    0 < w -> 0 < h ->
    w * h * 4 <= Z.of_nat (length rgba) ->
    54 + stride * h < 2 ^ 32 ->
    heap (54 + stride * h) = Some junk ->
    spec_stride 3 1 = 4 /\ spec_stride 3 4 = 12
    /\ exists out,
         bare_bmp_encode heap (Image w h rgba) = Ok out
         /\ Z.of_nat (length out) = 54 + stride * h
         /\ take 2 out = [x42; x4d]
         /\ read_u32 out 2 = Ok (54 + stride * h)
         /\ read_u16 out 6 = Ok 0
         /\ read_u16 out 8 = Ok 0
         /\ read_u32 out 10 = Ok 54
         /\ read_u32 out 14 = Ok 40
         /\ read_i32 out 18 = Ok w
         /\ read_i32 out 22 = Ok h
         /\ read_u16 out 26 = Ok 1
         /\ read_u16 out 28 = Ok 24
         /\ read_u32 out 30 = Ok 0
         /\ read_u32 out 34 = Ok (stride * h)
         /\ read_i32 out 38 = Ok 2835
         /\ read_i32 out 42 = Ok 2835
         /\ read_u32 out 46 = Ok 0
         /\ read_u32 out 50 = Ok 0
         /\ (forall y x, 0 <= y < h -> 0 <= x < w ->
               bgr_from_rgba rgba ((y * w + x) * 4) out
                 (54 + (h - 1 - y) * stride + 3 * x))
         /\ (forall r k, 0 <= r < h -> 3 * w <= k < stride ->
               load out (54 + r * stride + k) = Ok x00).
Proof.
  intros heap w h rgba junk stride Hw Hh Hlen Hfs Hheap.
  split; [reflexivity|]. split; [reflexivity|].
  destruct (spec_stride_bounds 3 w ltac:(lia) ltac:(auto)) as (_ & Hb & _).
  fold stride in Hb.
  assert (Hsh : stride <= stride * h /\ 3 * h <= stride * h) by nia.
  destruct (encode_total heap w h rgba junk) as (out & Eout & Hl & Hhdr & Hpix & Hpad);
    try assumption; try lia.
  destruct (encoded_header_fields w h out) as
    (F0 & F2 & F6 & F8 & F10 & F14 & F18 & F22 & F26 & F28 & F30 & F34 & F38 & F42
     & F46 & F50); try assumption; try lia.
  exists out.
  split; [exact Eout|]. split; [exact Hl|].
  split; [apply (read_magic out 0x4D42 F0); reflexivity|].
  repeat (split; [assumption|]).
  split; [|exact Hpad].
  intros y x Hy Hx.
  replace ((y * w + x) * 4) with (y * w * 4 + 4 * x) by lia.
  apply Hpix; assumption.
Qed.

(** On the red pixel of the test suite. *)
Lemma encode_layout_witness :
  exists out,
    bare_bmp_encode heap_ok (Image 1 1 (bytes [255; 0; 0; 255])) = Ok out
    /\ Z.of_nat (length out) = 58
    /\ take 2 out = [x42; x4d]
    /\ read_u16 out 28 = Ok 24.
Proof.
  destruct (encode_layout heap_ok 1 1 (bytes [255; 0; 0; 255]) xaa)
    as (_ & _ & out & H1 & H2 & H3 & _ & _ & _ & _ & _ & _ & _ & _ & H4 & _).
  - lia.
  - lia.
  - vm_compute. discriminate.
  - vm_compute. reflexivity.
  - reflexivity.
  - exists out. split; [exact H1|]. split; [exact H2|]. split; [exact H3 | exact H4].
Defined.

(** * Further properties of the codec *)

(** ** The decoder, check by check *)

(** After the five format checks (lines 97-169). *)
Lemma decode_checked (heap : allocator) (bmp : list byte) (data_offset w h bpp : Z) :
  accepted_header bmp data_offset w h bpp -> - 2 ^ 31 < h ->
  bare_bmp_decode heap bmp
  = if pixel_extent data_offset (row_size w (bpp / 8)) (Z.abs h) >? Z.of_nat (length bmp)
    then Throw TruncatedData
    else
      let* wh := i32 (w * Z.abs h) in
      let* size := i32 (wh * 4) in
      match malloc heap (u64 size) with
      | None => Throw AllocationFailure
      | Some rgba =>
          let* rgba :=
            for_i32 (Z.to_nat (Z.abs h)) 0
              (decode_row bmp data_offset w (Z.abs h) (h <? 0) bpp (bpp / 8)
                 (row_size w (bpp / 8))) rgba in
          Ok {| width := w; height := Z.abs h; data := rgba |}
      end.
Proof.
  intros (Hlen & Emagic & Ehs & Ecomp & Ebpp & Hbpp & Ew & Eh & Eoff) Hh.
  pose proof (read_i32_range _ _ _ Eh) as Hhr.
  unfold bare_bmp_decode. cbv zeta.
  change (sizeof_file_header + sizeof_dib_header) with 54.
  destruct (Z.ltb_spec (Z.of_nat (length bmp)) 54) as [|_]; [lia|].
  rewrite Emagic. cbn [bind]. change (negb (19778 =? 19778)) with false. cbv iota.
  rewrite Ehs. cbn [bind]. change (negb (40 =? 40)) with false. cbv iota.
  rewrite Ecomp. cbn [bind]. change (negb (0 =? 0)) with false. cbv iota.
  rewrite Ebpp. cbn [bind].
  replace (negb (bpp =? 24) && negb (bpp =? 32)) with false
    by (destruct Hbpp as [-> | ->]; reflexivity).
  rewrite Ew. cbn [bind]. rewrite Eh. cbn [bind].
  assert (Ea : (if h <? 0 then i32 (- h) else Ok h) = Ok (Z.abs h)).
  { destruct (Z.ltb_spec h 0).
    - rewrite i32_in_range by lia. f_equal. lia.
    - f_equal. lia. }
  rewrite Ea. cbn [bind]. rewrite Eoff. cbn [bind]. reflexivity.
Qed.

(** The height field [-2^31] cannot be negated. *)
Lemma decode_min_height (heap : allocator) (bmp : list byte) (data_offset w bpp : Z) :
  accepted_header bmp data_offset w (- 2 ^ 31) bpp ->
  bare_bmp_decode heap bmp = Undefined.
Proof.
  intros (Hlen & Emagic & Ehs & Ecomp & Ebpp & Hbpp & Ew & Eh & Eoff).
  unfold bare_bmp_decode. cbv zeta.
  change (sizeof_file_header + sizeof_dib_header) with 54.
  destruct (Z.ltb_spec (Z.of_nat (length bmp)) 54) as [|_]; [lia|].
  rewrite Emagic. cbn [bind]. change (negb (19778 =? 19778)) with false. cbv iota.
  rewrite Ehs. cbn [bind]. change (negb (40 =? 40)) with false. cbv iota.
  rewrite Ecomp. cbn [bind]. change (negb (0 =? 0)) with false. cbv iota.
  rewrite Ebpp. cbn [bind].
  replace (negb (bpp =? 24) && negb (bpp =? 32)) with false
    by (destruct Hbpp as [-> | ->]; reflexivity).
  rewrite Ew. cbn [bind]. rewrite Eh. cbn [bind]. reflexivity.
Qed.

(** What a call on an accepted header can end in. *)
Lemma decode_accepted_outcome (heap : allocator) (bmp : list byte)
    (data_offset w h bpp : Z) :
  accepted_header bmp data_offset w h bpp ->
  bare_bmp_decode heap bmp = Throw TruncatedData
  \/ bare_bmp_decode heap bmp = Throw AllocationFailure
  \/ bare_bmp_decode heap bmp = Undefined
  \/ exists img, bare_bmp_decode heap bmp = Ok img.
Proof.
  intros Hacc.
  assert (Hhr : - 2 ^ 31 <= h < 2 ^ 31).
  { destruct Hacc as (_ & _ & _ & _ & _ & _ & _ & Eh & _).
    exact (read_i32_range _ _ _ Eh). }
  destruct (Z.eq_dec h (- 2 ^ 31)) as [->|Hne].
  { right. right. left. exact (decode_min_height heap bmp data_offset w bpp Hacc). }
  rewrite (decode_checked heap bmp data_offset w h bpp Hacc ltac:(lia)).
  destruct (_ >? _); [left; reflexivity|].
  destruct (i32 (w * Z.abs h)) as [wh| e |] eqn:E1; cbn [bind];
    [|exfalso; exact (i32_no_throw _ _ E1) | auto].
  destruct (i32 (wh * 4)) as [size| e |] eqn:E2; cbn [bind];
    [|exfalso; exact (i32_no_throw _ _ E2) | auto].
  destruct (malloc heap (u64 size)) as [rgba|]; [|auto].
  destruct (for_i32 _ _ _ rgba) as [out| e |] eqn:E3; cbn [bind].
  - right. right. right. eauto.
  - exfalso. exact (decode_rows_no_throw _ _ _ _ _ _ _ _ _ _ _ E3).
  - auto.
Qed.

(** The five format checks, as a case analysis of the input. *)
Lemma decode_header_cases (heap : allocator) (bmp : list byte) :
  let len := Z.of_nat (length bmp) in
  (len < 54 /\ bare_bmp_decode heap bmp = Throw TooSmall)
  \/ (54 <= len /\ take 2 bmp <> [x42; x4d]
      /\ bare_bmp_decode heap bmp = Throw BadMagic)
  \/ (54 <= len /\ take 2 bmp = [x42; x4d]
      /\ (exists hs, read_u32 bmp 14 = Ok hs /\ hs <> 40)
      /\ bare_bmp_decode heap bmp = Throw UnsupportedHeader)
  \/ (54 <= len /\ take 2 bmp = [x42; x4d] /\ read_u32 bmp 14 = Ok 40
      /\ (exists c, read_u32 bmp 30 = Ok c /\ c <> 0)
      /\ bare_bmp_decode heap bmp = Throw UnsupportedCompression)
  \/ (54 <= len /\ take 2 bmp = [x42; x4d] /\ read_u32 bmp 14 = Ok 40
      /\ read_u32 bmp 30 = Ok 0
      /\ (exists bpp, read_u16 bmp 28 = Ok bpp /\ bpp <> 24 /\ bpp <> 32)
      /\ bare_bmp_decode heap bmp = Throw UnsupportedBitDepth)
  \/ (exists data_offset w h bpp, accepted_header bmp data_offset w h bpp).
Proof.
  intros len.
  destruct (Z.lt_ge_cases len 54) as [Hlt|Hge].
  { left. split; [exact Hlt|].
    unfold bare_bmp_decode. fold len.
    change (sizeof_file_header + sizeof_dib_header) with 54.
    destruct (Z.ltb_spec len 54); [reflexivity | lia]. }
  right.
  assert (Hl : (len <? sizeof_file_header + sizeof_dib_header) = false).
  { change (sizeof_file_header + sizeof_dib_header) with 54. apply Z.ltb_ge. lia. }
  destruct (read_u16_in_bounds bmp 0) as (magic & Em & _); [lia | fold len; lia |].
  destruct (read_u32_in_bounds bmp 14) as (hs & Ehs & _); [lia | fold len; lia |].
  destruct (read_u32_in_bounds bmp 30) as (c & Ec & _); [lia | fold len; lia |].
  destruct (read_u16_in_bounds bmp 28) as (bpp & Eb & _); [lia | fold len; lia |].
  destruct (read_i32_in_bounds bmp 18) as (w & Ew & _); [lia | fold len; lia |].
  destruct (read_i32_in_bounds bmp 22) as (h & Eh & _); [lia | fold len; lia |].
  destruct (read_u32_in_bounds bmp 10) as (off & Eo & _); [lia | fold len; lia |].
  pose proof (read_magic bmp magic Em) as Hm.
  destruct (Z.eq_dec magic 0x4D42) as [->|Hne].
  2:{ left. split; [lia|]. split; [intros Ht; apply Hne, Hm, Ht|].
      unfold bare_bmp_decode. fold len. rewrite Hl, Em. cbn [bind].
      destruct (Z.eqb_spec magic 0x4D42); [contradiction | reflexivity]. }
  right.
  assert (Hbm : take 2 bmp = [x42; x4d]) by (apply Hm; reflexivity).
  destruct (Z.eq_dec hs 40) as [->|Hne].
  2:{ left. split; [lia|]. split; [exact Hbm|]. split; [eauto|].
      unfold bare_bmp_decode. fold len. rewrite Hl, Em. cbn [bind].
      change (negb (19778 =? 19778)) with false. cbv iota. rewrite Ehs. cbn [bind].
      destruct (Z.eqb_spec hs 40); [contradiction | reflexivity]. }
  right.
  destruct (Z.eq_dec c 0) as [->|Hne].
  2:{ left. split; [lia|]. split; [exact Hbm|]. split; [exact Ehs|]. split; [eauto|].
      unfold bare_bmp_decode. fold len. rewrite Hl, Em. cbn [bind].
      change (negb (19778 =? 19778)) with false. cbv iota. rewrite Ehs. cbn [bind].
      change (negb (40 =? 40)) with false. cbv iota. rewrite Ec. cbn [bind].
      destruct (Z.eqb_spec c 0); [contradiction | reflexivity]. }
  right.
  destruct (Z.eq_dec bpp 24) as [->|Hne24].
  { right. exists off, w, h, 24. unfold accepted_header. fold len. auto 12. }
  destruct (Z.eq_dec bpp 32) as [->|Hne32].
  { right. exists off, w, h, 32. unfold accepted_header. fold len. auto 12. }
  left. split; [lia|]. split; [exact Hbm|]. split; [exact Ehs|]. split; [exact Ec|].
  split; [eauto|].
  unfold bare_bmp_decode. fold len. rewrite Hl, Em. cbn [bind].
  change (negb (19778 =? 19778)) with false. cbv iota. rewrite Ehs. cbn [bind].
  change (negb (40 =? 40)) with false. cbv iota. rewrite Ec. cbn [bind].
  change (negb (0 =? 0)) with false. cbv iota. rewrite Eb. cbn [bind].
  destruct (Z.eqb_spec bpp 24); [contradiction|].
  destruct (Z.eqb_spec bpp 32); [contradiction | reflexivity].
Qed.

(** What a throwing call of the encoder went through. *)
Lemma encode_throw_inv (heap : allocator) (w h : Z) (rgba : list byte) (e : error) :
  bare_bmp_encode heap (Image w h rgba) = Throw e ->
  (e = BufferTooSmall
   /\ - 2 ^ 63 <= w * h < 2 ^ 63 /\ - 2 ^ 63 <= w * h * 4 < 2 ^ 63
   /\ Z.of_nat (length rgba) < u64 (w * h * 4))
  \/ e = AllocationFailure.
Proof.
  unfold bare_bmp_encode. cbv zeta. simpl width. simpl height. simpl data. intros H.
  destruct (i64 (w * h)) as [wh| |] eqn:E1; cbn [bind] in H;
    [|exfalso; exact (i64_no_throw _ _ E1) | discriminate].
  apply i64_Ok in E1 as [-> Hwh].
  destruct (i64 (w * h * 4)) as [need| |] eqn:E2; cbn [bind] in H;
    [|exfalso; exact (i64_no_throw _ _ E2) | discriminate].
  apply i64_Ok in E2 as [-> Hneed].
  destruct (Z.ltb_spec (Z.of_nat (length rgba)) (u64 (w * h * 4))) as [Hlt|_].
  { left. inversion H. auto. }
  repeat match type of H with
  | bind (i64 ?z) _ = Throw _ =>
      let E := fresh "E" in
      destruct (i64 z) eqn:E; cbn [bind] in H;
      [|exfalso; exact (i64_no_throw _ _ E) | discriminate]
  end.
  destruct (malloc heap _) as [bmp|]; [|right; inversion H; reflexivity].
  exfalso. revert H.
  repeat (apply no_throw_bind;
          [first [apply write_u16_no_throw | apply write_u32_no_throw
                 | apply read_u32_no_throw] | intros ?]).
  apply for_i32_no_throw. intros ? ?. apply encode_row_no_throw.
Qed.

(** ** Which errors, and when *)

(** Closes one direction of one case of a statement about which error is
    thrown. *)
Ltac decode_error_case :=
  repeat match goal with
         | H : _ /\ _ |- _ => destruct H
         end;
  first [discriminate | lia | tauto | congruence | reflexivity].

(** X1: each of the five format errors of the decoder is thrown exactly on
    the inputs that fail its check after passing the earlier ones: the
    error tells which check failed. *)
Theorem decode_format_errors :
  forall (heap : allocator) (bmp : list byte),
    let len := Z.of_nat (length bmp) in
    (bare_bmp_decode heap bmp = Throw TooSmall <-> len < 54)
    /\ (bare_bmp_decode heap bmp = Throw BadMagic
        <-> 54 <= len /\ take 2 bmp <> [x42; x4d])
    /\ (bare_bmp_decode heap bmp = Throw UnsupportedHeader
        <-> 54 <= len /\ take 2 bmp = [x42; x4d] /\ read_u32 bmp 14 <> Ok 40)
    /\ (bare_bmp_decode heap bmp = Throw UnsupportedCompression
        <-> 54 <= len /\ take 2 bmp = [x42; x4d] /\ read_u32 bmp 14 = Ok 40
            /\ read_u32 bmp 30 <> Ok 0)
    /\ (bare_bmp_decode heap bmp = Throw UnsupportedBitDepth
        <-> 54 <= len /\ take 2 bmp = [x42; x4d] /\ read_u32 bmp 14 = Ok 40
            /\ read_u32 bmp 30 = Ok 0
            /\ read_u16 bmp 28 <> Ok 24 /\ read_u16 bmp 28 <> Ok 32).
Proof.
  intros heap bmp len.
  assert (Hacc : forall data_offset w h bpp,
            accepted_header bmp data_offset w h bpp ->
            54 <= len /\ take 2 bmp = [x42; x4d] /\ read_u32 bmp 14 = Ok 40
            /\ read_u32 bmp 30 = Ok 0
            /\ (read_u16 bmp 28 = Ok 24 \/ read_u16 bmp 28 = Ok 32)
            /\ forall e, bare_bmp_decode heap bmp = Throw e ->
                         e = TruncatedData \/ e = AllocationFailure).
  { intros data_offset w h bpp Hacc.
    pose proof (decode_accepted_outcome heap bmp data_offset w h bpp Hacc) as Hout.
    destruct Hacc as (Hlen & Em & Ehs & Ec & Eb & Hb & _).
    split; [exact Hlen|].
    split; [apply (read_magic bmp _ Em); reflexivity|].
    split; [exact Ehs|]. split; [exact Ec|].
    split; [destruct Hb as [-> | ->]; auto|].
    intros e He. rewrite He in Hout.
    destruct Hout as [H | [H | [H | [img H]]]]; inversion H; auto. }
  pose proof (decode_header_cases heap bmp) as Hcases. cbv zeta in Hcases. fold len in Hcases.
  destruct Hcases as
    [ [H1 E] | [ (H1 & H2 & E) | [ (H1 & H2 & (hs & H3 & H3') & E)
    | [ (H1 & H2 & H3 & (c & H4 & H4') & E)
    | [ (H1 & H2 & H3 & H4 & (bpp & H5 & H5' & H5'') & E)
    | (data_offset & w & h & bpp & Ha) ] ] ] ] ].
  - rewrite E. repeat split; intros; decode_error_case.
  - rewrite E. repeat split; intros; decode_error_case.
  - rewrite E. repeat split; intros; decode_error_case.
  - rewrite E. repeat split; intros; decode_error_case.
  - rewrite E. repeat split; intros; decode_error_case.
  - destruct (Hacc _ _ _ _ Ha) as (G1 & G2 & G3 & G4 & G5 & G6).
    repeat split; intros;
      try (match goal with
           | H : bare_bmp_decode _ _ = Throw _ |- _ =>
               destruct (G6 _ H); discriminate
           end);
      try lia; try tauto; try congruence.
    all: exfalso; destruct G5; tauto.
Qed.

(** X2: the decoder throws nothing but its five format errors,
    [TruncatedData] and [AllocationFailure]; the encoder throws nothing but
    [BufferTooSmall] and [AllocationFailure]. *)
Theorem thrown_errors :
  forall heap : allocator,
    (forall bmp e,
       bare_bmp_decode heap bmp = Throw e ->
       In e [TooSmall; BadMagic; UnsupportedHeader; UnsupportedCompression;
             UnsupportedBitDepth; TruncatedData; AllocationFailure])
    /\ (forall rgba_obj e,
          bare_bmp_encode heap rgba_obj = Throw e ->
          In e [BufferTooSmall; AllocationFailure]).
Proof.
  intros heap. split.
  - intros bmp e He.
    pose proof (decode_header_cases heap bmp) as Hcases. cbv zeta in Hcases.
    destruct Hcases as
      [ [_ E] | [ (_ & _ & E) | [ (_ & _ & _ & E) | [ (_ & _ & _ & _ & E)
      | [ (_ & _ & _ & _ & _ & E) | (data_offset & w & h & bpp & Ha) ] ] ] ] ];
      try (rewrite E in He; inversion He; simpl; tauto).
    destruct (decode_accepted_outcome heap bmp data_offset w h bpp Ha)
      as [H | [H | [H | [img H]]]]; rewrite H in He; inversion He; simpl; tauto.
  - intros [w h rgba] e He.
    destruct (encode_throw_inv heap w h rgba e He) as [[-> _] | ->]; simpl; tauto.
Qed.

(** X3: where [width * height] and [width * height * 4] fit [int64_t] (and
    the buffer is shorter than 2^63 bytes), the encoder throws
    [BufferTooSmall] exactly when the size [width * height * 4] is negative
    or exceeds the buffer length. *)
Theorem encode_buffer_too_small_iff :
  forall (heap : allocator) (w h : Z) (rgba : list byte),
    - 2 ^ 63 <= w * h < 2 ^ 63 -> - 2 ^ 63 <= w * h * 4 < 2 ^ 63 ->
    Z.of_nat (length rgba) < 2 ^ 63 ->
    (bare_bmp_encode heap (Image w h rgba) = Throw BufferTooSmall
     <-> w * h * 4 < 0 \/ Z.of_nat (length rgba) < w * h * 4).
Proof.
  intros heap w h rgba Hwh Hneed Hlen.
  assert (Hu : Z.of_nat (length rgba) < u64 (w * h * 4)
               <-> w * h * 4 < 0 \/ Z.of_nat (length rgba) < w * h * 4).
  { destruct (Z.lt_ge_cases (w * h * 4) 0).
    - rewrite u64_negative by lia. lia.
    - rewrite u64_small by lia. lia. }
  split.
  - intros He. apply encode_throw_inv in He as [(_ & _ & _ & Hlt) | He];
      [apply Hu; exact Hlt | discriminate].
  - intros Hc. apply Hu in Hc.
    unfold bare_bmp_encode. simpl.
    rewrite (i64_in_range (w * h)) by lia. cbn [bind].
    rewrite (i64_in_range (w * h * 4)) by lia. cbn [bind].
    destruct (Z.ltb_spec (Z.of_nat (length rgba)) (u64 (w * h * 4))); [reflexivity | lia].
Qed.

(** A 1 by -1 image: refused however long the buffer is. *)
Lemma encode_buffer_too_small_iff_witness :
  bare_bmp_encode heap_ok (Image 1 (-1) (bytes [255; 0; 0; 255])) = Throw BufferTooSmall
  <-> 1 * -1 * 4 < 0 \/ Z.of_nat (length (bytes [255; 0; 0; 255])) < 1 * -1 * 4.
Proof.
  apply (encode_buffer_too_small_iff heap_ok 1 (-1) (bytes [255; 0; 0; 255])).
  - lia.
  - lia.
  - vm_compute. reflexivity.
Defined.

(** X4: for an input that passes the format checks, with a width that is
    not negative and an exact pixel extent [data_offset + stride * |height|]
    below 2^32, the decoder throws [TruncatedData] exactly when that extent
    exceeds the input length. *)
Theorem decode_truncated_exact :
  forall (heap : allocator) (bmp : list byte) (data_offset w h bpp : Z),
    accepted_header bmp data_offset w h bpp ->
    - 2 ^ 31 < h -> 0 <= w ->
    spec_pixel_extent data_offset (bpp / 8) w h < 2 ^ 32 ->
    (bare_bmp_decode heap bmp = Throw TruncatedData
     <-> spec_pixel_extent data_offset (bpp / 8) w h > Z.of_nat (length bmp)).
Proof.
  intros heap bmp data_offset w h bpp Hacc Hh Hw Hext.
  rewrite (decode_truncated heap bmp data_offset w h bpp Hacc Hh).
  assert (Hb : bpp / 8 = 3 \/ bpp / 8 = 4).
  { destruct Hacc as (_ & _ & _ & _ & _ & [-> | ->] & _); [left | right]; reflexivity. }
  assert (Hoff : 0 <= data_offset).
  { destruct Hacc as (_ & _ & _ & _ & _ & _ & _ & _ & Eo).
    apply read_u32_range in Eo. lia. }
  assert (Hhr : h < 2 ^ 31).
  { destruct Hacc as (_ & _ & _ & _ & _ & _ & _ & Eh & _).
    apply read_i32_range in Eh. lia. }
  rewrite pixel_extent_exact by (try assumption; lia).
  reflexivity.
Qed.

(** The red pixel of the test suite without its last two bytes. *)
Lemma decode_truncated_exact_witness :
  bare_bmp_decode heap_ok (bytes (header 54 1 1 24 ++ [0; 0])) = Throw TruncatedData
  <-> spec_pixel_extent 54 (24 / 8) 1 1
      > Z.of_nat (length (bytes (header 54 1 1 24 ++ [0; 0]))).
Proof.
  apply (decode_truncated_exact heap_ok (bytes (header 54 1 1 24 ++ [0; 0])) 54 1 1 24).
  - unfold accepted_header.
    repeat (split; [first [vm_compute; reflexivity | vm_compute; discriminate
                          | left; reflexivity]|]).
    vm_compute. reflexivity.
  - lia.
  - lia.
  - vm_compute. reflexivity.
Defined.

(** ** The allocator *)

(** X5: an error of the decoder other than [AllocationFailure] does not
    depend on the allocator: the same input gives the same error whatever
    [malloc] would answer. *)
Theorem decode_error_ignores_allocator :
  forall (heap heap' : allocator) (bmp : list byte) (e : error),
    bare_bmp_decode heap bmp = Throw e -> e <> AllocationFailure ->
    bare_bmp_decode heap' bmp = Throw e.
Proof. exact decode_rejects_before_allocating. Qed.

Lemma decode_error_ignores_allocator_witness :
  bare_bmp_decode heap_null (bytes (header 54 1 1 24 ++ [0; 0])) = Throw TruncatedData.
Proof.
  apply (decode_error_ignores_allocator heap_ok heap_null).
  - vm_compute. reflexivity.
  - discriminate.
Defined.

(** X6: the same for the encoder: [BufferTooSmall] is thrown whatever the
    allocator would answer. *)
Theorem encode_error_ignores_allocator :
  forall (heap heap' : allocator) (rgba_obj : image) (e : error),
    bare_bmp_encode heap rgba_obj = Throw e -> e <> AllocationFailure ->
    bare_bmp_encode heap' rgba_obj = Throw e.
Proof. exact encode_rejects_before_allocating. Qed.

Lemma encode_error_ignores_allocator_witness :
  bare_bmp_encode heap_null (Image 2 2 (bytes [255; 0; 0; 255])) = Throw BufferTooSmall.
Proof.
  apply (encode_error_ignores_allocator heap_ok heap_null).
  - vm_compute. reflexivity.
  - discriminate.
Defined.

(** ** Comparing two runs of a loop *)

Section TwoLoops.

Context {S T : Type} (R : S -> T -> Prop).
Context (body : Z -> S -> outcome S) (body' : Z -> T -> outcome T).

(** Bodies that carry a relation from success to success make the loops do
    so. *)
Lemma for_i32_rel :
  (forall j s t s', R s t -> body j s = Ok s' ->
                    exists t', body' j t = Ok t' /\ R s' t') ->
  forall (n : nat) (i : Z) (s : S) (t : T) (s' : S),
    R s t -> for_i32 n i body s = Ok s' ->
    exists t', for_i32 n i body' t = Ok t' /\ R s' t'.
Proof.
  intros Hstep. induction n as [|n IH]; intros i s t s' HR Hrun.
  - simpl in Hrun. inversion Hrun; subst. exists t. split; [reflexivity | exact HR].
  - simpl in Hrun. do 2 bind_inv Hrun.
    destruct (Hstep i s t v HR E) as (t1 & Et1 & HR1).
    destruct (IH v0 v t1 s' HR1 Hrun) as (t' & Et' & HR').
    exists t'. split; [|exact HR']. simpl. rewrite Et1. cbn [bind].
    rewrite E0. cbn [bind]. exact Et'.
Qed.

End TwoLoops.

(** Bodies that agree on the states a loop goes through make the same
    loop. *)
Lemma for_i32_ext {S : Type} (P : S -> Prop) (body body' : Z -> S -> outcome S) :
  (forall j s, P s -> body' j s = body j s) ->
  (forall j s s', P s -> body j s = Ok s' -> P s') ->
  forall (n : nat) (i : Z) (s : S),
    P s -> for_i32 n i body' s = for_i32 n i body s.
Proof.
  intros Heq Hpres. induction n as [|n IH]; intros i s Hs; simpl; [reflexivity|].
  rewrite (Heq i s Hs).
  destruct (body i s) as [s1| e |] eqn:E; cbn [bind]; try reflexivity.
  destruct (i32 (i + 1)) as [i1| e |]; cbn [bind]; try reflexivity.
  apply IH. exact (Hpres i s s1 Hs E).
Qed.

Lemma read_u16_range (m : list byte) (off v : Z) :
  read_u16 m off = Ok v -> 0 <= v < 2 ^ 16.
Proof.
  unfold read_u16. intros H. do 2 bind_inv H. inversion H; subst.
  pose proof (byte_val_range v0). pose proof (byte_val_range v1). lia.
Qed.

(** ** Bytes the decoder does not look at *)

(** Two inputs with the same bytes from offset 54 on give the same rows
    when the pixel data starts there or later. *)
Lemma decode_row_ext (bmp bmp' : list byte) (data_offset w abs_height : Z)
    (top_down : bool) (bpp bytes_per_pixel rs y : Z) (rgba : list byte) :
  (forall j, 54 <= j -> load bmp' j = load bmp j) ->
  54 <= data_offset -> 0 <= bytes_per_pixel ->
  decode_row bmp' data_offset w abs_height top_down bpp bytes_per_pixel rs y rgba
  = decode_row bmp data_offset w abs_height top_down bpp bytes_per_pixel rs y rgba.
Proof.
  intros Hsame Hoff Hb. unfold decode_row.
  destruct (src_row top_down abs_height y) as [r| e |]; cbn [bind]; try reflexivity.
  destruct (i32 (y * w)) as [yw| e |]; cbn [bind]; try reflexivity.
  destruct (i32 (yw * 4)) as [d| e |]; cbn [bind]; try reflexivity.
  pose proof (u32_range (u32 r * rs)) as Hu.
  rewrite (for_i32_ext (fun st : Z * Z * list byte => 54 <= fst (fst st))
             (fun _ => decode_pixel bmp bpp bytes_per_pixel)
             (fun _ => decode_pixel bmp' bpp bytes_per_pixel)).
  - reflexivity.
  - intros _ [[src dst] buf] Hsrc. simpl in Hsrc. unfold decode_pixel.
    rewrite (Hsame (src + 2)), (Hsame (src + 1)), (Hsame src), (Hsame (src + 3)) by lia.
    reflexivity.
  - intros _ [[src dst] buf] st' Hsrc Hst. simpl in Hsrc.
    apply decode_pixel_Ok in Hst as (buf' & -> & _). simpl. lia.
  - simpl. lia.
Qed.

(** X7: the decoder does not look at the file size, the reserved fields,
    the plane count, the image size, the resolutions or the palette fields:
    two inputs of the same length whose data offset is 54 or more and that
    differ in those bytes only (offsets 2-9, 26-27 and 34-53) give the same
    outcome, error or image. *)
Theorem decode_ignores_informational_fields :
  forall (heap : allocator) (bmp bmp' : list byte) (data_offset : Z),
    length bmp' = length bmp ->
    read_u32 bmp 10 = Ok data_offset -> 54 <= data_offset ->
    (forall j, 0 <= j < 2 \/ 10 <= j < 26 \/ 28 <= j < 34 \/ 54 <= j ->
               load bmp' j = load bmp j) ->
    bare_bmp_decode heap bmp' = bare_bmp_decode heap bmp.
Proof.
  intros heap bmp bmp' data_offset Hlen Hoff H54 Hsame.
  unfold bare_bmp_decode. cbv zeta. rewrite Hlen.
  destruct (_ <? _); [reflexivity|].
  rewrite (read_u16_ext bmp bmp' 0) by (intros; apply Hsame; lia).
  rewrite (read_u32_ext bmp bmp' 14) by (intros; apply Hsame; lia).
  rewrite (read_u32_ext bmp bmp' 30) by (intros; apply Hsame; lia).
  rewrite (read_u16_ext bmp bmp' 28) by (intros; apply Hsame; lia).
  rewrite (read_i32_ext bmp bmp' 18) by (intros; apply Hsame; lia).
  rewrite (read_i32_ext bmp bmp' 22) by (intros; apply Hsame; lia).
  rewrite (read_u32_ext bmp bmp' 10) by (intros; apply Hsame; lia).
  rewrite Hoff.
  destruct (read_u16 bmp 0) as [magic| e |]; cbn [bind]; [| reflexivity | reflexivity].
  destruct (negb (magic =? 19778)); [reflexivity|].
  destruct (read_u32 bmp 14) as [hs| e |]; cbn [bind]; [| reflexivity | reflexivity].
  destruct (negb (hs =? 40)); [reflexivity|].
  destruct (read_u32 bmp 30) as [c| e |]; cbn [bind]; [| reflexivity | reflexivity].
  destruct (negb (c =? 0)); [reflexivity|].
  destruct (read_u16 bmp 28) as [bpp| e |] eqn:Eb; cbn [bind]; [| reflexivity | reflexivity].
  destruct (negb (bpp =? 24) && negb (bpp =? 32)); [reflexivity|].
  destruct (read_i32 bmp 18) as [w| e |]; cbn [bind]; [| reflexivity | reflexivity].
  destruct (read_i32 bmp 22) as [h| e |]; cbn [bind]; [| reflexivity | reflexivity].
  destruct (if h <? 0 then i32 (- h) else Ok h) as [a| e |]; cbn [bind]; [| reflexivity | reflexivity].
  destruct (_ >? _); [reflexivity|].
  destruct (i32 (w * a)) as [wh| e |]; cbn [bind]; [| reflexivity | reflexivity].
  destruct (i32 (wh * 4)) as [size| e |]; cbn [bind]; [| reflexivity | reflexivity].
  destruct (malloc heap (u64 size)) as [rgba|]; [|reflexivity].
  rewrite (for_i32_ext (fun _ => True)
             (decode_row bmp data_offset w a (h <? 0) bpp (bpp / 8) (row_size w (bpp / 8)))
             (decode_row bmp' data_offset w a (h <? 0) bpp (bpp / 8)
                (row_size w (bpp / 8)))).
  - reflexivity.
  - intros y buf _. apply decode_row_ext; [intros; apply Hsame; lia | exact H54 |].
    apply read_u16_range in Eb. apply Z.div_pos; lia.
  - auto.
  - exact I.
Qed.

(** The 2x2 sample with other informational fields. *)
Lemma decode_ignores_informational_fields_witness :
  bare_bmp_decode heap_ok
    (bytes (header_full 70 54 2 2 24 16 2835
            ++ [1; 2; 3; 4; 5; 6; 0; 0] ++ [7; 8; 9; 10; 11; 12; 0; 0]))
  = bare_bmp_decode heap_ok sample_2x2_24.
Proof.
  apply (decode_ignores_informational_fields heap_ok sample_2x2_24 _ 54).
  - reflexivity.
  - vm_compute. reflexivity.
  - lia.
  - intros j Hj.
    assert (Hc : j = 0 \/ j = 1 \/ 10 <= j < 26 \/ 28 <= j < 34 \/ 54 <= j) by lia.
    destruct Hc as [-> | [-> | [Hc | [Hc | Hc]]]]; try reflexivity.
    + assert (Hd : j = 10 \/ j = 11 \/ j = 12 \/ j = 13 \/ j = 14 \/ j = 15 \/ j = 16
                   \/ j = 17 \/ j = 18 \/ j = 19 \/ j = 20 \/ j = 21 \/ j = 22 \/ j = 23
                   \/ j = 24 \/ j = 25) by lia.
      repeat (destruct Hd as [-> | Hd]; [reflexivity|]). subst j. reflexivity.
    + assert (Hd : j = 28 \/ j = 29 \/ j = 30 \/ j = 31 \/ j = 32 \/ j = 33) by lia.
      repeat (destruct Hd as [-> | Hd]; [reflexivity|]). subst j. reflexivity.
    + change sample_2x2_24 with
        (bytes (header 54 2 2 24)
         ++ bytes ([1; 2; 3; 4; 5; 6; 0; 0] ++ [7; 8; 9; 10; 11; 12; 0; 0])).
      change (bytes (header_full 70 54 2 2 24 16 2835
                     ++ [1; 2; 3; 4; 5; 6; 0; 0] ++ [7; 8; 9; 10; 11; 12; 0; 0]))
        with (bytes (header_full 70 54 2 2 24 16 2835)
              ++ bytes ([1; 2; 3; 4; 5; 6; 0; 0] ++ [7; 8; 9; 10; 11; 12; 0; 0])).
      rewrite (load_app_r (bytes (header 54 2 2 24)))
        by (change (Z.of_nat (length (bytes (header 54 2 2 24)))) with 54; lia).
      rewrite (load_app_r (bytes (header_full 70 54 2 2 24 16 2835)))
        by (rewrite length_header; lia).
      reflexivity.
Defined.

Lemma read_i32_app_l (pre rest : list byte) (off : Z) :
  0 <= off -> off + 4 <= Z.of_nat (length pre) ->
  read_i32 (pre ++ rest) off = read_i32 pre off.
Proof.
  intros H0 H1. apply read_i32_ext. intros j Hj. apply load_app_l. lia.
Qed.

Lemma accepted_header_app (bmp extra : list byte) (data_offset w h bpp : Z) :
  accepted_header bmp data_offset w h bpp ->
  accepted_header (bmp ++ extra) data_offset w h bpp.
Proof.
  intros (Hlen & Em & Ehs & Ec & Eb & Hb & Ew & Eh & Eo).
  unfold accepted_header.
  rewrite !read_u16_app_l, !read_u32_app_l, !read_i32_app_l by lia.
  rewrite length_app. repeat (split; [first [assumption | lia]|]). assumption.
Qed.

(** A pixel decoded from an input is decoded alike from any input that keeps
    the bytes read. *)
Lemma decode_pixel_mono (bmp bmp' : list byte) (bpp bytes_per_pixel : Z)
    (st st' : Z * Z * list byte) :
  (forall j b, load bmp j = Ok b -> load bmp' j = Ok b) ->
  decode_pixel bmp bpp bytes_per_pixel st = Ok st' ->
  decode_pixel bmp' bpp bytes_per_pixel st = Ok st'.
Proof.
  intros Hm. destruct st as [[src dst] buf]. unfold decode_pixel. intros H.
  bind_inv H. rewrite (Hm _ _ E). cbn [bind].
  bind_inv H. rewrite E0. cbn [bind].
  bind_inv H. rewrite (Hm _ _ E1). cbn [bind].
  bind_inv H. rewrite E2. cbn [bind].
  bind_inv H. rewrite (Hm _ _ E3). cbn [bind].
  bind_inv H. rewrite E4. cbn [bind].
  bind_inv H.
  assert (E5' : (if bpp =? 32 then load bmp' (src + 3) else Ok xff) = Ok v5).
  { destruct (bpp =? 32); [apply Hm; exact E5 | exact E5]. }
  rewrite E5'. cbn [bind]. exact H.
Qed.

Lemma decode_row_mono (bmp bmp' : list byte) (data_offset w abs_height : Z)
    (top_down : bool) (bpp bytes_per_pixel rs y : Z) (rgba rgba' : list byte) :
  (forall j b, load bmp j = Ok b -> load bmp' j = Ok b) ->
  decode_row bmp data_offset w abs_height top_down bpp bytes_per_pixel rs y rgba
  = Ok rgba' ->
  decode_row bmp' data_offset w abs_height top_down bpp bytes_per_pixel rs y rgba
  = Ok rgba'.
Proof.
  intros Hm. unfold decode_row. intros H.
  bind_inv H. rewrite E. cbn [bind].
  bind_inv H. rewrite E0. cbn [bind].
  bind_inv H. rewrite E1. cbn [bind].
  bind_inv H.
  destruct (for_i32_rel eq
              (fun _ => decode_pixel bmp bpp bytes_per_pixel)
              (fun _ => decode_pixel bmp' bpp bytes_per_pixel)) with
    (n := Z.to_nat w) (i := 0) (s := (data_offset + u32 (u32 v * rs), v1, rgba))
    (t := (data_offset + u32 (u32 v * rs), v1, rgba)) (s' := v2)
    as (t' & Et' & <-).
  - intros j s t s' <- Hs. exists s'. split; [|reflexivity].
    exact (decode_pixel_mono bmp bmp' bpp bytes_per_pixel s s' Hm Hs).
  - reflexivity.
  - exact E2.
  - rewrite Et'. cbn [bind]. exact H.
Qed.

(** X8: bytes after the pixel data are not looked at: an input that decodes
    to an image decodes to the same image with any bytes appended. *)
Theorem decode_ignores_trailing_bytes :
  forall (heap : allocator) (bmp extra : list byte) (img : image),
    bare_bmp_decode heap bmp = Ok img ->
    bare_bmp_decode heap (bmp ++ extra) = Ok img.
Proof.
  intros heap bmp extra img H.
  apply decode_Ok in H
    as (data_offset & w & h & bpp & junk & Hacc & Hh & Hext & Hwh & Hwh4 & Hheap
        & Hw & Hht & Hloop).
  rewrite (decode_checked heap (bmp ++ extra) data_offset w h bpp
             (accepted_header_app bmp extra _ _ _ _ Hacc) Hh).
  rewrite length_app.
  destruct (Z.gtb_spec (pixel_extent data_offset (row_size w (bpp / 8)) (Z.abs h))
              (Z.of_nat (length bmp + length extra))) as [|_]; [lia|].
  rewrite (i32_in_range (w * Z.abs h)) by lia. cbn [bind].
  rewrite (i32_in_range (w * Z.abs h * 4)) by lia. cbn [bind].
  rewrite u64_small by lia. unfold malloc.
  destruct (Z.leb_spec (w * Z.abs h * 4) PTRDIFF_MAX) as [_|Hbig];
    [|unfold PTRDIFF_MAX in Hbig; lia].
  rewrite Hheap.
  destruct (for_i32_rel eq
              (decode_row bmp data_offset w (Z.abs h) (h <? 0) bpp (bpp / 8)
                 (row_size w (bpp / 8)))
              (decode_row (bmp ++ extra) data_offset w (Z.abs h) (h <? 0) bpp (bpp / 8)
                 (row_size w (bpp / 8)))) with
    (n := Z.to_nat (Z.abs h)) (i := 0)
    (s := replicate (Z.to_nat (w * Z.abs h * 4)) junk)
    (t := replicate (Z.to_nat (w * Z.abs h * 4)) junk) (s' := data img)
    as (t' & Et' & <-).
  - intros y s t s' <- Hs. exists s'. split; [|reflexivity].
    apply (decode_row_mono bmp); [|exact Hs].
    intros j b Hj. rewrite load_app_l; [exact Hj | exact (load_bounds _ _ _ Hj)].
  - reflexivity.
  - exact Hloop.
  - rewrite Et'. cbn [bind]. destruct img as [iw ih d]. simpl in *. subst. reflexivity.
Qed.

(** The red pixel of the test suite followed by three more bytes. *)
Lemma decode_ignores_trailing_bytes_witness :
  bare_bmp_decode heap_ok (red_1x1_24 ++ bytes [1; 2; 3])
  = Ok (Image 1 1 (bytes [255; 0; 0; 255])).
Proof.
  apply decode_ignores_trailing_bytes. vm_compute. reflexivity.
Defined.

(** ** What the output block held before *)

(** Whether a pixel is decoded depends on the length of the output block,
    not on its content. *)
Lemma decode_pixel_same_length (bmp : list byte) (bpp bytes_per_pixel src dst : Z)
    (buf buf2 : list byte) (st' : Z * Z * list byte) :
  length buf2 = length buf ->
  decode_pixel bmp bpp bytes_per_pixel (src, dst, buf) = Ok st' ->
  exists buf' buf2',
    st' = (src + bytes_per_pixel, dst + 4, buf')
    /\ decode_pixel bmp bpp bytes_per_pixel (src, dst, buf2)
       = Ok (src + bytes_per_pixel, dst + 4, buf2')
    /\ length buf2' = length buf'.
Proof.
  intros Hlen H.
  apply decode_pixel_Ok in H as (buf' & -> & Hl & Hd0 & Hd1 & Hpix & _).
  destruct Hpix as (r & g & b & a & Lb & Lg & Lr & La & _).
  destruct (decode_pixel_progress bmp bpp bytes_per_pixel src dst buf2) as (st2 & E2).
  - exact (proj1 (load_bounds _ _ _ Lb)).
  - pose proof (load_bounds _ _ _ Lr). destruct (bpp =? 32); [|lia].
    pose proof (load_bounds _ _ _ La). lia.
  - exact Hd0.
  - lia.
  - pose proof E2 as E2'.
    apply decode_pixel_Ok in E2' as (buf2' & -> & Hl2 & _).
    exists buf', buf2'. split; [reflexivity|]. split; [exact E2 | congruence].
Qed.

Lemma decode_row_same_length (bmp : list byte) (data_offset w abs_height : Z)
    (top_down : bool) (bpp bytes_per_pixel rs y : Z) (buf buf2 buf' : list byte) :
  length buf2 = length buf ->
  decode_row bmp data_offset w abs_height top_down bpp bytes_per_pixel rs y buf
  = Ok buf' ->
  exists buf2',
    decode_row bmp data_offset w abs_height top_down bpp bytes_per_pixel rs y buf2
    = Ok buf2'
    /\ length buf2' = length buf'.
Proof.
  intros Hlen. unfold decode_row. intros H.
  bind_inv H. rewrite E. cbn [bind].
  bind_inv H. rewrite E0. cbn [bind].
  bind_inv H. rewrite E1. cbn [bind].
  bind_inv H. destruct v2 as [[s1 d1] b1]. inversion H; subst buf'. clear H.
  destruct (for_i32_rel
              (fun s t : Z * Z * list byte =>
                 fst (fst s) = fst (fst t) /\ snd (fst s) = snd (fst t)
                 /\ length (snd t) = length (snd s))
              (fun _ => decode_pixel bmp bpp bytes_per_pixel)
              (fun _ => decode_pixel bmp bpp bytes_per_pixel)) with
    (n := Z.to_nat w) (i := 0) (s := (data_offset + u32 (u32 v * rs), v1, buf))
    (t := (data_offset + u32 (u32 v * rs), v1, buf2)) (s' := (s1, d1, b1))
    as ([[s2 d2] b2] & Et' & HR).
  - intros j [[sa da] ba] [[sb db] bb] s' (Hs & Hd & Hl) Hst. simpl in Hs, Hd, Hl.
    subst sb db.
    destruct (decode_pixel_same_length bmp bpp bytes_per_pixel sa da ba bb s' Hl Hst)
      as (ba' & bb' & -> & Eb & Hl').
    exists (sa + bytes_per_pixel, da + 4, bb'). split; [exact Eb|]. simpl. auto.
  - simpl. auto.
  - exact E2.
  - rewrite Et'. cbn [bind]. exists b2. split; [reflexivity|].
    simpl in HR. tauto.
Qed.

(** A buffer is determined by the pixels it is made from. *)
Lemma rgba_determined (bmp : list byte) (bpp w h : Z) (src : Z -> Z -> Z)
    (d d' : list byte) :
  0 <= h ->
  Z.of_nat (length d) = w * h * 4 -> Z.of_nat (length d') = w * h * 4 ->
  (forall y x, 0 <= y < h -> 0 <= x < w ->
     rgba_from_bgra bmp bpp (src y x) d (y * w * 4 + 4 * x)) ->
  (forall y x, 0 <= y < h -> 0 <= x < w ->
     rgba_from_bgra bmp bpp (src y x) d' (y * w * 4 + 4 * x)) ->
  d' = d.
Proof.
  intros Hh Hl Hl' Hd Hd'. apply load_ext; [lia|].
  intros i Hi. rewrite Hl in Hi.
  destruct (pixel_index w h i Hh Hi) as (y & x & c & Hy & Hx & Hc & -> & _).
  destruct (Hd y x Hy Hx) as (r & g & b & a & Lb & Lg & Lr & La & D0 & D1 & D2 & D3).
  destruct (Hd' y x Hy Hx)
    as (r' & g' & b' & a' & Lb' & Lg' & Lr' & La' & D0' & D1' & D2' & D3').
  assert (b' = b) as -> by congruence.
  assert (g' = g) as -> by congruence.
  assert (r' = r) as -> by congruence.
  assert (a' = a) as -> by congruence.
  assert (c = 0 \/ c = 1 \/ c = 2 \/ c = 3) as [-> | [-> | [-> | ->]]] by lia;
    rewrite ?Z.add_0_r; congruence.
Qed.

(** The rows decoded into a block are those decoded into any other block
    of the same length: every byte of the block is overwritten. *)
Lemma decode_rows_any_block (bmp : list byte) (data_offset w a : Z) (top_down : bool)
    (bpp bytes_per_pixel rs : Z) (b1 b2 d1 : list byte) :
  0 <= a -> Z.of_nat (length b1) = w * a * 4 -> length b2 = length b1 ->
  for_i32 (Z.to_nat a) 0
    (decode_row bmp data_offset w a top_down bpp bytes_per_pixel rs) b1 = Ok d1 ->
  for_i32 (Z.to_nat a) 0
    (decode_row bmp data_offset w a top_down bpp bytes_per_pixel rs) b2 = Ok d1.
Proof.
  intros Ha Hl1 Hl2 Hrun.
  destruct (for_i32_rel (fun s t : list byte => length t = length s)
              (decode_row bmp data_offset w a top_down bpp bytes_per_pixel rs)
              (decode_row bmp data_offset w a top_down bpp bytes_per_pixel rs)) with
    (n := Z.to_nat a) (i := 0) (s := b1) (t := b2) (s' := d1)
    as (d2 & Ed2 & Hl').
  { intros y s t s' Hl Hs.
    exact (decode_row_same_length _ _ _ _ _ _ _ _ _ s t s' Hl Hs). }
  { exact Hl2. }
  { exact Hrun. }
  rewrite Ed2. f_equal.
  pose proof (for_i32_invariant
    (decode_inv bmp data_offset w a top_down bpp bytes_per_pixel rs b1)
    _ _ _ _ _ Hrun (decode_inv_init _ _ _ _ _ _ _ _ _)) as [Hlen1 Hpix1].
  { intros j t t' Hj. apply decode_inv_step. lia. }
  pose proof (for_i32_invariant
    (decode_inv bmp data_offset w a top_down bpp bytes_per_pixel rs b2)
    _ _ _ _ _ Ed2 (decode_inv_init _ _ _ _ _ _ _ _ _)) as [Hlen2 Hpix2].
  { intros j t t' Hj. apply decode_inv_step. lia. }
  apply (rgba_determined bmp bpp w a
           (fun y x => data_offset
                       + u32 (u32 (if top_down then y else a - 1 - y) * rs)
                       + x * bytes_per_pixel)); [exact Ha | lia | lia | |].
  - intros y x Hy Hx.
    destruct (Hpix1 y x ltac:(lia) Hx) as (r & Er & Hp).
    rewrite (src_row_Ok _ _ _ _ Er) in Hp. exact Hp.
  - intros y x Hy Hx.
    destruct (Hpix2 y x ltac:(lia) Hx) as (r & Er & Hp).
    rewrite (src_row_Ok _ _ _ _ Er) in Hp. exact Hp.
Qed.

Lemma map_constant_seq {A : Type} (a : A) (n s : nat) :
  map (fun _ : nat => a) (seq s n) = replicate n a.
Proof.
  revert s. induction n as [|n IH]; intros s; simpl; [reflexivity|].
  rewrite IH. reflexivity.
Qed.

(** A block of one repeated byte is the answer of [malloc] above. *)
Lemma malloc_constant_blocks (heap : allocator) (size : Z) :
  malloc_block (constant_blocks heap) size = malloc heap size.
Proof.
  unfold malloc_block, malloc, constant_blocks.
  destruct (size <=? PTRDIFF_MAX); [|reflexivity].
  destruct (heap size) as [junk|]; [|reflexivity].
  rewrite map_constant_seq. reflexivity.
Qed.

(** The decoder above is the decoder on blocks of one repeated byte. *)
Lemma decode_constant_blocks (heap : allocator) (bmp : list byte) :
  bare_bmp_decode_block (constant_blocks heap) bmp = bare_bmp_decode heap bmp.
Proof.
  unfold bare_bmp_decode_block, bare_bmp_decode. cbv zeta.
  destruct (_ <? _); [reflexivity|].
  destruct (read_u16 bmp 0) as [magic| e |]; cbn [bind]; [| reflexivity | reflexivity].
  destruct (negb (magic =? 19778)); [reflexivity|].
  destruct (read_u32 bmp 14) as [hs| e |]; cbn [bind]; [| reflexivity | reflexivity].
  destruct (negb (hs =? 40)); [reflexivity|].
  destruct (read_u32 bmp 30) as [c| e |]; cbn [bind]; [| reflexivity | reflexivity].
  destruct (negb (c =? 0)); [reflexivity|].
  destruct (read_u16 bmp 28) as [bpp| e |]; cbn [bind]; [| reflexivity | reflexivity].
  destruct (negb (bpp =? 24) && negb (bpp =? 32)); [reflexivity|].
  destruct (read_i32 bmp 18) as [w| e |]; cbn [bind]; [| reflexivity | reflexivity].
  destruct (read_i32 bmp 22) as [h| e |]; cbn [bind]; [| reflexivity | reflexivity].
  destruct (if h <? 0 then i32 (- h) else Ok h) as [a| e |]; cbn [bind];
    [| reflexivity | reflexivity].
  destruct (read_u32 bmp 10) as [o| e |]; cbn [bind]; [| reflexivity | reflexivity].
  destruct (_ >? _); [reflexivity|].
  destruct (i32 (w * a)) as [wh| e |]; cbn [bind]; [| reflexivity | reflexivity].
  destruct (i32 (wh * 4)) as [size| e |]; cbn [bind]; [| reflexivity | reflexivity].
  rewrite malloc_constant_blocks. reflexivity.
Qed.

(** What a successful call on a block of arbitrary content went through. *)
Lemma decode_block_Ok (heap : block_allocator) (bmp : list byte) (img : image) :
  bare_bmp_decode_block heap bmp = Ok img ->
  exists data_offset w h bpp block,
    accepted_header bmp data_offset w h bpp
    /\ - 2 ^ 31 < h
    /\ pixel_extent data_offset (row_size w (bpp / 8)) (Z.abs h) <= Z.of_nat (length bmp)
    /\ - 2 ^ 31 <= w * Z.abs h < 2 ^ 31
    /\ 0 <= w * Z.abs h * 4 < 2 ^ 31
    /\ malloc_block heap (w * Z.abs h * 4) = Some block
    /\ Z.of_nat (length block) = w * Z.abs h * 4
    /\ width img = w /\ height img = Z.abs h
    /\ for_i32 (Z.to_nat (Z.abs h)) 0
         (decode_row bmp data_offset w (Z.abs h) (h <? 0) bpp (bpp / 8)
            (row_size w (bpp / 8)))
         block
       = Ok (data img).
Proof.
  intros H. unfold bare_bmp_decode_block in H. cbv zeta in H.
  change (sizeof_file_header + sizeof_dib_header) with 54 in H.
  destruct (Z.ltb_spec (Z.of_nat (length bmp)) 54) as [|Hlen]; [discriminate|].
  bind_inv H. rename v into magic, E into Emagic.
  destruct (Z.eqb_spec magic 0x4D42) as [->|]; [|discriminate]. simpl in H.
  bind_inv H. rename v into hs, E into Ehs.
  destruct (Z.eqb_spec hs 40) as [->|]; [|discriminate]. simpl in H.
  bind_inv H. rename v into comp, E into Ecomp.
  destruct (Z.eqb_spec comp 0) as [->|]; [|discriminate]. simpl in H.
  bind_inv H. rename v into bpp, E into Ebpp.
  assert (Hbpp : bpp = 24 \/ bpp = 32).
  { destruct (Z.eqb_spec bpp 24); [auto|].
    destruct (Z.eqb_spec bpp 32); [auto|]. discriminate. }
  replace (negb (bpp =? 24) && negb (bpp =? 32)) with false in H
    by (destruct Hbpp as [-> | ->]; reflexivity).
  bind_inv H. rename v into w, E into Ew.
  bind_inv H. rename v into h, E into Eh.
  bind_inv H. rename v into a, E into Ea.
  apply abs_height_Ok in Ea as [-> Hh]; [|exact (read_i32_range _ _ _ Eh)].
  bind_inv H. rename v into data_offset, E into Eoff.
  destruct (Z.gtb_spec (pixel_extent data_offset (row_size w (bpp / 8)) (Z.abs h))
              (Z.of_nat (length bmp))) as [|Hext]; [discriminate|].
  bind_inv H. apply i32_Ok in E as [-> Hwh].
  bind_inv H. apply i32_Ok in E as [-> Hwh4].
  destruct (malloc_block heap (u64 (w * Z.abs h * 4))) as [block|] eqn:Em; [|discriminate].
  bind_inv H. inversion H; subst img. clear H. simpl.
  assert (Hnn : 0 <= w * Z.abs h * 4).
  { destruct (Z.le_gt_cases 0 (w * Z.abs h * 4)) as [|Hneg]; [assumption|].
    unfold malloc_block in Em.
    destruct (Z.leb_spec (u64 (w * Z.abs h * 4)) PTRDIFF_MAX) as [Hmax|]; [|discriminate].
    rewrite u64_negative in Hmax by lia. unfold PTRDIFF_MAX in Hmax. lia. }
  rewrite u64_small in Em by lia.
  assert (Hbl : Z.of_nat (length block) = w * Z.abs h * 4).
  { unfold malloc_block in Em. destruct (_ <=? _); [|discriminate].
    destruct (heap (w * Z.abs h * 4)); [|discriminate].
    inversion Em. rewrite length_map, length_seq. lia. }
  exists data_offset, w, h, bpp, block.
  split; [unfold accepted_header; repeat (split; [assumption|]); assumption|].
  repeat (split; [first [assumption | reflexivity | lia]|]).
  exact E.
Qed.

(** The call on a block of arbitrary content, once the format checks are
    passed. *)
Lemma decode_block_checked (heap : block_allocator) (bmp : list byte)
    (data_offset w h bpp : Z) :
  accepted_header bmp data_offset w h bpp -> - 2 ^ 31 < h ->
  bare_bmp_decode_block heap bmp
  = if pixel_extent data_offset (row_size w (bpp / 8)) (Z.abs h) >? Z.of_nat (length bmp)
    then Throw TruncatedData
    else
      let* wh := i32 (w * Z.abs h) in
      let* size := i32 (wh * 4) in
      match malloc_block heap (u64 size) with
      | None => Throw AllocationFailure
      | Some rgba =>
          let* rgba :=
            for_i32 (Z.to_nat (Z.abs h)) 0
              (decode_row bmp data_offset w (Z.abs h) (h <? 0) bpp (bpp / 8)
                 (row_size w (bpp / 8))) rgba in
          Ok {| width := w; height := Z.abs h; data := rgba |}
      end.
Proof.
  intros (Hlen & Emagic & Ehs & Ecomp & Ebpp & Hbpp & Ew & Eh & Eoff) Hh.
  pose proof (read_i32_range _ _ _ Eh) as Hhr.
  unfold bare_bmp_decode_block. cbv zeta.
  change (sizeof_file_header + sizeof_dib_header) with 54.
  destruct (Z.ltb_spec (Z.of_nat (length bmp)) 54) as [|_]; [lia|].
  rewrite Emagic. cbn [bind]. change (negb (19778 =? 19778)) with false. cbv iota.
  rewrite Ehs. cbn [bind]. change (negb (40 =? 40)) with false. cbv iota.
  rewrite Ecomp. cbn [bind]. change (negb (0 =? 0)) with false. cbv iota.
  rewrite Ebpp. cbn [bind].
  replace (negb (bpp =? 24) && negb (bpp =? 32)) with false
    by (destruct Hbpp as [-> | ->]; reflexivity).
  rewrite Ew. cbn [bind]. rewrite Eh. cbn [bind].
  assert (Ea : (if h <? 0 then i32 (- h) else Ok h) = Ok (Z.abs h)).
  { destruct (Z.ltb_spec h 0).
    - rewrite i32_in_range by lia. f_equal. lia.
    - f_equal. lia. }
  rewrite Ea. cbn [bind]. rewrite Eoff. cbn [bind]. reflexivity.
Qed.

(** The outcome of the row loop, success or failure, is the same on two
    blocks of the same length. *)
Lemma decode_rows_outcome (bmp : list byte) (data_offset w a : Z) (top_down : bool)
    (bpp bytes_per_pixel rs : Z) (b1 b2 : list byte) :
  0 <= a -> Z.of_nat (length b1) = w * a * 4 -> length b2 = length b1 ->
  for_i32 (Z.to_nat a) 0
    (decode_row bmp data_offset w a top_down bpp bytes_per_pixel rs) b2
  = for_i32 (Z.to_nat a) 0
      (decode_row bmp data_offset w a top_down bpp bytes_per_pixel rs) b1.
Proof.
  intros Ha Hl1 Hl2.
  pose proof (decode_rows_no_throw bmp data_offset w a top_down bpp bytes_per_pixel rs
                (Z.to_nat a) b1) as N1.
  pose proof (decode_rows_no_throw bmp data_offset w a top_down bpp bytes_per_pixel rs
                (Z.to_nat a) b2) as N2.
  destruct (for_i32 (Z.to_nat a) 0
              (decode_row bmp data_offset w a top_down bpp bytes_per_pixel rs) b1)
    as [d1| e |] eqn:E1.
  - exact (decode_rows_any_block _ _ _ _ _ _ _ _ b1 b2 d1 Ha Hl1 Hl2 E1).
  - exfalso. exact (N1 e eq_refl).
  - destruct (for_i32 (Z.to_nat a) 0
                (decode_row bmp data_offset w a top_down bpp bytes_per_pixel rs) b2)
      as [d2| e |] eqn:E2.
    + assert (Hl2' : Z.of_nat (length b2) = w * a * 4) by (rewrite Hl2; exact Hl1).
      pose proof (decode_rows_any_block _ _ _ _ _ _ _ _ b2 b1 d2 Ha Hl2'
                    (eq_sym Hl2) E2) as E1'.
      congruence.
    + exfalso. exact (N2 e eq_refl).
    + reflexivity.
Qed.

(** The outcome on blocks of arbitrary content is the outcome on blocks of
    one repeated byte: image, error or undefined behaviour, the decoder does
    the same whatever the block held. *)
Lemma decode_block_outcome (heap : block_allocator) (bmp : list byte) :
  bare_bmp_decode_block heap bmp
  = bare_bmp_decode
      (fun size => match heap size with
                   | Some content => Some (content 0)
                   | None => None
                   end) bmp.
Proof.
  unfold bare_bmp_decode_block, bare_bmp_decode. cbv zeta.
  destruct (_ <? _); [reflexivity|].
  destruct (read_u16 bmp 0) as [magic| e |]; cbn [bind]; [| reflexivity | reflexivity].
  destruct (negb (magic =? 19778)); [reflexivity|].
  destruct (read_u32 bmp 14) as [hs| e |]; cbn [bind]; [| reflexivity | reflexivity].
  destruct (negb (hs =? 40)); [reflexivity|].
  destruct (read_u32 bmp 30) as [c| e |]; cbn [bind]; [| reflexivity | reflexivity].
  destruct (negb (c =? 0)); [reflexivity|].
  destruct (read_u16 bmp 28) as [bpp| e |]; cbn [bind]; [| reflexivity | reflexivity].
  destruct (negb (bpp =? 24) && negb (bpp =? 32)); [reflexivity|].
  destruct (read_i32 bmp 18) as [w| e |]; cbn [bind]; [| reflexivity | reflexivity].
  destruct (read_i32 bmp 22) as [h| e |] eqn:Eh; cbn [bind]; [| reflexivity | reflexivity].
  destruct (if h <? 0 then i32 (- h) else Ok h) as [a| e |] eqn:Ea; cbn [bind];
    [| reflexivity | reflexivity].
  apply abs_height_Ok in Ea as [-> Hh]; [|exact (read_i32_range _ _ _ Eh)].
  destruct (read_u32 bmp 10) as [o| e |]; cbn [bind]; [| reflexivity | reflexivity].
  destruct (_ >? _); [reflexivity|].
  destruct (i32 (w * Z.abs h)) as [wh| e |] eqn:Ewh; cbn [bind];
    [| reflexivity | reflexivity].
  apply i32_Ok in Ewh as [-> Hwh].
  destruct (i32 (w * Z.abs h * 4)) as [size| e |] eqn:Esz; cbn [bind];
    [| reflexivity | reflexivity].
  apply i32_Ok in Esz as [-> Hsz].
  unfold malloc_block, malloc.
  destruct (Z.leb_spec (u64 (w * Z.abs h * 4)) PTRDIFF_MAX) as [Hmax|]; [|reflexivity].
  assert (Hnn : 0 <= w * Z.abs h * 4).
  { destruct (Z.le_gt_cases 0 (w * Z.abs h * 4)) as [|Hneg]; [assumption|].
    rewrite u64_negative in Hmax by lia. unfold PTRDIFF_MAX in Hmax. lia. }
  rewrite u64_small by lia.
  destruct (heap (w * Z.abs h * 4)) as [content|]; [|reflexivity].
  rewrite (decode_rows_outcome bmp o w (Z.abs h) (h <? 0) bpp (bpp / 8)
             (row_size w (bpp / 8))
             (replicate (Z.to_nat (w * Z.abs h * 4)) (content 0))
             (map (fun i : nat => content (Z.of_nat i))
                (seq 0 (Z.to_nat (w * Z.abs h * 4))))).
  - reflexivity.
  - lia.
  - rewrite length_replicate. lia.
  - rewrite length_map, length_seq, length_replicate. reflexivity.
Qed.

(** X9: the decoded image does not depend on what the block that [malloc]
    returns held.  With the content of the block left arbitrary, byte by
    byte, an input that decodes to an image decodes to the same image with
    any allocator that serves the request, whatever its block holds: every
    byte of the output is written by the loops. *)
Theorem decode_ignores_block_content :
  forall (heap heap' : block_allocator) (bmp : list byte) (img : image),
    bare_bmp_decode_block heap bmp = Ok img ->
    heap' (width img * height img * 4) <> None ->
    bare_bmp_decode_block heap' bmp = Ok img.
Proof.
  intros heap heap' bmp img H Hheap'.
  apply decode_block_Ok in H
    as (data_offset & w & h & bpp & block & Hacc & Hh & Hext & Hwh & Hwh4 & Hblock
        & Hbl & Hw & Hht & Hloop).
  rewrite Hw, Hht in Hheap'.
  destruct (heap' (w * Z.abs h * 4)) as [content'|] eqn:Eheap'; [|contradiction].
  rewrite (decode_block_checked heap' bmp data_offset w h bpp Hacc Hh).
  destruct (Z.gtb_spec (pixel_extent data_offset (row_size w (bpp / 8)) (Z.abs h))
              (Z.of_nat (length bmp))) as [|_]; [lia|].
  rewrite (i32_in_range (w * Z.abs h)) by lia. cbn [bind].
  rewrite (i32_in_range (w * Z.abs h * 4)) by lia. cbn [bind].
  rewrite u64_small by lia. unfold malloc_block.
  destruct (Z.leb_spec (w * Z.abs h * 4) PTRDIFF_MAX) as [_|Hbig];
    [|unfold PTRDIFF_MAX in Hbig; lia].
  rewrite Eheap'.
  set (block' := map (fun i : nat => content' (Z.of_nat i))
                   (seq 0 (Z.to_nat (w * Z.abs h * 4)))).
  assert (Hbl' : length block' = length block)
    by (unfold block'; rewrite length_map, length_seq; lia).
  rewrite (decode_rows_any_block bmp data_offset w (Z.abs h) (h <? 0) bpp (bpp / 8)
             (row_size w (bpp / 8)) block block' (data img)
             ltac:(lia) Hbl Hbl' Hloop).
  cbn [bind]. destruct img as [iw ih d]. simpl in Hw, Hht. subst iw ih. reflexivity.
Qed.

(** The red pixel of the test suite, decoded into a block that held 0, 1,
    2, 3 and into one that held 255, 254, 253, 252. *)
Lemma decode_ignores_block_content_witness :
  bare_bmp_decode_block blocks_down red_1x1_24 = Ok (Image 1 1 (bytes [255; 0; 0; 255])).
Proof.
  apply (decode_ignores_block_content blocks_up blocks_down red_1x1_24).
  - vm_compute. reflexivity.
  - discriminate.
Defined.

(** ** Encoding, then decoding *)

(** The encoder's output decoded: the general step, empty images
    included. *)
Lemma encode_then_decode (heap2 heap3 : allocator) (w h : Z) (rgba : list byte)
    (j2 j3 : byte) :
  - 2 ^ 31 <= w < 2 ^ 31 -> 0 <= h < 2 ^ 31 -> (0 < h -> 0 <= w) ->
  w * h * 4 < 2 ^ 31 -> w * h * 4 <= Z.of_nat (length rgba) ->
  heap2 (54 + spec_stride 3 w * h) = Some j2 ->
  heap3 (w * h * 4) = Some j3 ->
  exists out img',
    bare_bmp_encode heap2 (Image w h rgba) = Ok out
    /\ bare_bmp_decode heap3 out = Ok img'
    /\ width img' = w /\ height img' = h
    /\ Z.of_nat (length (data img')) = w * h * 4
    /\ (forall p c, 0 <= p < w * h -> 0 <= c < 3 ->
          load (data img') (4 * p + c) = load rgba (4 * p + c))
    /\ (forall p, 0 <= p < w * h -> load (data img') (4 * p + 3) = Ok xff).
Proof.
  intros Hwr Hh Hpos Hsz Hlen Hheap2 Hheap3.
  assert (Hnn : 0 <= w * h * 4) by nia.
  assert (Hstride : 0 <= spec_stride 3 w * h /\ 54 + spec_stride 3 w * h < 2 ^ 32
                    /\ (0 < h -> row_size w 3 = spec_stride 3 w)).
  { destruct (Z.eq_dec h 0) as [->|Hne]; [lia|].
    specialize (Hpos ltac:(lia)).
    destruct (spec_stride_bounds 3 w Hpos ltac:(auto)) as (_ & Hb & Hb4).
    split; [nia|]. split; [nia|]. intros _.
    apply row_size_spec_stride; nia. }
  destruct Hstride as (Hs0 & Hs1 & Hrs).
  destruct (encode_total heap2 w h rgba j2 Hwr Hh Hpos Hlen Hs1 Hheap2)
    as (out & Eenc & Hlo & Hhdr & Hepix & _).
  destruct (encoded_header_fields w h out Hwr ltac:(lia) Hs0 Hs1 Hhdr)
    as (F0 & _ & _ & _ & F10 & F14 & F18 & F22 & _ & F28 & F30 & _).
  assert (Hacc' : accepted_header out 54 w h 24).
  { unfold accepted_header. repeat (split; [first [assumption | lia | auto]|]).
    assumption. }
  assert (Habs : Z.abs h = h) by lia.
  destruct (decode_total heap3 out 54 w h 24 j3 Hacc') as (img' & Edec' & Hw' & Hht').
  { lia. }
  { rewrite Habs. lia. }
  { rewrite Habs. change (24 / 8) with 3.
    destruct (Z.eq_dec h 0) as [->|Hne]; [lia|]. rewrite Hrs by lia. lia. }
  { rewrite Habs. exact Hheap3. }
  rewrite Habs in Hht'.
  destruct (decode_pixels heap3 out img' Edec')
    as (o2 & w2 & h2 & b2 & Hacc2 & _ & _ & _ & _ & Hlen2 & Hpix2).
  assert (o2 = 54 /\ w2 = w /\ h2 = h /\ b2 = 24) as (-> & -> & -> & ->).
  { destruct Hacc2 as (_ & _ & _ & _ & Eb & _ & Ew & Eh & Eo).
    repeat split; congruence. }
  rewrite Habs in Hlen2, Hpix2.
  assert (Hpixel : forall p, 0 <= p < w * h ->
            exists r g b,
              load rgba (4 * p) = Ok r /\ load rgba (4 * p + 1) = Ok g
              /\ load rgba (4 * p + 2) = Ok b
              /\ load (data img') (4 * p) = Ok r /\ load (data img') (4 * p + 1) = Ok g
              /\ load (data img') (4 * p + 2) = Ok b
              /\ load (data img') (4 * p + 3) = Ok xff).
  { intros p Hp.
    assert (Hw0 : 0 < w) by nia.
    pose proof (Z.div_mod p w ltac:(lia)) as Hdm.
    pose proof (Z.mod_pos_bound p w ltac:(lia)) as Hx.
    assert (Hy : 0 <= p / w < h).
    { split; [apply Z.div_pos; lia|]. apply Z.div_lt_upper_bound; lia. }
    specialize (Hepix (p / w) (p mod w) Hy Hx).
    specialize (Hpix2 (p / w) (p mod w) Hy Hx).
    destruct (Z.ltb_spec h 0) as [|_]; [lia|].
    change (24 / 8) with 3 in Hpix2.
    replace (54 + (h - 1 - p / w) * spec_stride 3 w + p mod w * 3)
      with (54 + (h - 1 - p / w) * spec_stride 3 w + 3 * (p mod w)) in Hpix2 by lia.
    replace (p / w * w * 4 + 4 * (p mod w)) with (4 * p) in Hepix, Hpix2 by lia.
    destruct Hepix as (r & g & b & Sr & Sg & Sb & D0 & D1 & D2).
    destruct Hpix2 as (r' & g' & b' & a' & Lb & Lg & Lr & La & O0 & O1 & O2 & O3).
    simpl in La. inversion La; subst a'.
    exists r, g, b. repeat (split; [congruence|]). exact O3. }
  exists out, img'.
  repeat (split; [first [assumption | lia]|]).
  split.
  - intros p c Hp Hc.
    destruct (Hpixel p Hp) as (r & g & b & S0 & S1 & S2 & D0 & D1 & D2 & _).
    assert (c = 0 \/ c = 1 \/ c = 2) as [-> | [-> | ->]] by lia;
      rewrite ?Z.add_0_r; congruence.
  - intros p Hp.
    destruct (Hpixel p Hp) as (r & g & b & _ & _ & _ & _ & _ & _ & D3). exact D3.
Qed.

(** X10: an RGBA image of positive width and height whose size
    [width * height * 4] fits [int] survives encoding and decoding (the
    allocations being served): same width, same height, the same R, G and B
    bytes, and alpha 255 in every pixel. *)
Theorem encode_decode :
  forall (heap heap' : allocator) (w h : Z) (rgba : list byte) (junk junk' : byte),
    0 < w -> 0 < h -> w * h * 4 < 2 ^ 31 ->
    w * h * 4 <= Z.of_nat (length rgba) ->
    heap (54 + spec_stride 3 w * h) = Some junk ->
    heap' (w * h * 4) = Some junk' ->
    exists out img',
      bare_bmp_encode heap (Image w h rgba) = Ok out
      /\ bare_bmp_decode heap' out = Ok img'
      /\ width img' = w /\ height img' = h
      /\ Z.of_nat (length (data img')) = w * h * 4
      /\ (forall p c, 0 <= p < w * h -> 0 <= c < 3 ->
            load (data img') (4 * p + c) = load rgba (4 * p + c))
      /\ (forall p, 0 <= p < w * h -> load (data img') (4 * p + 3) = Ok xff).
Proof.
  intros heap heap' w h rgba junk junk' Hw Hh Hsz Hlen Hheap Hheap'.
  apply (encode_then_decode heap heap' w h rgba junk junk'); try assumption; nia.
Qed.

(** On a 2x1 image with alpha 7 and 9. *)
Lemma encode_decode_witness :
  exists out img',
    bare_bmp_encode heap_ok (Image 2 1 (bytes [1; 2; 3; 7; 4; 5; 6; 9])) = Ok out
    /\ bare_bmp_decode heap_ok out = Ok img'
    /\ width img' = 2 /\ height img' = 1.
Proof.
  assert (Hlen : 2 * 1 * 4 <= Z.of_nat (length (bytes [1; 2; 3; 7; 4; 5; 6; 9])))
    by (vm_compute; discriminate).
  destruct (encode_decode heap_ok heap_ok 2 1 (bytes [1; 2; 3; 7; 4; 5; 6; 9]) xaa xaa
              ltac:(lia) ltac:(lia) ltac:(lia) Hlen eq_refl eq_refl)
    as (out & img' & H1 & H2 & H3 & H4 & _).
  exists out, img'. exact (conj H1 (conj H2 (conj H3 H4))).
Defined.

(** ** What the encoded file depends on *)

(** Every byte of a file of [h] rows of [stride] bytes after a 54-byte
    header is a header byte, a channel of a pixel or a padding byte. *)
Lemma file_index (w h stride j : Z) :
  0 <= w -> 3 * w <= stride -> 0 <= h -> 0 <= j < 54 + stride * h ->
  j < 54
  \/ (exists y x c, 0 <= y < h /\ 0 <= x < w /\ 0 <= c < 3
                    /\ j = 54 + (h - 1 - y) * stride + 3 * x + c)
  \/ (exists r k, 0 <= r < h /\ 3 * w <= k < stride /\ j = 54 + r * stride + k).
Proof.
  intros Hw Hs Hh Hj.
  destruct (Z.lt_ge_cases j 54) as [|Hge]; [left; assumption | right].
  assert (Hs0 : 0 < stride) by nia.
  pose proof (Z.div_mod (j - 54) stride ltac:(lia)) as Hdm.
  pose proof (Z.mod_pos_bound (j - 54) stride ltac:(lia)) as Hk.
  assert (Hr : 0 <= (j - 54) / stride < h).
  { split; [apply Z.div_pos; lia|]. apply Z.div_lt_upper_bound; lia. }
  destruct (Z.lt_ge_cases ((j - 54) mod stride) (3 * w)) as [Hlt|Hge'].
  - left.
    pose proof (Z.div_mod ((j - 54) mod stride) 3 ltac:(lia)) as Hdm3.
    pose proof (Z.mod_pos_bound ((j - 54) mod stride) 3 ltac:(lia)) as Hc.
    exists (h - 1 - (j - 54) / stride), ((j - 54) mod stride / 3),
      (((j - 54) mod stride) mod 3).
    split; [lia|]. split.
    + split; [apply Z.div_pos; lia|]. apply Z.div_lt_upper_bound; lia.
    + split; [lia|].
      replace (h - 1 - (h - 1 - (j - 54) / stride)) with ((j - 54) / stride) by lia.
      lia.
  - right. exists ((j - 54) / stride), ((j - 54) mod stride).
    split; [lia|]. split; [lia|]. lia.
Qed.

(** Two images with the same dimensions and the same R, G and B bytes are
    encoded to the same file. *)
Lemma encode_same_rgb (heap heap' : allocator) (w h : Z) (rgba rgba' : list byte)
    (junk junk' : byte) :
  - 2 ^ 31 <= w < 2 ^ 31 -> 0 <= h < 2 ^ 31 -> (0 < h -> 0 <= w) ->
  w * h * 4 <= Z.of_nat (length rgba) -> w * h * 4 <= Z.of_nat (length rgba') ->
  54 + spec_stride 3 w * h < 2 ^ 32 ->
  heap (54 + spec_stride 3 w * h) = Some junk ->
  heap' (54 + spec_stride 3 w * h) = Some junk' ->
  (forall p c, 0 <= p < w * h -> 0 <= c < 3 ->
     load rgba' (4 * p + c) = load rgba (4 * p + c)) ->
  exists out,
    bare_bmp_encode heap (Image w h rgba) = Ok out
    /\ bare_bmp_encode heap' (Image w h rgba') = Ok out.
Proof.
  intros Hwr Hh Hpos Hlen Hlen' Hfs Hheap Hheap' Hrgb.
  destruct (encode_total heap w h rgba junk Hwr Hh Hpos Hlen Hfs Hheap)
    as (out & E & Hl & Hhdr & Hpix & Hpad).
  destruct (encode_total heap' w h rgba' junk' Hwr Hh Hpos Hlen' Hfs Hheap')
    as (out' & E' & Hl' & Hhdr' & Hpix' & Hpad').
  exists out. split; [exact E|]. rewrite E'. f_equal.
  apply load_ext; [lia|].
  intros j Hj. rewrite Hl in Hj.
  destruct (Z.eq_dec h 0) as [->|Hne].
  { rewrite Hhdr, Hhdr' by lia. reflexivity. }
  specialize (Hpos ltac:(lia)).
  destruct (spec_stride_bounds 3 w Hpos ltac:(auto)) as (_ & Hb & _).
  destruct (file_index w h (spec_stride 3 w) j Hpos ltac:(lia) ltac:(lia) Hj)
    as [Hlt | [(y & x & c & Hy & Hx & Hc & ->) | (r & k & Hr & Hk & ->)]].
  - rewrite Hhdr, Hhdr' by lia. reflexivity.
  - destruct (Hpix y x Hy Hx) as (r & g & b & Sr & Sg & Sb & D0 & D1 & D2).
    destruct (Hpix' y x Hy Hx) as (r' & g' & b' & Sr' & Sg' & Sb' & D0' & D1' & D2').
    assert (Hp : 0 <= y * w + x < w * h) by nia.
    pose proof (Hrgb (y * w + x) 0 Hp ltac:(lia)) as A0.
    pose proof (Hrgb (y * w + x) 1 Hp ltac:(lia)) as A1.
    pose proof (Hrgb (y * w + x) 2 Hp ltac:(lia)) as A2.
    replace (4 * (y * w + x) + 0) with (y * w * 4 + 4 * x) in A0 by lia.
    replace (4 * (y * w + x) + 1) with (y * w * 4 + 4 * x + 1) in A1 by lia.
    replace (4 * (y * w + x) + 2) with (y * w * 4 + 4 * x + 2) in A2 by lia.
    assert (r' = r) as -> by congruence.
    assert (g' = g) as -> by congruence.
    assert (b' = b) as -> by congruence.
    assert (c = 0 \/ c = 1 \/ c = 2) as [-> | [-> | ->]] by lia;
      rewrite ?Z.add_0_r; congruence.
  - rewrite Hpad, Hpad' by assumption. reflexivity.
Qed.

(** X11: the encoded file depends on the width, the height and the R, G
    and B bytes of the [width * height] pixels only: for positive
    dimensions, a file size below [2^32] and a served allocation, two
    buffers that hold the image and agree on those bytes give the same file;
    the alpha bytes and any bytes of the buffer beyond the image do not
    reach the output. *)
Theorem encode_ignores_alpha :
  forall (heap : allocator) (w h : Z) (rgba rgba' : list byte) (junk : byte),
    0 < w -> 0 < h ->
    w * h * 4 <= Z.of_nat (length rgba) -> w * h * 4 <= Z.of_nat (length rgba') ->
    54 + spec_stride 3 w * h < 2 ^ 32 ->
    heap (54 + spec_stride 3 w * h) = Some junk ->
    (forall p c, 0 <= p < w * h -> 0 <= c < 3 ->
       load rgba' (4 * p + c) = load rgba (4 * p + c)) ->
    exists out,
      bare_bmp_encode heap (Image w h rgba) = Ok out
      /\ bare_bmp_encode heap (Image w h rgba') = Ok out.
Proof.
  intros heap w h rgba rgba' junk Hw Hh Hlen Hlen' Hfs Hheap Hrgb.
  destruct (spec_stride_bounds 3 w ltac:(lia) ltac:(auto)) as (_ & Hb & _).
  assert (3 * w <= spec_stride 3 w * h /\ 3 * h <= spec_stride 3 w * h) by nia.
  apply (encode_same_rgb heap heap w h rgba rgba' junk junk); try assumption; lia.
Qed.

(** A red pixel with alpha 255 and with alpha 0 followed by a stray byte. *)
Lemma encode_ignores_alpha_witness :
  exists out,
    bare_bmp_encode heap_ok (Image 1 1 (bytes [255; 0; 0; 255])) = Ok out
    /\ bare_bmp_encode heap_ok (Image 1 1 (bytes [255; 0; 0; 0; 9])) = Ok out.
Proof.
  apply (encode_ignores_alpha heap_ok 1 1 _ _ xaa).
  - lia.
  - lia.
  - vm_compute. discriminate.
  - vm_compute. discriminate.
  - vm_compute. reflexivity.
  - reflexivity.
  - intros p c Hp Hc. assert (p = 0) as -> by lia.
    assert (c = 0 \/ c = 1 \/ c = 2) as [-> | [-> | ->]] by lia; reflexivity.
Defined.

(** X12: encoding is stable under a decode, through the wrappers of
    [index.js] as well: the file that [encode] makes of an image is, byte for
    byte, the file that [encode] makes of the image that [decode] reads back
    from it. *)
Theorem encode_decode_encode :
  forall (heap1 heap2 heap3 : allocator) (w h : Z) (rgba : list byte) (j1 j2 j3 : byte),
    0 < w -> 0 < h -> w * h * 4 < 2 ^ 31 ->
    w * h * 4 <= Z.of_nat (length rgba) ->
    heap1 (54 + spec_stride 3 w * h) = Some j1 ->
    heap2 (w * h * 4) = Some j2 ->
    heap3 (54 + spec_stride 3 w * h) = Some j3 ->
    exists out img',
      encode heap1 (Image w h rgba) = Ok out
      /\ decode heap2 out = Ok img'
      /\ encode heap3 img' = Ok out.
Proof.
  intros heap1 heap2 heap3 w h rgba j1 j2 j3 Hw Hh Hsz Hlen H1 H2 H3.
  unfold encode, decode.
  assert (Hwr : - 2 ^ 31 <= w < 2 ^ 31) by nia.
  assert (Hhr : 0 <= h < 2 ^ 31) by nia.
  assert (Hpos : 0 < h -> 0 <= w) by lia.
  destruct (encode_then_decode heap1 heap2 w h rgba j1 j2 Hwr Hhr Hpos Hsz Hlen H1 H2)
    as (out & img' & E1 & E2 & Hw' & Hh' & Hl' & Hrgb & _).
  exists out, img'. split; [exact E1|]. split; [exact E2|].
  destruct img' as [w' h' d']. simpl in Hw', Hh', Hl', Hrgb. subst w' h'.
  destruct (spec_stride_bounds 3 w ltac:(lia) ltac:(auto)) as (_ & Hb & Hb4).
  assert (Hfs : 54 + spec_stride 3 w * h < 2 ^ 32) by nia.
  assert (Hl2 : w * h * 4 <= Z.of_nat (length d')) by lia.
  destruct (encode_same_rgb heap1 heap3 w h rgba d' j1 j3 Hwr Hhr Hpos Hlen Hl2 Hfs
              H1 H3 Hrgb)
    as (out2 & E1' & E3).
  congruence.
Qed.

(** On a 2x1 image with alpha 7 and 9. *)
Lemma encode_decode_encode_witness :
  exists out img',
    encode heap_ok (Image 2 1 (bytes [1; 2; 3; 7; 4; 5; 6; 9])) = Ok out
    /\ decode heap_ok out = Ok img'
    /\ encode heap_ok img' = Ok out.
Proof.
  apply (encode_decode_encode heap_ok heap_ok heap_ok 2 1 _ xaa xaa xaa).
  - lia.
  - lia.
  - vm_compute. reflexivity.
  - vm_compute. discriminate.
  - reflexivity.
  - reflexivity.
  - reflexivity.
Defined.

(** ** Decoding, then encoding *)



(** ** The row size *)

(** X14: the row size that the decoder computes is a multiple of 4 on every
    input, wrapped or not; where [width * bytes_per_pixel + 3] fits 32 bits
    it is the least multiple of 4 that holds the row, so a row carries at
    most three bytes of padding. *)
Theorem row_size_aligned :
  forall w bytes_per_pixel : Z,
    row_size w bytes_per_pixel mod 4 = 0
    /\ 0 <= row_size w bytes_per_pixel < 2 ^ 32
    /\ (0 <= w -> 1 <= bytes_per_pixel -> w * bytes_per_pixel + 3 < 2 ^ 32 ->
        w * bytes_per_pixel <= row_size w bytes_per_pixel < w * bytes_per_pixel + 4).
Proof.
  intros w bytes_per_pixel.
  assert (Hq : forall z, 0 <= z < 2 ^ 32 -> u32 (z / 4 * 4) = z / 4 * 4).
  { intros z Hz. apply u32_small.
    pose proof (Z.div_mod z 4 ltac:(lia)). pose proof (Z.mod_pos_bound z 4 ltac:(lia)).
    lia. }
  split; [|split].
  - unfold row_size. rewrite Hq by apply u32_range. apply Z.mod_mul. lia.
  - unfold row_size. apply u32_range.
  - intros Hw Hb Hlt. unfold row_size.
    assert (0 <= w * bytes_per_pixel) by nia.
    rewrite (u32_small w) by nia.
    rewrite (u32_small (w * bytes_per_pixel)) by lia.
    rewrite (u32_small (w * bytes_per_pixel + 3)) by lia.
    rewrite Hq by lia.
    pose proof (Z.div_mod (w * bytes_per_pixel + 3) 4 ltac:(lia)).
    pose proof (Z.mod_pos_bound (w * bytes_per_pixel + 3) 4 ltac:(lia)). lia.
Qed.

(** ** Images without pixels *)

(** X15: an image of width 0 or height 0 is encoded as the bare 54-byte
    header, whatever the buffer holds (an empty buffer is enough). *)
Theorem encode_no_pixels :
  forall (heap : allocator) (w h : Z) (rgba : list byte) (junk : byte),
    0 <= w < 2 ^ 31 -> 0 <= h < 2 ^ 31 -> w = 0 \/ h = 0 ->
    heap 54 = Some junk ->
    bare_bmp_encode heap (Image w h rgba) = Ok (encoded_header w h)
    /\ length (encoded_header w h) = 54%nat
    /\ read_i32 (encoded_header w h) 18 = Ok w
    /\ read_i32 (encoded_header w h) 22 = Ok h
    /\ read_u32 (encoded_header w h) 2 = Ok 54.
Proof.
  intros heap w h rgba junk Hw Hh H0 Hheap.
  assert (Hs : spec_stride 3 w * h = 0).
  { destruct H0 as [-> | ->]; [reflexivity | lia]. }
  assert (Hwr : - 2 ^ 31 <= w < 2 ^ 31) by lia.
  assert (Hpos : 0 < h -> 0 <= w) by lia.
  assert (Hlen : w * h * 4 <= Z.of_nat (length rgba)) by (destruct H0 as [-> | ->]; lia).
  assert (Hfs : 54 + spec_stride 3 w * h < 2 ^ 32) by (rewrite Hs; lia).
  assert (Hheap' : heap (54 + spec_stride 3 w * h) = Some junk)
    by (rewrite Hs; exact Hheap).
  destruct (encode_total heap w h rgba junk Hwr Hh Hpos Hlen Hfs Hheap')
    as (out & E & Hl & Hhdr & _).
  rewrite Hs in Hl.
  assert (out = encoded_header w h) as ->.
  { apply load_ext.
    - change (length (encoded_header w h)) with 54%nat. lia.
    - intros j Hj. apply Hhdr. change (length (encoded_header w h)) with 54%nat in Hj. lia. }
  split; [exact E|]. split; [reflexivity|].
  destruct (encoded_header_fields w h (encoded_header w h) Hwr ltac:(lia) ltac:(lia) Hfs
              ltac:(reflexivity))
    as (_ & F2 & _ & _ & _ & _ & F18 & F22 & _).
  rewrite Hs in F2. auto.
Qed.

(** A 5 by 0 image with an empty buffer. *)
Lemma encode_no_pixels_witness :
  bare_bmp_encode heap_ok (Image 5 0 []) = Ok (encoded_header 5 0)
  /\ length (encoded_header 5 0) = 54%nat
  /\ read_i32 (encoded_header 5 0) 18 = Ok 5
  /\ read_i32 (encoded_header 5 0) 22 = Ok 0
  /\ read_u32 (encoded_header 5 0) 2 = Ok 54.
Proof.
  apply (encode_no_pixels heap_ok 5 0 [] xaa).
  - lia.
  - lia.
  - right. reflexivity.
  - reflexivity.
Defined.

(** X16: on an input that passes the format checks and declares no pixel
    (width 0 with a height other than [-2^31], or height 0) and whose data
    offset lies within the input, the outcome is the answer of
    [malloc (0)]: the empty image where it returns a block,
    [AllocationFailure] where it returns a null pointer. *)
Theorem decode_no_pixels :
  forall (heap : allocator) (bmp : list byte) (data_offset w h bpp : Z),
    accepted_header bmp data_offset w h bpp ->
    - 2 ^ 31 < h -> w = 0 \/ h = 0 ->
    data_offset <= Z.of_nat (length bmp) ->
    (heap 0 = None -> bare_bmp_decode heap bmp = Throw AllocationFailure)
    /\ (heap 0 <> None -> bare_bmp_decode heap bmp = Ok (Image w (Z.abs h) [])).
Proof.
  intros heap bmp data_offset w h bpp Hacc Hh H0 Hoff.
  assert (Hz : w * Z.abs h = 0) by (destruct H0 as [-> | ->]; lia).
  assert (Hrs : row_size w (bpp / 8) * Z.abs h = 0).
  { destruct H0 as [-> | ->]; [|apply Z.mul_0_r].
    destruct Hacc as (_ & _ & _ & _ & _ & [-> | ->] & _); reflexivity. }
  split.
  - intros Hnull.
    rewrite (decode_checked heap bmp data_offset w h bpp Hacc Hh).
    assert (Hext : pixel_extent data_offset (row_size w (bpp / 8)) (Z.abs h)
                   <= Z.of_nat (length bmp)).
    { assert (Hhr : h < 2 ^ 31).
      { destruct Hacc as (_ & _ & _ & _ & _ & _ & _ & Eh & _).
        apply read_i32_range in Eh. lia. }
      assert (Ho : 0 <= data_offset).
      { destruct Hacc as (_ & _ & _ & _ & _ & _ & _ & _ & Eo).
        apply read_u32_range in Eo. lia. }
      unfold pixel_extent. rewrite (u32_small (Z.abs h)) by lia.
      rewrite Hrs. change (u32 0) with 0. rewrite Z.add_0_r.
      pose proof (u32_le data_offset Ho). lia. }
    destruct (Z.gtb_spec (pixel_extent data_offset (row_size w (bpp / 8)) (Z.abs h))
                (Z.of_nat (length bmp))) as [|_]; [lia|].
    rewrite Hz. change (i32 0) with (Ok (A := Z) 0). cbn [bind].
    change (i32 (0 * 4)) with (Ok (A := Z) 0). cbn [bind].
    change (u64 0) with 0. unfold malloc. rewrite Hnull. reflexivity.
  - intros Hsome. destruct (heap 0) as [junk|] eqn:Eh0; [|contradiction].
    destruct (decode_total heap bmp data_offset w h bpp junk Hacc Hh)
      as (img & E & Hw & Hht).
    + lia.
    + rewrite Hrs. lia.
    + rewrite Hz. exact Eh0.
    + rewrite E.
      destruct (decode_pixels heap bmp img E)
        as (o' & w' & h' & b' & _ & _ & Hw' & Hh' & _ & Hl & _).
      destruct img as [iw ih d]. simpl in Hw, Hht, Hw', Hh', Hl.
      rewrite <- Hw', <- Hh' in Hl. rewrite Hw, Hht in Hl. rewrite Hw, Hht.
      destruct d as [|b d]; [reflexivity|]. simpl length in Hl. lia.
Qed.

(** On the bare header that declares a 0 by 0 image. *)
Lemma decode_no_pixels_witness :
  (heap_null 0 = None -> bare_bmp_decode heap_null empty_image_bmp = Throw AllocationFailure)
  /\ (heap_null 0 <> None ->
      bare_bmp_decode heap_null empty_image_bmp = Ok (Image 0 (Z.abs 0) [])).
Proof.
  apply (decode_no_pixels heap_null empty_image_bmp 54 0 0 24).
  - unfold accepted_header.
    repeat (split; [first [vm_compute; reflexivity | vm_compute; discriminate
                          | left; reflexivity]|]).
    vm_compute. reflexivity.
  - lia.
  - left. reflexivity.
  - vm_compute. discriminate.
Defined.
(** ** The outcome inside the size bounds *)

Lemma decode_alloc_failure (heap : allocator) (bmp : list byte) (data_offset w h bpp : Z) :
  accepted_header bmp data_offset w h bpp -> - 2 ^ 31 < h ->
  pixel_extent data_offset (row_size w (bpp / 8)) (Z.abs h) <= Z.of_nat (length bmp) ->
  0 <= w * Z.abs h * 4 < 2 ^ 31 ->
  heap (w * Z.abs h * 4) = None ->
  bare_bmp_decode heap bmp = Throw AllocationFailure.
Proof.
  intros Hacc Hh Hext Hsz Hnull.
  rewrite (decode_checked heap bmp data_offset w h bpp Hacc Hh).
  destruct (Z.gtb_spec (pixel_extent data_offset (row_size w (bpp / 8)) (Z.abs h))
              (Z.of_nat (length bmp))) as [|_]; [lia|].
  rewrite (i32_in_range (w * Z.abs h)) by lia. cbn [bind].
  rewrite (i32_in_range (w * Z.abs h * 4)) by lia. cbn [bind].
  rewrite u64_small by lia. unfold malloc. rewrite Hnull.
  destruct (_ <=? _); reflexivity.
Qed.

Lemma encode_alloc_failure (heap : allocator) (w h : Z) (rgba : list byte) :
  0 <= w < 2 ^ 31 -> 0 <= h < 2 ^ 31 ->
  w * h * 4 <= Z.of_nat (length rgba) ->
  54 + spec_stride 3 w * h < 2 ^ 32 ->
  heap (54 + spec_stride 3 w * h) = None ->
  bare_bmp_encode heap (Image w h rgba) = Throw AllocationFailure.
Proof.
  intros Hw Hh Hlen Hfs Hnull.
  set (rs := u32 ((w * 3 + 3) ÷ 4 * 4)).
  pose proof (u32_range ((w * 3 + 3) ÷ 4 * 4)) as Hrs. fold rs in Hrs.
  assert (Hrsh : rs * h = spec_stride 3 w * h).
  { destruct (Z.eq_dec h 0) as [->|Hne]; [lia|]. f_equal.
    destruct (spec_stride_bounds 3 w ltac:(lia) ltac:(auto)) as (Hs & Hb & _).
    apply encode_stride; [lia|].
    pose proof (Z.div_mod (w * 3 + 3) 4 ltac:(lia)).
    pose proof (Z.mod_pos_bound (w * 3 + 3) 4 ltac:(lia)). nia. }
  assert (H0 : 0 <= rs * h) by nia.
  assert (Hwh : 0 <= w * h /\ w * h * 3 <= spec_stride 3 w * h).
  { destruct (spec_stride_bounds 3 w ltac:(lia) ltac:(auto)) as (_ & Hb & _).
    split; [apply Z.mul_nonneg_nonneg; lia|].
    replace (w * h * 3) with (w * 3 * h) by lia.
    apply Z.mul_le_mono_nonneg_r; lia. }
  unfold bare_bmp_encode. cbv zeta. simpl width. simpl height. simpl data.
  rewrite (i64_in_range (w * h)) by lia. cbn [bind].
  rewrite (i64_in_range (w * h * 4)) by lia. cbn [bind].
  rewrite (u64_small (w * h * 4)) by lia.
  destruct (Z.ltb_spec (Z.of_nat (length rgba)) (w * h * 4)) as [|_]; [lia|].
  rewrite (i64_in_range (w * 3)) by lia. cbn [bind].
  rewrite (i64_in_range (w * 3 + 3)) by lia. cbn [bind].
  rewrite (i64_in_range ((w * 3 + 3) ÷ 4 * 4)) by (apply quot_stride_range; lia).
  cbn [bind]. fold rs.
  rewrite (i64_in_range (rs * h)) by nia. cbn [bind].
  rewrite (u32_small (rs * h)) by lia.
  change (sizeof_file_header + sizeof_dib_header) with 54.
  rewrite (u64_small (54 + rs * h)) by lia.
  rewrite (u32_small (54 + rs * h)) by lia.
  rewrite Hrsh.
  unfold malloc. rewrite Hnull.
  destruct (_ <=? _); reflexivity.
Qed.

(** X17: inside the size bounds the decoder is well defined, and its
    outcome on an input that passes the format checks is decided by the
    input length and by [malloc] alone: with a width that is not negative,
    a height other than [-2^31], an output size [width * |height| * 4] that
    fits [int] and a pixel extent below [2^32], the call throws
    [TruncatedData] when the extent exceeds the input, else
    [AllocationFailure] when [malloc] returns a null pointer, else it
    returns an image. *)
Theorem decode_outcome :
  forall (heap : allocator) (bmp : list byte) (data_offset w h bpp : Z),
    accepted_header bmp data_offset w h bpp ->
    0 <= w -> - 2 ^ 31 < h -> w * Z.abs h * 4 < 2 ^ 31 ->
    spec_pixel_extent data_offset (bpp / 8) w h < 2 ^ 32 ->
    let len := Z.of_nat (length bmp) in
    let extent := spec_pixel_extent data_offset (bpp / 8) w h in
    (len < extent /\ bare_bmp_decode heap bmp = Throw TruncatedData)
    \/ (extent <= len /\ heap (w * Z.abs h * 4) = None
        /\ bare_bmp_decode heap bmp = Throw AllocationFailure)
    \/ (extent <= len /\ heap (w * Z.abs h * 4) <> None
        /\ exists rgba, bare_bmp_decode heap bmp = Ok (Image w (Z.abs h) rgba)
                        /\ Z.of_nat (length rgba) = w * Z.abs h * 4).
Proof.
  intros heap bmp data_offset w h bpp Hacc Hw Hh Hsz Hext len extent.
  assert (Hb : bpp / 8 = 3 \/ bpp / 8 = 4).
  { destruct Hacc as (_ & _ & _ & _ & _ & [-> | ->] & _); [left | right]; reflexivity. }
  assert (Hoff : 0 <= data_offset).
  { destruct Hacc as (_ & _ & _ & _ & _ & _ & _ & _ & Eo).
    apply read_u32_range in Eo. lia. }
  assert (Hhr : h < 2 ^ 31).
  { destruct Hacc as (_ & _ & _ & _ & _ & _ & _ & Eh & _).
    apply read_i32_range in Eh. lia. }
  assert (Hnn : 0 <= w * Z.abs h * 4) by nia.
  pose proof (pixel_extent_exact data_offset w h (bpp / 8) Hoff Hw Hb ltac:(lia) Hext)
    as Hexact.
  destruct (Z.lt_ge_cases len extent) as [Hlt|Hge].
  - left. split; [exact Hlt|].
    apply (decode_truncated heap bmp data_offset w h bpp Hacc Hh).
    rewrite Hexact. fold extent. fold len. lia.
  - right.
    destruct (heap (w * Z.abs h * 4)) as [junk|] eqn:Eheap.
    + right. split; [lia|]. split; [discriminate|].
      assert (Hext' : data_offset + row_size w (bpp / 8) * Z.abs h
                      <= Z.of_nat (length bmp)).
      { unfold extent, spec_pixel_extent, len in Hge.
        destruct (Z.eq_dec (Z.abs h) 0) as [E|Hne]; [rewrite E in *; lia|].
        remember (bpp / 8) as B eqn:EB. clear EB.
        rewrite row_size_spec_stride by (destruct Hb; nia).
        exact Hge. }
      destruct (decode_total heap bmp data_offset w h bpp junk Hacc Hh
                  (conj Hnn Hsz) Hext' Eheap) as (img & E & Ew & Eh).
      destruct (decode_pixels heap bmp img E)
        as (o' & w' & h' & b' & _ & _ & Hw' & Hh' & _ & Hl & _).
      destruct img as [iw ih d]. simpl in Ew, Eh, Hw', Hh', Hl.
      exists d. split; [rewrite E, Ew, Eh; reflexivity|].
      rewrite <- Hw', <- Hh' in Hl. rewrite Ew, Eh in Hl. exact Hl.
    + left. split; [lia|]. split; [reflexivity|].
      apply (decode_alloc_failure heap bmp data_offset w h bpp Hacc Hh);
        [rewrite Hexact; fold extent; fold len; lia | lia | exact Eheap].
Qed.

(** The red pixel of the test suite: served and refused by [malloc]. *)
Lemma decode_outcome_witness :
  bare_bmp_decode heap_ok red_1x1_24 <> Undefined
  /\ bare_bmp_decode heap_null red_1x1_24 <> Undefined.
Proof.
  assert (Hacc : accepted_header red_1x1_24 54 1 1 24).
  { unfold accepted_header.
    repeat (split; [first [vm_compute; reflexivity | vm_compute; discriminate
                          | left; reflexivity]|]).
    vm_compute. reflexivity. }
  split.
  - destruct (decode_outcome heap_ok red_1x1_24 54 1 1 24 Hacc ltac:(lia) ltac:(lia)
                ltac:(vm_compute; reflexivity) ltac:(vm_compute; reflexivity))
      as [(_ & E) | [(_ & _ & E) | (_ & _ & rgba & E & _)]]; rewrite E; discriminate.
  - destruct (decode_outcome heap_null red_1x1_24 54 1 1 24 Hacc ltac:(lia) ltac:(lia)
                ltac:(vm_compute; reflexivity) ltac:(vm_compute; reflexivity))
      as [(_ & E) | [(_ & _ & E) | (_ & _ & rgba & E & _)]]; rewrite E; discriminate.
Defined.

(** X18: inside the size bounds the encoder is well defined, and its outcome
    is decided by the buffer length and by [malloc] alone: for a width and a
    height in [0, 2^31) and a file size [54 + stride * height] below
    [2^32], the call throws [BufferTooSmall] when the buffer is shorter than
    [width * height * 4], else [AllocationFailure] when [malloc] returns a
    null pointer, else it returns a file of [54 + stride * height] bytes. *)
Theorem encode_outcome :
  forall (heap : allocator) (w h : Z) (rgba : list byte),
    0 <= w < 2 ^ 31 -> 0 <= h < 2 ^ 31 ->
    54 + spec_stride 3 w * h < 2 ^ 32 ->
    let len := Z.of_nat (length rgba) in
    let file_size := 54 + spec_stride 3 w * h in
    (len < w * h * 4 /\ bare_bmp_encode heap (Image w h rgba) = Throw BufferTooSmall)
    \/ (w * h * 4 <= len /\ heap file_size = None
        /\ bare_bmp_encode heap (Image w h rgba) = Throw AllocationFailure)
    \/ (w * h * 4 <= len /\ heap file_size <> None
        /\ exists out, bare_bmp_encode heap (Image w h rgba) = Ok out
                       /\ Z.of_nat (length out) = file_size).
Proof.
  intros heap w h rgba Hw Hh Hfs len file_size.
  destruct (Z.lt_ge_cases len (w * h * 4)) as [Hlt|Hge].
  - left. split; [exact Hlt|].
    assert (Hwh : 0 <= w * h /\ w * h * 3 <= spec_stride 3 w * h).
    { destruct (spec_stride_bounds 3 w ltac:(lia) ltac:(auto)) as (_ & Hb & _).
      split; [apply Z.mul_nonneg_nonneg; lia|].
      replace (w * h * 3) with (w * 3 * h) by lia.
      apply Z.mul_le_mono_nonneg_r; lia. }
    apply encode_buffer_too_small; [lia | lia | exact Hlt].
  - right.
    destruct (heap file_size) as [junk|] eqn:Eheap.
    + right. split; [lia|]. split; [discriminate|].
      destruct (encode_total heap w h rgba junk ltac:(lia) Hh ltac:(lia) ltac:(lia) Hfs
                  Eheap) as (out & E & Hl & _).
      exists out. split; [exact E | exact Hl].
    + left. split; [lia|]. split; [reflexivity|].
      apply encode_alloc_failure; assumption.
Qed.

(** A 1x1 image: served and refused by [malloc]. *)
Lemma encode_outcome_witness :
  bare_bmp_encode heap_ok (Image 1 1 (bytes [255; 0; 0; 255])) <> Undefined
  /\ bare_bmp_encode heap_null (Image 1 1 (bytes [255; 0; 0; 255])) <> Undefined.
Proof.
  split.
  - destruct (encode_outcome heap_ok 1 1 (bytes [255; 0; 0; 255]) ltac:(lia) ltac:(lia)
                ltac:(vm_compute; reflexivity))
      as [(_ & E) | [(_ & _ & E) | (_ & _ & out & E & _)]]; rewrite E; discriminate.
  - destruct (encode_outcome heap_null 1 1 (bytes [255; 0; 0; 255]) ltac:(lia) ltac:(lia)
                ltac:(vm_compute; reflexivity))
      as [(_ & E) | [(_ & _ & E) | (_ & _ & out & E & _)]]; rewrite E; discriminate.
Defined.
